(** * MeatBagPnP: a shallow embedding of [meatbag.py]

    The development follows the Python source function by function.
    Python strings are modelled as [string] (sequences of 8-bit character
    codes), Python lists as [list], Python floats as the binary64 numbers
    of [PrimFloat], the Qt table widget as a record of cell texts and
    check boxes, and the methods of [MeatBagWindow] as computations in a
    small state-and-exception monad.  The definitions come first, the
    properties of the matcher, the side filter, the grouping step, the
    scan decoder, the coordinate mapping and the placement cursor after. *)

From Stdlib Require Import List String Ascii ZArith Lia Bool Arith Floats.
From Stdlib Require Import Sorted Permutation.
Import ListNotations.

Open Scope string_scope.

(** ** Python string primitives *)

Module PyStr.

(** [startswith s p] is [s.startswith(p)]. *)
Fixpoint startswith (s p : string) {struct p} : bool :=
  match p, s with
  | EmptyString, _ => true
  | String _ _, EmptyString => false
  | String c p', String d s' => Ascii.eqb c d && startswith s' p'
  end.

(** [str_in a b] is the Python expression [a in b] on strings. *)
Fixpoint str_in (a b : string) : bool :=
  startswith b a ||
  match b with
  | EmptyString => false
  | String _ b' => str_in a b'
  end.

(** [c.lower()] on one character: the ASCII capitals go to their small
    letters.  (Python's full Unicode mapping sends no character outside
    [A-Z] to an ASCII letter other than [k] and [i], so the prefix tests
    against [top] and [bot] and the key tests against [+], [-] and [a]
    see the same result.) *)
Definition lower_ascii (c : ascii) : ascii :=
  let n := nat_of_ascii c in
  if (65 <=? n)%nat && (n <=? 90)%nat then ascii_of_nat (n + 32) else c.

(** [s.lower()]. *)
Fixpoint lower (s : string) : string :=
  match s with
  | EmptyString => EmptyString
  | String c s' => String (lower_ascii c) (lower s')
  end.

(** [s[:n]]. *)
Fixpoint slice_to (n : nat) (s : string) : string :=
  match n, s with
  | S n', String c s' => String c (slice_to n' s')
  | _, _ => EmptyString
  end.

(** [s[n:]]. *)
Fixpoint slice_from (n : nat) (s : string) : string :=
  match n, s with
  | S n', String _ s' => slice_from n' s'
  | _, _ => s
  end.

(** The characters [str.strip()] removes, among the 8-bit codes. *)
Definition is_space (c : ascii) : bool :=
  let n := nat_of_ascii c in
  ((9 <=? n) && (n <=? 13) || (28 <=? n) && (n <=? 32)
   || (n =? 133) || (n =? 160))%nat.

Fixpoint lstrip (s : string) : string :=
  match s with
  | String c s' => if is_space c then lstrip s' else s
  | EmptyString => EmptyString
  end.

Fixpoint rstrip (s : string) : string :=
  match s with
  | EmptyString => EmptyString
  | String c s' =>
      match rstrip s' with
      | EmptyString => if is_space c then EmptyString else String c EmptyString
      | t => String c t
      end
  end.

(** [s.strip()]. *)
Definition strip (s : string) : string := rstrip (lstrip s).

(** The text before and after the leftmost occurrence of [sep] in [s],
    when there is one. *)
Fixpoint split_first (sep s : string) : option (string * string) :=
  if startswith s sep then Some (EmptyString, slice_from (String.length sep) s)
  else match s with
       | EmptyString => None
       | String c s' =>
           match split_first sep s' with
           | Some (before, after) => Some (String c before, after)
           | None => None
           end
       end.

(** [s.split(sep)[0]], for a non-empty [sep]. *)
Definition split_item0 (sep s : string) : string :=
  match split_first sep s with
  | Some (before, _) => before
  | None => s
  end.

(** [s.split(sep)[1]], for a non-empty [sep]; [None] stands for the
    [IndexError] of a list with one item. *)
Definition split_item1 (sep s : string) : option string :=
  match split_first sep s with
  | Some (_, after) => Some (split_item0 sep after)
  | None => None
  end.

(** [a] occurs in [b] as a contiguous run of characters. *)
Definition substring_of (a b : string) : Prop :=
  exists pre post, b = pre ++ a ++ post.

(** [s] begins with [p]. *)
Definition has_prefix (s p : string) : Prop :=
  exists rest, s = p ++ rest.

End PyStr.

Import PyStr.

(** ** Exceptions and results *)

Inductive exn : Type :=
| ValueError
| AttributeError
| TypeError
| IndexError
| ZeroDivisionError
| OverflowError
| NotImplementedError
| URLError.

Inductive result (A : Type) : Type :=
| Ok (a : A)
| Raise (e : exn).

Arguments Ok {A} a.
Arguments Raise {A} e.

(** ** Layout profiles ([MeatBagCSVSettings] and its subclasses)

    [col_layer] is an integer because the single-layer KiCad profile sets
    it to [-1]; the other columns are never negative. *)

Record MeatBagCSVSettings : Type := mkSettings {
  col_layer : Z;
  col_x : nat;
  col_y : nat;
  col_pn : nat;
  col_des : nat;
  col_com : nat;
  row_start : nat
}.

Definition MeatBagCSVSettingsBase : MeatBagCSVSettings :=
  mkSettings 0 0 0 0 0 0 0.

Definition MeatBagCSVSettingsAltium : MeatBagCSVSettings :=
  mkSettings 2 4 5 8 0 1 1.

Definition MeatBagCSVSettingsKicadSingleLayer : MeatBagCSVSettings :=
  mkSettings (-1) 3 4 1 0 1 1.

Definition MeatBagCSVSettingsKicadMultiLayer : MeatBagCSVSettings :=
  mkSettings 6 3 4 1 0 1 1.

(** A row of the coordinate file as [csv.reader] yields it. *)
Definition row : Type := list string.

(** ** The matcher ([process_new_pn], [process_new_com]) *)

(** The test of the matching loops:
    [(len(field) > gate and field in token) or token in field]. *)
Definition field_matches (gate : nat) (field token : string) : bool :=
  (gate <? String.length field)%nat && str_in field token || str_in token field.

(** A loop that walks a list and appends to its result the index of
    every item that passes a test, the first item having index [i]. *)
Fixpoint indices_where {A : Type} (test : A -> bool) (i : nat) (l : list A)
  : list nat :=
  match l with
  | [] => []
  | x :: l' =>
      if test x then i :: indices_where test (S i) l'
      else indices_where test (S i) l'
  end.

(** [for i in range(0, len(self.pdb)): if ...: matchlist.append(i)];
    the gate is [4] in [process_new_pn]. *)
Definition pn_matchlist (pdb : list string) (pn : string) : list nat :=
  indices_where (fun field => field_matches 4 field pn) 0 pdb.

(** The same loop over [self.pdc] in [process_new_com], with gate [3]. *)
Definition com_matchlist (pdc : list string) (com : string) : list nat :=
  indices_where (fun field => field_matches 3 field com) 0 pdc.

(** ** Grouping at load time ([group_components_by_value]) *)

(** [value_groups]: a Python dict from keys to lists of rows, in
    insertion order. *)
Definition value_groups : Type := list (string * list row).

(** [if key not in value_groups: value_groups[key] = []] followed by
    [value_groups[key].append(row)]. *)
Fixpoint groups_append (key : string) (r : row) (d : value_groups)
  : value_groups :=
  match d with
  | [] => [(key, [r])]
  | (k, rs) :: d' =>
      if String.eqb key k then (k, (rs ++ [r])%list) :: d'
      else (k, rs) :: groups_append key r d'
  end.

(** [row[col_layer] if col_layer >= 0 else "top"]. *)
Definition layer_of (cfg : MeatBagCSVSettings) (r : row) : result string :=
  if (0 <=? col_layer cfg)%Z then
    match nth_error r (Z.to_nat (col_layer cfg)) with
    | Some layer => Ok layer
    | None => Raise IndexError
    end
  else Ok "top".

(** [f"{value}_{layer}"]. *)
Definition group_key (value layer : string) : string :=
  value ++ "_" ++ layer.

(** The loop over [data_rows] that fills [value_groups]. *)
Fixpoint build_groups (cfg : MeatBagCSVSettings) (data_rows : list row)
  (d : value_groups) : result value_groups :=
  match data_rows with
  | [] => Ok d
  | r :: rest =>
      if (List.length r <=? col_com cfg)%nat then build_groups cfg rest d
      else
        match layer_of cfg r with
        | Raise e => Raise e
        | Ok layer =>
            build_groups cfg rest
              (groups_append (group_key (nth (col_com cfg) r "") layer) r d)
        end
  end.

(** Python's [sorted] and [list.sort] are stable; on a key with a total
    order the result of a stable sort is unique, and insertion from the
    right computes it. *)
Fixpoint insert_by {A : Type} (key : A -> string) (x : A) (l : list A)
  : list A :=
  match l with
  | [] => [x]
  | y :: l' =>
      if String.leb (key x) (key y) then x :: l else y :: insert_by key x l'
  end.

Fixpoint sort_by {A : Type} (key : A -> string) (l : list A) : list A :=
  match l with
  | [] => []
  | x :: l' => insert_by key x (sort_by key l')
  end.

(** [lambda x: x[col_des] if len(x) > col_des else ""]. *)
Definition designator_key (cfg : MeatBagCSVSettings) (r : row) : string :=
  nth (col_des cfg) r "".

(** [sorted(value_groups.items())] compares the (key, rows) pairs; the
    keys of a dict differ pairwise, so the keys decide. *)
Definition sorted_groups (d : value_groups) : value_groups :=
  sort_by fst d.

Definition group_components_by_value (cfg : MeatBagCSVSettings)
  (ppdata : list row) : result (list row) :=
  match ppdata with
  | [] => Ok ppdata
  | header_row :: data_rows =>
      match build_groups cfg data_rows [] with
      | Raise e => Raise e
      | Ok groups =>
          Ok (header_row ::
              flat_map (fun g => sort_by (designator_key cfg) (snd g))
                       (sorted_groups groups))
      end
  end.

(** ** The side filter of [update_table_for_selected_side] *)

(** [build_side] is the index of the side combo box: [0] is top. *)
Definition target_side (build_side : nat) : string :=
  if (build_side =? 0)%nat then "top" else "bottom".

(** The body of the filter loop: whether [r] is appended to
    [filtered_data]. *)
Definition keeps_row (cfg : MeatBagCSVSettings) (build_side : nat) (r : row)
  : bool :=
  if (col_layer cfg <? Z.of_nat (List.length r))%Z && (0 <=? col_layer cfg)%Z
  then
    startswith (lower (nth (Z.to_nat (col_layer cfg)) r ""))
               (slice_to 3 (target_side build_side))
  else if (col_layer cfg <? 0)%Z then String.eqb (target_side build_side) "top"
  else false.

(** [filtered_data] for a non-empty [all_components_data]. *)
Definition filtered_data (cfg : MeatBagCSVSettings) (build_side : nat)
  (all_components_data : list row) : list row :=
  match all_components_data with
  | [] => []
  | header_row :: rest => header_row :: filter (keeps_row cfg build_side) rest
  end.

(** The component rows the same loop keeps for a side, as indices into
    [all_components_data] (the header has index [0], the loop starts at
    index [1]). *)
Definition side_view (cfg : MeatBagCSVSettings) (build_side : nat)
  (all_components_data : list row) : list nat :=
  indices_where (keeps_row cfg build_side) 1 (tl all_components_data).

(** ** Python numbers *)

(** [float(z)] for a Python integer [z]: the nearest binary64 number,
    ties to even. *)
Definition float_of_Z (z : Z) : float :=
  SF2Prim (binary_normalize prec emax z 0 false).

(** [float(z)], with the [OverflowError] of an integer too large. *)
Definition py_float_of_int (z : Z) : result float :=
  let f := float_of_Z z in
  if is_infinity f then Raise OverflowError else Ok f.

(** [a / b] on floats: Python raises when the divisor compares equal to
    zero (of either sign) and otherwise divides as IEEE 754 does. *)
Definition py_truediv (a b : float) : result float :=
  if (b =? 0)%float then Raise ZeroDivisionError else Ok (a / b)%float.

(** The integer nearest to [m * 2^e], ties to the even one. *)
Definition round_half_even (m : positive) (e : Z) : Z :=
  if (0 <=? e)%Z then (Z.pos m * 2 ^ e)%Z
  else
    let d := (2 ^ (- e))%Z in
    let q := (Z.pos m / d)%Z in
    let r := (Z.pos m mod d)%Z in
    match (2 * r ?= d)%Z with
    | Lt => q
    | Gt => (q + 1)%Z
    | Eq => if Z.even q then q else (q + 1)%Z
    end.

(** [round(f)] with one argument: an integer, the nearest one, ties to
    even; [ValueError] on a NaN and [OverflowError] on an infinity. *)
Definition py_round (f : float) : result Z :=
  match Prim2SF f with
  | S754_zero _ => Ok 0%Z
  | S754_nan => Raise ValueError
  | S754_infinity _ => Raise OverflowError
  | S754_finite s m e => Ok (cond_Zopp s (round_half_even m e))
  end.

(** [min(a, b, c)]: the first of the least. *)
Definition py_min3 (a b c : float) : float :=
  let m := if (b <? a)%float then b else a in
  if (c <? m)%float then c else m.

(** ** The state-and-exception monad of the methods

    A method runs on the object's state and ends with a value or with an
    exception; in both cases the assignments made so far stay. *)

Definition M (S A : Type) : Type := S -> result A * S.

Definition ret {S A : Type} (a : A) : M S A := fun s => (Ok a, s).

Definition raise {S A : Type} (e : exn) : M S A := fun s => (Raise e, s).

Definition bind {S A B : Type} (m : M S A) (k : A -> M S B) : M S B :=
  fun s =>
    match m s with
    | (Ok a, s') => k a s'
    | (Raise e, s') => (Raise e, s')
    end.

Definition gets {S A : Type} (f : S -> A) : M S A := fun s => (Ok (f s), s).

Definition modify {S : Type} (f : S -> S) : M S unit := fun s => (Ok tt, f s).

(** [try: m except <the exceptions of handles>: h]. *)
Definition try_except {S A : Type} (m : M S A) (handles : exn -> bool)
  (h : M S A) : M S A :=
  fun s =>
    match m s with
    | (Raise e, s') => if handles e then h s' else (Raise e, s')
    | done => done
    end.

Definition lift_result {S A : Type} (r : result A) : M S A := fun s => (r, s).

(** A value that is [None] in Python and whose use raises [e]. *)
Definition or_raise {S A : Type} (e : exn) (o : option A) : M S A :=
  match o with
  | Some a => ret a
  | None => raise e
  end.

(** A method of an attribute, run on that attribute of the object. *)
Definition lift_field {S T A : Type} (proj : S -> T) (upd : T -> S -> S)
  (m : M T A) : M S A :=
  fun s => let (r, t') := m (proj s) in (r, upd t' s).

Declare Scope monad_scope.
Delimit Scope monad_scope with monad.

Notation "x <- m ;; k" := (bind m (fun x => k))
  (at level 61, m at next level, right associativity) : monad_scope.
Notation "m ;; k" := (bind m (fun _ => k))
  (at level 61, right associativity) : monad_scope.

Open Scope monad_scope.

(** [for x in l: body(x)]. *)
Fixpoint for_each {S A : Type} (l : list A) (body : A -> M S unit) : M S unit :=
  match l with
  | [] => ret tt
  | x :: l' => body x ;; for_each l' body
  end.

Definition is_ValueError (e : exn) : bool :=
  match e with ValueError => true | _ => false end.

Definition is_ZeroDivisionError (e : exn) : bool :=
  match e with ZeroDivisionError => true | _ => false end.

Definition is_ValueError_or_AttributeError (e : exn) : bool :=
  match e with ValueError | AttributeError => true | _ => false end.

(** ** [PCBPainter]

    Of an image only the pixel size matters here: [image_size] is the
    size of [QImage(self.image_path)] (zero by zero for a null image),
    [original_base] the size of the image loaded last.  A marker painted
    on [self.base] is kept as its centre and diameter; [displayed] is
    what [redraw] hands to the label. *)

Record PCBPainter : Type := mkPainter {
  marker_diameter : Z;
  pcbwidth : float;
  pcbheight : float;
  image_size : Z * Z;
  original_base : option (Z * Z);
  display_scale : float;
  base_markers : list (Z * Z * Z);
  displayed : list (Z * Z * Z);
  division_warnings : nat
}.

Definition set_marker_diameter (v : Z) (p : PCBPainter) : PCBPainter :=
  mkPainter v (pcbwidth p) (pcbheight p) (image_size p) (original_base p)
    (display_scale p) (base_markers p) (displayed p) (division_warnings p).

Definition set_board (w h : float) (p : PCBPainter) : PCBPainter :=
  mkPainter (marker_diameter p) w h (image_size p) (original_base p)
    (display_scale p) (base_markers p) (displayed p) (division_warnings p).

Definition set_image_size (v : Z * Z) (p : PCBPainter) : PCBPainter :=
  mkPainter (marker_diameter p) (pcbwidth p) (pcbheight p) v (original_base p)
    (display_scale p) (base_markers p) (displayed p) (division_warnings p).

Definition set_original_base (v : option (Z * Z)) (p : PCBPainter) : PCBPainter :=
  mkPainter (marker_diameter p) (pcbwidth p) (pcbheight p) (image_size p) v
    (display_scale p) (base_markers p) (displayed p) (division_warnings p).

Definition set_display_scale (v : float) (p : PCBPainter) : PCBPainter :=
  mkPainter (marker_diameter p) (pcbwidth p) (pcbheight p) (image_size p)
    (original_base p) v (base_markers p) (displayed p) (division_warnings p).

Definition set_base_markers (v : list (Z * Z * Z)) (p : PCBPainter) : PCBPainter :=
  mkPainter (marker_diameter p) (pcbwidth p) (pcbheight p) (image_size p)
    (original_base p) (display_scale p) v (displayed p) (division_warnings p).

Definition set_displayed (v : list (Z * Z * Z)) (p : PCBPainter) : PCBPainter :=
  mkPainter (marker_diameter p) (pcbwidth p) (pcbheight p) (image_size p)
    (original_base p) (display_scale p) (base_markers p) v (division_warnings p).

Definition set_division_warnings (v : nat) (p : PCBPainter) : PCBPainter :=
  mkPainter (marker_diameter p) (pcbwidth p) (pcbheight p) (image_size p)
    (original_base p) (display_scale p) (base_markers p) (displayed p) v.

(** [PCBPainter.__init__]: the spin boxes start at zero, no image. *)
Definition PCBPainter_init : PCBPainter :=
  mkPainter 20 0%float 0%float (0, 0)%Z None 1%float [] [] 0.

Definition marker_diameter_increment : M PCBPainter bool :=
  d <- gets marker_diameter ;;
  modify (set_marker_diameter (d + 10)%Z) ;;
  ret true.

Definition marker_diameter_decrement : M PCBPainter bool :=
  d <- gets marker_diameter ;;
  if (d <? 10)%Z then ret false
  else modify (set_marker_diameter (d - 10)%Z) ;; ret true.

(** The two quotients of [draw_marker]'s [try] block. *)
Definition marker_scales (W H : Z) (boardwidth boardheight : float)
  : result (float * float) :=
  match py_float_of_int W with
  | Raise e => Raise e
  | Ok w =>
      match py_truediv w boardwidth with
      | Raise e => Raise e
      | Ok scale_x =>
          match py_float_of_int H with
          | Raise e => Raise e
          | Ok h =>
              match py_truediv h boardheight with
              | Raise e => Raise e
              | Ok scale_y => Ok (scale_x, scale_y)
              end
          end
      end
  end.

(** The rest of the arithmetic of [draw_marker], down to [x_int] and
    [y_int]. *)
Definition marker_pixel (x y : float) (mirror : bool) (W H : Z)
  (scale_x scale_y : float) : result (Z * Z) :=
  let x := (x * scale_x)%float in
  let y := (y * scale_y)%float in
  let y := (float_of_Z H - y)%float in
  let x := if mirror then (float_of_Z W - x)%float else x in
  match py_round x with
  | Raise e => Raise e
  | Ok x_int =>
      match py_round y with
      | Raise e => Raise e
      | Ok y_int => Ok (x_int, y_int)
      end
  end.

(** The coordinate mapping of [draw_marker] as one function of the board
    point, the board size, the image size and the mirror flag. *)
Definition to_pixel (x y boardwidth boardheight : float) (W H : Z)
  (mirror : bool) : result (Z * Z) :=
  match marker_scales W H boardwidth boardheight with
  | Raise e => Raise e
  | Ok (scale_x, scale_y) => marker_pixel x y mirror W H scale_x scale_y
  end.

Definition draw_marker (x y : float) (mirror : bool) : M PCBPainter unit :=
  boardwidth <- gets pcbwidth ;;
  boardheight <- gets pcbheight ;;
  img <- (ob <- gets original_base ;; or_raise AttributeError ob) ;;
  scales <-
    try_except
      (lift_result (marker_scales (fst img) (snd img) boardwidth boardheight))
      is_ZeroDivisionError
      (n <- gets division_warnings ;;
       modify (set_division_warnings (S n)) ;;
       raise ZeroDivisionError) ;;
  xy <- lift_result
          (marker_pixel x y mirror (fst img) (snd img) (fst scales) (snd scales)) ;;
  d <- gets marker_diameter ;;
  ms <- gets base_markers ;;
  modify (set_base_markers (ms ++ [(fst xy, snd xy, d)])%list).

(** [a / b] on two integers that binary64 holds exactly. *)
Definition py_int_truediv (a b : Z) : result float :=
  if (b =? 0)%Z then Raise ZeroDivisionError
  else Ok (float_of_Z a / float_of_Z b)%float.

Definition reload_base : M PCBPainter unit :=
  size <- gets image_size ;;
  modify (set_original_base (Some size)) ;;
  modify (set_base_markers []) ;;
  scale_x <- lift_result (py_int_truediv 800 (fst size)) ;;
  scale_y <- lift_result (py_int_truediv 600 (snd size)) ;;
  modify (set_display_scale (py_min3 scale_x scale_y 1%float)).

Definition redraw : M PCBPainter unit :=
  ms <- gets base_markers ;;
  modify (set_displayed ms).

Definition xy_to_draw (x y : float) (mirror : bool) : M PCBPainter unit :=
  reload_base ;;
  draw_marker x y mirror ;;
  redraw.

(** [image_selected] for a file whose image has the given size. *)
Definition image_selected (size : Z * Z) : M PCBPainter unit :=
  modify (set_image_size size) ;;
  reload_base ;;
  redraw.

(** ** The parts table ([QTableWidget])

    A row of the widget holds one text item per column of the header row
    and, in the last column, a check box item whose text is empty. *)

Inductive QColor : Type :=
| Rgba (r g b a : Z)
| LightGray.

Record TableRow : Type := mkTableRow {
  texts : list string;
  checked : bool;
  background : option QColor
}.

Record QTableWidget : Type := mkTable {
  table_rows : list TableRow;
  columnCount : nat
}.

Definition rowCount (t : QTableWidget) : nat := List.length (table_rows t).

(** [table.item(r, c).text()]; [None] when [table.item(r, c)] is [None]. *)
Definition item_text_opt (t : QTableWidget) (r c : nat) : option string :=
  match nth_error (table_rows t) r with
  | None => None
  | Some tr =>
      if (columnCount t <=? c)%nat then None
      else if (S c =? columnCount t)%nat then Some ""
      else nth_error (texts tr) c
  end.

(** [table.item(r, columnCount - 1).checkState() == Checked]; [None]
    when that item is [None]. *)
Definition item_checked_opt (t : QTableWidget) (r : nat) : option bool :=
  if (columnCount t =? 0)%nat then None
  else option_map checked (nth_error (table_rows t) r).

Fixpoint update_nth {A : Type} (n : nat) (f : A -> A) (l : list A) : list A :=
  match l, n with
  | [], _ => []
  | x :: l', O => f x :: l'
  | x :: l', S n' => x :: update_nth n' f l'
  end.

Definition set_row_checked (r : nat) (v : bool) (t : QTableWidget) : QTableWidget :=
  mkTable
    (update_nth r (fun tr => mkTableRow (texts tr) v (background tr)) (table_rows t))
    (columnCount t).

Definition set_row_background (r : nat) (c : QColor) (t : QTableWidget)
  : QTableWidget :=
  mkTable
    (update_nth r (fun tr => mkTableRow (texts tr) (checked tr) (Some c)) (table_rows t))
    (columnCount t).

(** The table [update_table_for_selected_side] fills from
    [filtered_data]: [numCols - 1] text items per row, [???] where the
    row is shorter than the header, and an unchecked box. *)
Definition table_of (header_row : row) (filtered : list row) : QTableWidget :=
  mkTable
    (map (fun r =>
            mkTableRow
              (map (fun c => nth c r "???") (seq 0 (List.length header_row)))
              false None)
         filtered)
    (List.length header_row + 1).

Definition empty_table : QTableWidget := mkTable [] 0.

(** ** [MeatBagWindow]

    [pdb], [pdc], [topDesList] and [botDesList] are attributes the
    constructor does not create: they are [None] until the method that
    assigns them has run, and reading them before raises
    [AttributeError].  [calls] is the trace of the methods entered, kept
    to state which methods an operation runs. *)

Inductive call : Type :=
| process_keystroke_called (txt : string)
| marker_diameter_increment_called
| marker_diameter_decrement_called
| toggle_draw_all_of_current_value_called
| update_placement_called
| process_new_pn_called (pn : string)
| process_new_com_called (com : string)
| find_next_placement_called
| urlopen_called (url : string)
| webView_load_called (url : string).

Record MeatBagWindow : Type := mkWindow {
  csv_settings : MeatBagCSVSettings;
  build_side : nat;
  all_components_data : list row;
  table : QTableWidget;
  pdb : option (list string);
  pdc : option (list string);
  topDesList : option (list nat);
  botDesList : option (list nat);
  cur_placement : option nat;
  drawing_all_same_value : bool;
  last_keys : string;
  scanLine : string;
  place : string;
  topDes : string;
  botDes : string;
  pcbpainter : PCBPainter;
  calls : list call
}.

Definition set_build_side (v : nat) (w : MeatBagWindow) : MeatBagWindow :=
  mkWindow (csv_settings w) v (all_components_data w) (table w) (pdb w) (pdc w)
    (topDesList w) (botDesList w) (cur_placement w) (drawing_all_same_value w)
    (last_keys w) (scanLine w) (place w) (topDes w) (botDes w) (pcbpainter w)
    (calls w).

Definition set_all_components_data (v : list row) (w : MeatBagWindow)
  : MeatBagWindow :=
  mkWindow (csv_settings w) (build_side w) v (table w) (pdb w) (pdc w)
    (topDesList w) (botDesList w) (cur_placement w) (drawing_all_same_value w)
    (last_keys w) (scanLine w) (place w) (topDes w) (botDes w) (pcbpainter w)
    (calls w).

Definition set_table (v : QTableWidget) (w : MeatBagWindow) : MeatBagWindow :=
  mkWindow (csv_settings w) (build_side w) (all_components_data w) v (pdb w)
    (pdc w) (topDesList w) (botDesList w) (cur_placement w)
    (drawing_all_same_value w) (last_keys w) (scanLine w) (place w) (topDes w)
    (botDes w) (pcbpainter w) (calls w).

Definition set_pdb (v : option (list string)) (w : MeatBagWindow) : MeatBagWindow :=
  mkWindow (csv_settings w) (build_side w) (all_components_data w) (table w) v
    (pdc w) (topDesList w) (botDesList w) (cur_placement w)
    (drawing_all_same_value w) (last_keys w) (scanLine w) (place w) (topDes w)
    (botDes w) (pcbpainter w) (calls w).

Definition set_pdc (v : option (list string)) (w : MeatBagWindow) : MeatBagWindow :=
  mkWindow (csv_settings w) (build_side w) (all_components_data w) (table w)
    (pdb w) v (topDesList w) (botDesList w) (cur_placement w)
    (drawing_all_same_value w) (last_keys w) (scanLine w) (place w) (topDes w)
    (botDes w) (pcbpainter w) (calls w).

Definition set_topDesList (v : option (list nat)) (w : MeatBagWindow)
  : MeatBagWindow :=
  mkWindow (csv_settings w) (build_side w) (all_components_data w) (table w)
    (pdb w) (pdc w) v (botDesList w) (cur_placement w)
    (drawing_all_same_value w) (last_keys w) (scanLine w) (place w) (topDes w)
    (botDes w) (pcbpainter w) (calls w).

Definition set_botDesList (v : option (list nat)) (w : MeatBagWindow)
  : MeatBagWindow :=
  mkWindow (csv_settings w) (build_side w) (all_components_data w) (table w)
    (pdb w) (pdc w) (topDesList w) v (cur_placement w)
    (drawing_all_same_value w) (last_keys w) (scanLine w) (place w) (topDes w)
    (botDes w) (pcbpainter w) (calls w).

Definition set_cur_placement (v : option nat) (w : MeatBagWindow) : MeatBagWindow :=
  mkWindow (csv_settings w) (build_side w) (all_components_data w) (table w)
    (pdb w) (pdc w) (topDesList w) (botDesList w) v (drawing_all_same_value w)
    (last_keys w) (scanLine w) (place w) (topDes w) (botDes w) (pcbpainter w)
    (calls w).

Definition set_drawing_all_same_value (v : bool) (w : MeatBagWindow)
  : MeatBagWindow :=
  mkWindow (csv_settings w) (build_side w) (all_components_data w) (table w)
    (pdb w) (pdc w) (topDesList w) (botDesList w) (cur_placement w) v
    (last_keys w) (scanLine w) (place w) (topDes w) (botDes w) (pcbpainter w)
    (calls w).

Definition set_last_keys (v : string) (w : MeatBagWindow) : MeatBagWindow :=
  mkWindow (csv_settings w) (build_side w) (all_components_data w) (table w)
    (pdb w) (pdc w) (topDesList w) (botDesList w) (cur_placement w)
    (drawing_all_same_value w) v (scanLine w) (place w) (topDes w) (botDes w)
    (pcbpainter w) (calls w).

Definition set_scanLine (v : string) (w : MeatBagWindow) : MeatBagWindow :=
  mkWindow (csv_settings w) (build_side w) (all_components_data w) (table w)
    (pdb w) (pdc w) (topDesList w) (botDesList w) (cur_placement w)
    (drawing_all_same_value w) (last_keys w) v (place w) (topDes w) (botDes w)
    (pcbpainter w) (calls w).

Definition set_place (v : string) (w : MeatBagWindow) : MeatBagWindow :=
  mkWindow (csv_settings w) (build_side w) (all_components_data w) (table w)
    (pdb w) (pdc w) (topDesList w) (botDesList w) (cur_placement w)
    (drawing_all_same_value w) (last_keys w) (scanLine w) v (topDes w) (botDes w)
    (pcbpainter w) (calls w).

Definition set_topDes (v : string) (w : MeatBagWindow) : MeatBagWindow :=
  mkWindow (csv_settings w) (build_side w) (all_components_data w) (table w)
    (pdb w) (pdc w) (topDesList w) (botDesList w) (cur_placement w)
    (drawing_all_same_value w) (last_keys w) (scanLine w) (place w) v (botDes w)
    (pcbpainter w) (calls w).

Definition set_botDes (v : string) (w : MeatBagWindow) : MeatBagWindow :=
  mkWindow (csv_settings w) (build_side w) (all_components_data w) (table w)
    (pdb w) (pdc w) (topDesList w) (botDesList w) (cur_placement w)
    (drawing_all_same_value w) (last_keys w) (scanLine w) (place w) (topDes w) v
    (pcbpainter w) (calls w).

Definition set_pcbpainter (v : PCBPainter) (w : MeatBagWindow) : MeatBagWindow :=
  mkWindow (csv_settings w) (build_side w) (all_components_data w) (table w)
    (pdb w) (pdc w) (topDesList w) (botDesList w) (cur_placement w)
    (drawing_all_same_value w) (last_keys w) (scanLine w) (place w) (topDes w)
    (botDes w) v (calls w).

Definition set_calls (v : list call) (w : MeatBagWindow) : MeatBagWindow :=
  mkWindow (csv_settings w) (build_side w) (all_components_data w) (table w)
    (pdb w) (pdc w) (topDesList w) (botDesList w) (cur_placement w)
    (drawing_all_same_value w) (last_keys w) (scanLine w) (place w) (topDes w)
    (botDes w) (pcbpainter w) v.

(** [MeatBagWindow.__init__] without command-line arguments. *)
Definition MeatBagWindow_init (cfg : MeatBagCSVSettings) : MeatBagWindow :=
  mkWindow cfg 0 [] empty_table None None None None None false "" "" "" "" ""
    PCBPainter_init [].

(** The monad of the window's methods. *)
Definition W (A : Type) : Type := M MeatBagWindow A.

Definition entered (c : call) : W unit :=
  modify (fun w => set_calls (calls w ++ [c])%list w).

Definition on_painter {A : Type} (m : M PCBPainter A) : W A :=
  lift_field pcbpainter set_pcbpainter m.

(** [self.table.item(r, c).text()]. *)
Definition item_text (r c : nat) : W string :=
  t <- gets table ;;
  or_raise AttributeError (item_text_opt t r c).

(** [self.table.item(r, last_col).checkState() == QtCore.Qt.Checked]. *)
Definition item_checked (r : nat) : W bool :=
  t <- gets table ;;
  or_raise AttributeError (item_checked_opt t r).

Definition isTopLayer (r : nat) : W bool :=
  cfg <- gets csv_settings ;;
  if (col_layer cfg <? 0)%Z then ret true
  else
    tb <- item_text r (Z.to_nat (col_layer cfg)) ;;
    if startswith (lower tb) "top" then ret true
    else if startswith (lower tb) "bot" then ret false
    else raise ValueError.

(** One round of the loop of [recolourTable]. *)
Definition recolour_row (r : nat) : W unit :=
  bgc <-
    try_except
      (placed <- item_checked r ;;
       top <- isTopLayer r ;;
       let alpha := if placed then 5%Z else 120%Z in
       ret (if top then Rgba 255 0 0 alpha else Rgba 0 0 255 alpha))
      is_ValueError
      (ret LightGray) ;;
  modify (fun w => set_table (set_row_background r bgc (table w)) w).

Definition recolourTable : W unit :=
  t <- gets table ;;
  cfg <- gets csv_settings ;;
  for_each (seq (row_start cfg) (rowCount t - row_start cfg)) recolour_row.

Definition update_table_for_selected_side : W unit :=
  all <- gets all_components_data ;;
  match all with
  | [] => ret tt
  | header_row :: _ =>
      cfg <- gets csv_settings ;;
      side <- gets build_side ;;
      let filtered := filtered_data cfg side all in
      modify (set_table (table_of header_row filtered)) ;;
      modify (set_pdb (Some (map (fun r => nth (col_pn cfg) r "") filtered))) ;;
      modify (set_pdc (Some (map (fun r => nth (col_com cfg) r "") filtered))) ;;
      recolourTable
  end.

Definition sideSelectionChanged (indx : nat) : W unit :=
  modify (set_build_side indx) ;;
  update_table_for_selected_side.

(** [parseCSVFile] on the rows [csv.reader] yields for the file. *)
Definition parseCSVFile (file_rows : list row) : W unit :=
  let ppdata := filter (fun r => negb (List.length r <? 4)%nat) file_rows in
  cfg <- gets csv_settings ;;
  grouped <- lift_result (group_components_by_value cfg ppdata) ;;
  modify (set_all_components_data grouped) ;;
  update_table_for_selected_side.

Section Methods.

(** [float(text)] and [int(text)] on the text of a cell or of a scan;
    [None] stands for their [ValueError]. *)
Variable py_float : string -> option float.
Variable py_int : string -> option Z.

(** The exception of [urlopen(url)] and of reading its answer, when the
    request fails. *)
Variable urlopen_error : string -> option exn.

(** [float(self.table.item(r, c).text())]. *)
Definition item_float (r c : nat) : W float :=
  txt <- item_text r c ;;
  or_raise ValueError (py_float txt).

Definition update_placement : W unit :=
  entered update_placement_called ;;
  modify (set_drawing_all_same_value false) ;;
  cur <- gets cur_placement ;;
  cfg <- gets csv_settings ;;
  match cur with
  | Some c =>
      des <- item_text c (col_des cfg) ;;
      modify (set_place des) ;;
      x <- item_float c (col_x cfg) ;;
      y <- item_float c (col_y cfg) ;;
      top <- isTopLayer c ;;
      on_painter (xy_to_draw x y (negb top))
  | None =>
      tops <- (l <- gets topDesList ;; or_raise AttributeError l) ;;
      match tops with
      | [] =>
          bots <- (l <- gets botDesList ;; or_raise AttributeError l) ;;
          match bots with
          | [] => modify (set_place "Not Found")
          | _ :: _ => modify (set_place "Done")
          end
      | _ :: _ => modify (set_place "Done")
      end
  end.

(** [parts]: [self.topDesList] if [build_side == 0], else
    [self.botDesList]. *)
Definition active_parts : W (list nat) :=
  side <- gets build_side ;;
  l <- gets (if (side =? 0)%nat then topDesList else botDesList) ;;
  or_raise AttributeError l.

(** The loop of [find_next_placement] over [parts]. *)
Fixpoint find_unplaced (parts : list nat) : W unit :=
  match parts with
  | [] => ret tt
  | p :: rest =>
      placed <- item_checked p ;;
      if placed then find_unplaced rest
      else modify (set_cur_placement (Some p))
  end.

Definition find_next_placement : W unit :=
  entered find_next_placement_called ;;
  modify (set_cur_placement None) ;;
  parts <- active_parts ;;
  find_unplaced parts ;;
  update_placement.

(** The loop of [process_new_pn] and [process_new_com] over [matchlist],
    with the two strings it builds. *)
Fixpoint split_by_side (matchlist : list nat) (topDesStr botDesStr : string)
  : W (string * string) :=
  match matchlist with
  | [] => ret (topDesStr, botDesStr)
  | r :: rest =>
      cfg <- gets csv_settings ;;
      top <- isTopLayer r ;;
      if top then
        modify (fun w => set_topDesList
                           (option_map (fun l => l ++ [r])%list (topDesList w)) w) ;;
        des <- item_text r (col_des cfg) ;;
        split_by_side rest (topDesStr ++ des ++ ", ") botDesStr
      else
        modify (fun w => set_botDesList
                           (option_map (fun l => l ++ [r])%list (botDesList w)) w) ;;
        des <- item_text r (col_des cfg) ;;
        split_by_side rest topDesStr (botDesStr ++ des ++ ", ")
  end.

(** What the two matchers share after [matchlist] is computed. *)
Definition show_matches (matchlist : list nat) (update : bool) : W unit :=
  modify (set_topDesList (Some [])) ;;
  modify (set_botDesList (Some [])) ;;
  strs <- split_by_side matchlist "" "" ;;
  modify (set_topDes (fst strs)) ;;
  modify (set_botDes (snd strs)) ;;
  if update then find_next_placement else ret tt.

Definition process_new_com (com : string) (update : bool) : W unit :=
  entered (process_new_com_called com) ;;
  db <- (l <- gets pdc ;; or_raise AttributeError l) ;;
  show_matches (com_matchlist db com) update.

Definition process_new_pn (pn : string) (update : bool) : W unit :=
  entered (process_new_pn_called pn) ;;
  db <- (l <- gets pdb ;; or_raise AttributeError l) ;;
  show_matches (pn_matchlist db pn) update.

(** The loop of [toggle_draw_all_of_current_value] that collects
    [matchingPartsPos]. *)
Fixpoint matching_positions (parts : list nat) (cur : nat) (cur_txt : string)
  : W (list (float * float)) :=
  match parts with
  | [] => ret []
  | p :: rest =>
      cfg <- gets csv_settings ;;
      same <- (if (p =? cur)%nat then ret false
               else txt <- item_text p (col_pn cfg) ;;
                    ret (String.eqb txt cur_txt)) ;;
      if same then
        x <- item_float p (col_x cfg) ;;
        y <- item_float p (col_y cfg) ;;
        more <- matching_positions rest cur cur_txt ;;
        ret ((x, y) :: more)
      else matching_positions rest cur cur_txt
  end.

(** The value returned is what [if k.trigger():] sees: [False] and
    [None] both count as false. *)
Definition toggle_draw_all_of_current_value : W bool :=
  entered toggle_draw_all_of_current_value_called ;;
  cur <- gets cur_placement ;;
  match cur with
  | None | Some O => ret false
  | Some c =>
      drawing <- gets drawing_all_same_value ;;
      if drawing then
        modify (set_drawing_all_same_value false) ;;
        update_placement ;;
        ret false
      else
        parts <- active_parts ;;
        cfg <- gets csv_settings ;;
        cur_txt <- item_text c (col_pn cfg) ;;
        positions <- matching_positions parts c cur_txt ;;
        match positions with
        | [] => ret false
        | _ :: _ =>
            update_placement ;;
            for_each positions
              (fun pos => on_painter (draw_marker (fst pos) (snd pos) false)) ;;
            modify (set_drawing_all_same_value true) ;;
            on_painter redraw ;;
            ret false
        end
  end.

(** [KeyAction(key, cb).matches(txt)]. *)
Definition key_matches (key txt : string) : bool :=
  String.eqb (lower key) (lower txt).

(** The loop of [process_keystroke] over [action_map]. *)
Fixpoint trigger_actions (action_map : list (string * W bool)) (txt : string)
  (refresh_placement : bool) : W bool :=
  match action_map with
  | [] => ret refresh_placement
  | (key, cb) :: rest =>
      if key_matches key txt then
        triggered <- cb ;;
        trigger_actions rest txt (if triggered then true else refresh_placement)
      else trigger_actions rest txt refresh_placement
  end.

Definition action_map : list (string * W bool) :=
  [ ("+", entered marker_diameter_increment_called ;;
          on_painter marker_diameter_increment);
    ("-", entered marker_diameter_decrement_called ;;
          on_painter marker_diameter_decrement);
    ("a", toggle_draw_all_of_current_value) ].

Definition process_keystroke (txt : string) : W unit :=
  entered (process_keystroke_called txt) ;;
  refresh_placement <- trigger_actions action_map txt false ;;
  if refresh_placement then update_placement else ret tt.

(** The part of [process_new_scan] after the table lookup failed. *)
Definition web_lookup (scan : string) : W unit :=
  if startswith scan "[)" then
    if (30 <? String.length scan)%nat then
      pn_start <- or_raise IndexError (split_item1 "1P" scan) ;;
      process_new_pn (split_item0 "K1K5" pn_start) true
    else
      let internal_pn := slice_to 7 scan in
      qty <- or_raise ValueError (py_int (slice_to 6 (slice_from 10 scan))) ;;
      let url :=
        "https://www.digikey.com/product-detail/en/keystone-electronics/4245C/36-4245C-ND/"
        ++ internal_pn in
      entered (urlopen_called url) ;;
      match urlopen_error url with
      | Some e => raise e
      | None => raise NotImplementedError
      end
  else
    entered (webView_load_called
               ("https://ca.mouser.com/search/ProductDetail.aspx?R=" ++ scan)).

Definition process_new_scan (scan : string) : W unit :=
  if (String.length scan <? 5)%nat then process_keystroke scan
  else
    modify (set_topDes "") ;;
    modify (set_botDes "") ;;
    process_new_pn scan false ;;
    tops <- (l <- gets topDesList ;; or_raise AttributeError l) ;;
    bots <- (l <- gets botDesList ;; or_raise AttributeError l) ;;
    if (0 <? List.length tops)%nat || (0 <? List.length bots)%nat
    then find_next_placement
    else web_lookup scan.

Definition scanline_changed_dly : W unit :=
  scan <- gets scanLine ;;
  process_new_scan scan.

Definition key_pressed (key : string) : W unit :=
  modify (fun w => set_last_keys (last_keys w ++ key) w).

(** [self.table.item(last_place, last_col).setCheckState(Checked)] inside
    [try: ... except TypeError: pass]: a [None] row index is the
    [TypeError], an index with no item the [AttributeError]. *)
Definition mark_placed (last_place : option nat) : W unit :=
  match last_place with
  | None => ret tt
  | Some r =>
      item_checked r ;;
      modify (fun w => set_table (set_row_checked r true (table w)) w)
  end.

Definition timesUp : W unit :=
  scan <- gets last_keys ;;
  modify (set_last_keys "") ;;
  if String.eqb scan " " then
    last_place <- gets cur_placement ;;
    mark_placed last_place ;;
    find_next_placement ;;
    recolourTable
  else
    modify (set_scanLine (strip scan)).

Definition highlight_component_at_row (r : nat) : W unit :=
  try_except
    (cfg <- gets csv_settings ;;
     ref <- item_text r (col_des cfg) ;;
     x <- item_float r (col_x cfg) ;;
     y <- item_float r (col_y cfg) ;;
     top <- isTopLayer r ;;
     modify (set_place ref) ;;
     on_painter (xy_to_draw x y (negb top)))
    is_ValueError_or_AttributeError
    (ret tt).

Definition table_cellClicked (r c : nat) : W unit :=
  cfg <- gets csv_settings ;;
  if (r <? row_start cfg)%nat then ret tt
  else
    highlight_component_at_row r ;;
    pn <- item_text r (col_pn cfg) ;;
    com <- item_text r (col_com cfg) ;;
    if String.eqb pn "" then process_new_com com true
    else process_new_pn pn true.

End Methods.

(** ** A reader of decimal literals, to run the model on concrete tables

    [decimal_float] reads a sign, digits, a point and digits.  On such a
    literal it agrees with Python's [float] as long as the digits, read
    as one integer, stay below [2^53] and there are at most 22 of them
    after the point (the quotient of two exact binary64 numbers is
    rounded once). *)

Definition digit_of (c : ascii) : option Z :=
  let n := nat_of_ascii c in
  if (48 <=? n)%nat && (n <=? 57)%nat then Some (Z.of_nat (n - 48)) else None.

Fixpoint digits_value (s : string) (acc : Z) : option Z :=
  match s with
  | EmptyString => Some acc
  | String c s' =>
      match digit_of c with
      | Some d => digits_value s' (10 * acc + d)%Z
      | None => None
      end
  end.

Definition decimal_float (s : string) : option float :=
  let '(neg, body) :=
    match s with
    | String "-"%char t => (true, t)
    | _ => (false, s)
    end in
  let '(ip, fp) :=
    match split_first "." body with
    | Some (a, b) => (a, b)
    | None => (body, "")
    end in
  if (String.length ip + String.length fp =? 0)%nat then None
  else
    match digits_value (ip ++ fp) 0 with
    | Some m =>
        let f := (float_of_Z m / float_of_Z (10 ^ Z.of_nat (String.length fp)))%float in
        Some (if neg then (- f)%float else f)
    | None => None
    end.

Definition decimal_int (s : string) : option Z :=
  match s with
  | EmptyString => None
  | String "-"%char t =>
      if (String.length t =? 0)%nat then None
      else option_map Z.opp (digits_value t 0)
  | _ => digits_value s 0
  end.

(** The network is taken to be unreachable in the concrete runs. *)
Definition no_network (url : string) : option exn := Some URLError.

(** * Properties *)

(** ** Strings *)

Lemma startswith_spec s p : startswith s p = true <-> has_prefix s p.
Proof.
  unfold has_prefix. revert s. induction p as [|c p IH]; intros s; simpl.
  - split; [intros _; now exists s | reflexivity].
  - destruct s as [|d s].
    + split; [discriminate | intros [r Hr]; discriminate].
    + rewrite andb_true_iff, IH, Ascii.eqb_eq. split.
      * intros [-> [r ->]]. now exists r.
      * intros [r Hr]. injection Hr as -> ->. split; [reflexivity | now exists r].
Qed.

Lemma str_in_spec a b : str_in a b = true <-> substring_of a b.
Proof.
  unfold substring_of. induction b as [|d b IH]; simpl.
  - rewrite orb_false_r, startswith_spec. split.
    + intros [r Hr]. exists EmptyString, r. exact Hr.
    + intros [pre [post H]]. destruct pre; [now exists post | discriminate].
  - rewrite orb_true_iff, startswith_spec, IH. split.
    + intros [[r Hr] | [pre [post H]]].
      * exists EmptyString, r. exact Hr.
      * exists (String d pre), post. simpl. now rewrite H.
    + intros [pre [post H]]. destruct pre as [|e pre]; simpl in H.
      * left. now exists post.
      * right. injection H as _ H. now exists pre, post.
Qed.

Lemma str_in_false a b : str_in a b = false -> ~ substring_of a b.
Proof. intros H Hs. apply str_in_spec in Hs. congruence. Qed.

(** ** The matcher *)

Lemma field_matches_spec gate field token :
  field_matches gate field token = true <->
  (gate < String.length field /\ substring_of field token)
  \/ substring_of token field.
Proof.
  unfold field_matches.
  rewrite orb_true_iff, andb_true_iff, Nat.ltb_lt, !str_in_spec. tauto.
Qed.

Section IndicesWhere.

Context {A : Type} (test : A -> bool).

Lemma indices_where_spec (l : list A) : forall k i,
  In i (indices_where test k l) <->
  exists x, k <= i /\ nth_error l (i - k) = Some x /\ test x = true.
Proof.
  induction l as [|a l IH]; intros k i; simpl.
  - split; [tauto | intros [x [_ [H _]]]].
    destruct (i - k); discriminate.
  - assert (Hshift : forall x,
               S k <= i -> nth_error l (i - S k) = Some x ->
               nth_error (a :: l) (i - k) = Some x).
    { intros x Hle Hn. replace (i - k) with (S (i - S k)) by lia. exact Hn. }
    destruct (test a) eqn:Ha; simpl; rewrite IH; split.
    + intros [<- | [x [Hle [Hn Hm]]]].
      * exists a. rewrite Nat.sub_diag. auto.
      * exists x. split; [lia | split; auto].
    + intros [x [Hle [Hn Hm]]].
      destruct (Nat.eq_dec k i) as [-> | Hne]; [now left | right].
      exists x. replace (i - k) with (S (i - S k)) in Hn by lia.
      split; [lia | split; auto].
    + intros [x [Hle [Hn Hm]]].
      exists x. split; [lia | split; auto].
    + intros [x [Hle [Hn Hm]]].
      destruct (Nat.eq_dec k i) as [-> | Hne].
      * rewrite Nat.sub_diag in Hn. simpl in Hn. congruence.
      * exists x. replace (i - k) with (S (i - S k)) in Hn by lia.
        split; [lia | split; auto].
Qed.

(** The indices come out in increasing order, each once. *)
Lemma indices_where_increasing (l : list A) : forall k,
  StronglySorted lt (indices_where test k l)
  /\ Forall (fun i => k <= i) (indices_where test k l).
Proof.
  induction l as [|a l IH]; intros k; simpl.
  - split; constructor.
  - destruct (IH (S k)) as [Hs Hf].
    assert (Hf' : Forall (fun i => k <= i) (indices_where test (S k) l)).
    { eapply Forall_impl; [|exact Hf]. simpl. intros; lia. }
    destruct (test a); [|split; assumption].
    split; constructor; auto.
Qed.

(** The items at the indices are the items [filter] keeps. *)
Lemma indices_where_filter (d : A) (l : list A) : forall k,
  map (fun i => nth (i - k) l d) (indices_where test k l) = filter test l.
Proof.
  induction l as [|a l IH]; intros k; [reflexivity|].
  cbn [indices_where filter].
  assert (Hmap : map (fun i => nth (i - k) (a :: l) d) (indices_where test (S k) l)
                 = filter test l).
  { rewrite <- (IH (S k)). apply map_ext_in. intros i Hi.
    apply indices_where_spec in Hi. destruct Hi as [x [Hle _]].
    replace (i - k) with (S (i - S k)) by lia. reflexivity. }
  destruct (test a); cbn [map]; rewrite Hmap; [rewrite Nat.sub_diag|];
    reflexivity.
Qed.

End IndicesWhere.

(** The matching rule as the specification words it, the field-in-token
    branch open to fields whose length exceeds [threshold]. *)
Definition stated_match_rule (threshold : nat) (field token : string) : Prop :=
  (threshold < String.length field /\ substring_of field token)
  \/ substring_of token field.

(** The rule the loops implement: the branch is open from [threshold]
    characters on. *)
Definition match_rule (threshold : nat) (field token : string) : Prop :=
  (threshold <= String.length field /\ substring_of field token)
  \/ substring_of token field.

(** C1, as stated, fails: a part number of exactly five characters that
    occurs inside a longer token is matched by [process_new_pn], although
    its length does not exceed five and the token does not occur in it;
    likewise a value of exactly four characters in [process_new_com]. *)
Lemma matcher_gate_counterexample :
  ~ (forall pdb pn i,
        In i (pn_matchlist pdb pn) <->
        exists field, nth_error pdb i = Some field /\ stated_match_rule 5 field pn)
  /\
  ~ (forall pdc com i,
        In i (com_matchlist pdc com) <->
        exists field, nth_error pdc i = Some field /\ stated_match_rule 4 field com).
Proof.
  split; intros H.
  - destruct (proj1 (H ["ABCDE"] "xABCDEx" 0)) as [field [Hn Hr]].
    + simpl. auto.
    + simpl in Hn. injection Hn as <-. destruct Hr as [[Hlen _] | Hs].
      * simpl in Hlen. lia.
      * revert Hs. apply str_in_false. reflexivity.
  - destruct (proj1 (H ["10uF"] "x10uFx" 0)) as [field [Hn Hr]].
    + simpl. auto.
    + simpl in Hn. injection Hn as <-. destruct Hr as [[Hlen _] | Hs].
      * simpl in Hlen. lia.
      * revert Hs. apply str_in_false. reflexivity.
Qed.

(** C1, amended: a row is in the match list exactly when its field has
    at least five (part number) or four (value/comment) characters and
    occurs in the token as a contiguous substring, or the token occurs in
    the field as a contiguous substring; the comparison is case-sensitive
    (a field differing from the token only by case is not matched). *)
Theorem matcher_rule (db : list string) (token : string) (i : nat) :
  (In i (pn_matchlist db token) <->
   exists field, nth_error db i = Some field /\ match_rule 5 field token)
  /\
  (In i (com_matchlist db token) <->
   exists field, nth_error db i = Some field /\ match_rule 4 field token)
  /\
  pn_matchlist ["ABC-12345"] "abc-12345" = []
  /\
  com_matchlist ["100nF"] "100NF" = [].
Proof.
  unfold pn_matchlist, com_matchlist, match_rule.
  repeat split; try reflexivity.
  - rewrite indices_where_spec. intros [field [_ [Hn Hm]]].
    rewrite Nat.sub_0_r in Hn. exists field. split; [exact Hn|].
    apply field_matches_spec in Hm. destruct Hm as [[Hl Hs] | Hs]; [left | right]; auto.
  - intros [field [Hn Hm]]. apply indices_where_spec. exists field.
    rewrite Nat.sub_0_r. split; [lia | split; [exact Hn|]].
    apply field_matches_spec. destruct Hm as [[Hl Hs] | Hs]; [left | right]; auto.
  - rewrite indices_where_spec. intros [field [_ [Hn Hm]]].
    rewrite Nat.sub_0_r in Hn. exists field. split; [exact Hn|].
    apply field_matches_spec in Hm. destruct Hm as [[Hl Hs] | Hs]; [left | right]; auto.
  - intros [field [Hn Hm]]. apply indices_where_spec. exists field.
    rewrite Nat.sub_0_r. split; [lia | split; [exact Hn|]].
    apply field_matches_spec. destruct Hm as [[Hl Hs] | Hs]; [left | right]; auto.
Qed.

(** ** The side filter *)

(** The prefix the filter looks for: [target_side[:3]]. *)
Definition side_prefix (build_side : nat) : string :=
  if (build_side =? 0)%nat then "top" else "bot".

(** A row whose side the filter can tell: there is no layer column, or
    the layer field, in lower case, begins with [top] or [bot]. *)
Definition classifiable (cfg : MeatBagCSVSettings) (r : row) : Prop :=
  (col_layer cfg < 0)%Z \/
  exists layer,
    (0 <= col_layer cfg)%Z
    /\ nth_error r (Z.to_nat (col_layer cfg)) = Some layer
    /\ (has_prefix (lower layer) "top" \/ has_prefix (lower layer) "bot").

(** A row with a layer field that begins with neither prefix. *)
Definition unknown_layer (cfg : MeatBagCSVSettings) (r : row) : Prop :=
  exists layer,
    (0 <= col_layer cfg)%Z
    /\ nth_error r (Z.to_nat (col_layer cfg)) = Some layer
    /\ ~ has_prefix (lower layer) "top" /\ ~ has_prefix (lower layer) "bot".

Lemma top_bot_exclusive s : has_prefix s "top" -> has_prefix s "bot" -> False.
Proof. intros [r ->] [r' H]. discriminate. Qed.

Lemma slice_target_side side : slice_to 3 (target_side side) = side_prefix side.
Proof. unfold target_side, side_prefix. now destruct (side =? 0)%nat. Qed.

Lemma keeps_row_spec cfg side r :
  keeps_row cfg side r = true <->
  ((col_layer cfg < 0)%Z /\ side = 0)
  \/ exists layer,
       (0 <= col_layer cfg)%Z
       /\ nth_error r (Z.to_nat (col_layer cfg)) = Some layer
       /\ has_prefix (lower layer) (side_prefix side).
Proof.
  unfold keeps_row. rewrite slice_target_side.
  destruct (col_layer cfg <? Z.of_nat (List.length r))%Z eqn:Hlen;
    destruct (0 <=? col_layer cfg)%Z eqn:Hpos; simpl;
    try apply Z.ltb_lt in Hlen; try apply Z.ltb_ge in Hlen;
    try apply Z.leb_le in Hpos; try apply Z.leb_gt in Hpos.
  - assert (Hn : nth_error r (Z.to_nat (col_layer cfg))
                 = Some (nth (Z.to_nat (col_layer cfg)) r "")).
    { apply nth_error_nth'. lia. }
    rewrite startswith_spec. split.
    + intros H. right. eexists. split; [exact Hpos | split; [exact Hn | exact H]].
    + intros [[Hneg _] | [layer [_ [Hl H]]]]; [lia|]. congruence.
  - assert (Hneg : (col_layer cfg <? 0)%Z = true) by (apply Z.ltb_lt; lia).
    rewrite Hneg. unfold target_side. split.
    + destruct (side =? 0)%nat eqn:Hs; [|discriminate].
      apply Nat.eqb_eq in Hs. left. split; [lia | exact Hs].
    + intros [[_ ->] | [layer [Hp _]]]; [reflexivity | lia].
  - assert (Hneg : (col_layer cfg <? 0)%Z = false) by (apply Z.ltb_ge; lia).
    rewrite Hneg. split; [discriminate|].
    intros [[Hn _] | [layer [_ [Hl _]]]]; [lia|].
    assert (Z.to_nat (col_layer cfg) < List.length r)
      by (apply nth_error_Some; congruence).
    lia.
  - assert (Hneg : (col_layer cfg <? 0)%Z = true) by (apply Z.ltb_lt; lia).
    rewrite Hneg. unfold target_side. split.
    + destruct (side =? 0)%nat eqn:Hs; [|discriminate].
      apply Nat.eqb_eq in Hs. left. split; [lia | exact Hs].
    + intros [[_ ->] | [layer [Hp _]]]; [reflexivity | lia].
Qed.

Lemma side_view_spec cfg side all i :
  In i (side_view cfg side all) <->
  exists r, 1 <= i /\ nth_error all i = Some r /\ keeps_row cfg side r = true.
Proof.
  unfold side_view. rewrite indices_where_spec.
  assert (Htl : forall j, 1 <= j -> nth_error (tl all) (j - 1) = nth_error all j).
  { intros j Hj. destruct j as [|j]; [lia|]. simpl. rewrite Nat.sub_0_r.
    destruct all; [now destruct j | reflexivity]. }
  split; intros [r [Hle [Hn Hk]]]; exists r; (split; [exact Hle|]);
    (split; [|exact Hk]); [rewrite <- Htl | rewrite Htl]; assumption.
Qed.

(** The rows of [filtered_data] are the header and the rows of
    [all_components_data] at the indices of [side_view], in that order. *)
Lemma filtered_data_side_view cfg side header_row rest :
  filtered_data cfg side (header_row :: rest) =
  header_row ::
    map (fun i => nth i (header_row :: rest) [])
        (side_view cfg side (header_row :: rest)).
Proof.
  unfold filtered_data, side_view. simpl tl. f_equal.
  rewrite <- (indices_where_filter (keeps_row cfg side) [] rest 1).
  apply map_ext_in. intros i Hi. apply indices_where_spec in Hi.
  destruct Hi as [x [Hle _]]. destruct i as [|i]; [lia|].
  simpl. now rewrite Nat.sub_0_r.
Qed.

(** The rows of a file the load accepts: those of at least four fields,
    as [parseCSVFile] hands them to the grouping step. *)
Definition accepted_rows (file_rows : list row) : list row :=
  filter (fun r => negb (List.length r <? 4)%nat) file_rows.

(** C3, as stated, fails: a file with one component whose layer field is
    [Middle] loads, and that component is in neither side view. *)
Lemma side_views_miss_unknown_layer :
  ~ (forall cfg file_rows all i,
        group_components_by_value cfg (accepted_rows file_rows) = Ok all ->
        1 <= i < List.length all ->
        In i (side_view cfg 0 all) \/ In i (side_view cfg 1 all)).
Proof.
  intros H.
  specialize (H MeatBagCSVSettingsAltium
                [ ["Designator"; "Comment"; "Layer"; "Footprint"; "Center-X(mm)";
                   "Center-Y(mm)"; "Rotation"; "Description"; "Part Number"];
                  ["X1"; "osc"; "Middle"; "HC49"; "11"; "21"; "0"; "crystal";
                   "OSC-12345"] ]
                [ ["Designator"; "Comment"; "Layer"; "Footprint"; "Center-X(mm)";
                   "Center-Y(mm)"; "Rotation"; "Description"; "Part Number"];
                  ["X1"; "osc"; "Middle"; "HC49"; "11"; "21"; "0"; "crystal";
                   "OSC-12345"] ]
                1 eq_refl).
  assert (Hi : 1 <= 1 < 2) by lia.
  specialize (H Hi). vm_compute in H. tauto.
Qed.

(** C3, amended: the two side views are disjoint, and a row index is in
    one of them exactly when it is the index of a component row (index 1
    or more) whose side the filter can tell: every row when no layer
    column is configured, otherwise the rows whose layer field begins,
    case-insensitively, with [top] or [bot].  Each view lists its indices
    in increasing (table) order. *)
Theorem side_views_partition (cfg : MeatBagCSVSettings) (all : list row) (i : nat) :
  ((In i (side_view cfg 0 all) \/ In i (side_view cfg 1 all)) <->
   exists r, 1 <= i /\ nth_error all i = Some r /\ classifiable cfg r)
  /\ ~ (In i (side_view cfg 0 all) /\ In i (side_view cfg 1 all))
  /\ StronglySorted lt (side_view cfg 0 all)
  /\ StronglySorted lt (side_view cfg 1 all).
Proof.
  rewrite !side_view_spec. repeat split.
  - intros [[r [Hle [Hn Hk]]] | [r [Hle [Hn Hk]]]]; exists r;
      (split; [exact Hle|]); (split; [exact Hn|]);
      apply keeps_row_spec in Hk;
      destruct Hk as [[Hneg _] | [layer [Hp [Hl Hpre]]]];
      try (left; exact Hneg); right; exists layer; simpl in Hpre; auto.
  - intros [r [Hle [Hn [Hneg | [layer [Hp [Hl [Ht | Hb]]]]]]]].
    + left. exists r. split; [exact Hle|]. split; [exact Hn|].
      apply keeps_row_spec. left. auto.
    + left. exists r. split; [exact Hle|]. split; [exact Hn|].
      apply keeps_row_spec. right. exists layer. auto.
    + right. exists r. split; [exact Hle|]. split; [exact Hn|].
      apply keeps_row_spec. right. exists layer. auto.
  - intros [[r [_ [Hn Hk]]] [r' [_ [Hn' Hk']]]].
    assert (r' = r) by congruence. subst r'.
    apply keeps_row_spec in Hk, Hk'.
    destruct Hk as [[Hneg _] | [layer [Hp [Hl Hpre]]]];
      destruct Hk' as [[Hneg' Hs] | [layer' [Hp' [Hl' Hpre']]]];
      try discriminate; try lia.
    assert (layer' = layer) by congruence. subst layer'.
    exact (top_bot_exclusive _ Hpre Hpre').
  - apply indices_where_increasing.
  - apply indices_where_increasing.
Qed.

(** ** Sorting by a string key *)

Section SortBy.

Context {A : Type} (key : A -> string).

(** Neighbours are in order. *)
Fixpoint sorted_by (l : list A) : Prop :=
  match l with
  | [] => True
  | x :: l' =>
      match l' with
      | [] => True
      | y :: _ => String.leb (key x) (key y) = true
      end /\ sorted_by l'
  end.

Lemma insert_by_sorted x l : sorted_by l -> sorted_by (insert_by key x l).
Proof.
  induction l as [|y l IH]; simpl; [tauto|].
  intros [Hy Hl]. destruct (String.leb (key x) (key y)) eqn:Hxy.
  - simpl. auto.
  - assert (Hyx : String.leb (key y) (key x) = true).
    { destruct (String.leb_total (key x) (key y)); congruence. }
    specialize (IH Hl). simpl. split; [|exact IH].
    destruct l as [|z l]; simpl; [exact Hyx|].
    destruct (String.leb (key x) (key z)); assumption.
Qed.

Lemma sort_by_sorted l : sorted_by (sort_by key l).
Proof.
  induction l as [|x l IH]; simpl; [exact I | now apply insert_by_sorted].
Qed.

Lemma sort_by_fixes_sorted l : sorted_by l -> sort_by key l = l.
Proof.
  induction l as [|x l IH]; [reflexivity|].
  intros [Hx Hl]. simpl. rewrite (IH Hl).
  destruct l as [|y l]; [reflexivity|]. simpl. now rewrite Hx.
Qed.

Lemma sort_by_idempotent l : sort_by key (sort_by key l) = sort_by key l.
Proof. apply sort_by_fixes_sorted, sort_by_sorted. Qed.

Lemma insert_by_permutation x l : Permutation (insert_by key x l) (x :: l).
Proof.
  induction l as [|y l IH]; simpl; [reflexivity|].
  destruct (String.leb (key x) (key y)); [reflexivity|].
  rewrite IH. apply perm_swap.
Qed.

Lemma sort_by_permutation l : Permutation (sort_by key l) l.
Proof.
  induction l as [|x l IH]; simpl; [reflexivity|].
  rewrite insert_by_permutation. now constructor.
Qed.

End SortBy.

Lemma sort_by_map {A B : Type} (keyA : A -> string) (keyB : B -> string)
  (h : A -> B) (l : list A) :
  (forall x, keyB (h x) = keyA x) ->
  sort_by keyB (map h l) = map h (sort_by keyA l).
Proof.
  intros Hk. induction l as [|x l IH]; simpl; [reflexivity|]. rewrite IH.
  generalize (sort_by keyA l). intros s.
  induction s as [|y s IHs]; simpl; [reflexivity|].
  rewrite !Hk. destruct (String.leb (keyA x) (keyA y)); simpl; [reflexivity|].
  now rewrite IHs.
Qed.

(** ** The grouping step *)

Section Grouping.

Local Open Scope list_scope.

Variable cfg : MeatBagCSVSettings.

(** The key under which the loop files a row; [None] for a row the loop
    skips or fails on. *)
Definition row_key (r : row) : option string :=
  if (List.length r <=? col_com cfg)%nat then None
  else
    match layer_of cfg r with
    | Ok layer => Some (group_key (nth (col_com cfg) r "") layer)
    | Raise _ => None
    end.

(** A group as the loop builds them: not empty, every row filed under
    the group's key. *)
Definition group_ok (g : string * list row) : Prop :=
  snd g <> [] /\ Forall (fun r => row_key r = Some (fst g)) (snd g).

Definition groups_ok (d : value_groups) : Prop :=
  NoDup (map fst d) /\ Forall group_ok d.

Lemma build_groups_cons r k rest d :
  row_key r = Some k ->
  build_groups cfg (r :: rest) d = build_groups cfg rest (groups_append k r d).
Proof.
  unfold row_key. simpl.
  destruct (List.length r <=? col_com cfg)%nat; [discriminate|].
  destruct (layer_of cfg r); [|discriminate]. now intros [= <-].
Qed.

Lemma groups_append_keys k r d k' :
  In k' (map fst (groups_append k r d)) <-> k' = k \/ In k' (map fst d).
Proof.
  induction d as [|[k0 rs] d IH]; simpl.
  - intuition.
  - destruct (String.eqb k k0) eqn:E; simpl.
    + apply String.eqb_eq in E. subst. intuition.
    + rewrite IH. intuition.
Qed.

Lemma groups_append_ok k r d :
  row_key r = Some k -> groups_ok d -> groups_ok (groups_append k r d).
Proof.
  intros Hr [Hnd Hall]. split.
  - induction d as [|[k0 rs] d IH]; simpl.
    + constructor; [tauto | constructor].
    + inversion Hnd as [|? ? Hnotin Hnd']; subst. inversion Hall; subst.
      destruct (String.eqb k k0) eqn:E; simpl.
      * now constructor.
      * constructor; [|now apply IH].
        rewrite groups_append_keys. intros [-> | Hin]; [|tauto].
        rewrite String.eqb_refl in E. discriminate.
  - clear Hnd. induction d as [|[k0 rs] d IH]; simpl.
    + constructor; [|constructor]. split; simpl; [discriminate|].
      constructor; [exact Hr | constructor].
    + inversion Hall as [|? ? [Hne Hrs] Hall']; subst.
      destruct (String.eqb k k0) eqn:E.
      * apply String.eqb_eq in E. subst. constructor; [|exact Hall'].
        split; simpl in *.
        -- intros Happ. now apply app_eq_nil in Happ.
        -- apply Forall_app. split; [exact Hrs|]. constructor; [exact Hr | constructor].
      * constructor; [now split | now apply IH].
Qed.

Lemma build_groups_ok rows : forall d g,
  groups_ok d -> build_groups cfg rows d = Ok g -> groups_ok g.
Proof.
  induction rows as [|r rows IH]; intros d g Hd; simpl.
  - now intros [= <-].
  - destruct (List.length r <=? col_com cfg)%nat eqn:Hlen; [now apply IH|].
    destruct (layer_of cfg r) as [layer|e] eqn:Hlayer; [|discriminate].
    apply IH. apply groups_append_ok; [|exact Hd].
    unfold row_key. now rewrite Hlen, Hlayer.
Qed.

Lemma groups_append_fresh k r d :
  ~ In k (map fst d) -> groups_append k r d = (d ++ [(k, [r])])%list.
Proof.
  induction d as [|[k0 rs] d IH]; simpl; [reflexivity|].
  intros Hnotin. destruct (String.eqb k k0) eqn:E.
  - apply String.eqb_eq in E. subst. tauto.
  - rewrite IH; tauto.
Qed.

Lemma groups_append_last k r rs d :
  ~ In k (map fst d) ->
  groups_append k r (d ++ [(k, rs)]) = (d ++ [(k, rs ++ [r])])%list.
Proof.
  induction d as [|[k0 rs0] d IH]; simpl.
  - now rewrite String.eqb_refl.
  - intros Hnotin. destruct (String.eqb k k0) eqn:E.
    + apply String.eqb_eq in E. subst. tauto.
    + rewrite IH; tauto.
Qed.

(** A run of rows with one key, met while that key's group is the last
    of the dict, goes to the end of that group. *)
Lemma build_groups_run k block rest d : forall rs,
  Forall (fun r => row_key r = Some k) block ->
  ~ In k (map fst d) ->
  build_groups cfg (block ++ rest) (d ++ [(k, rs)]) =
  build_groups cfg rest (d ++ [(k, rs ++ block)]).
Proof.
  induction block as [|r block IH]; intros rs Hall Hnotin.
  - now rewrite app_nil_r.
  - inversion Hall; subst. rewrite <- app_comm_cons.
    rewrite (build_groups_cons r k) by assumption.
    rewrite groups_append_last by assumption.
    rewrite IH by assumption. now rewrite <- app_assoc.
Qed.

(** A list made of the groups' rows, group after group, is filed back
    into the same groups. *)
Lemma build_groups_blocks gs : forall d rest,
  NoDup (map fst (d ++ gs)) ->
  Forall group_ok gs ->
  build_groups cfg (flat_map snd gs ++ rest) d = build_groups cfg rest (d ++ gs).
Proof.
  induction gs as [|[k block] gs IH]; intros d rest Hnd Hall.
  - now rewrite app_nil_r.
  - inversion Hall as [|? ? [Hne Hblock] Hall']; subst. simpl in Hne, Hblock.
    assert (Hnotin : ~ In k (map fst d)).
    { rewrite map_app in Hnd. simpl in Hnd. apply NoDup_remove_2 in Hnd.
      intros Hin. apply Hnd. apply in_or_app. now left. }
    destruct block as [|r block]; [contradiction|].
    inversion Hblock; subst.
    simpl flat_map. cbn [app]. rewrite <- app_assoc.
    rewrite (build_groups_cons r k) by assumption.
    rewrite groups_append_fresh by assumption.
    rewrite build_groups_run by assumption.
    replace (d ++ (k, r :: block) :: gs)%list
      with ((d ++ [(k, r :: block)]) ++ gs)%list by now rewrite <- app_assoc.
    simpl app at 2. apply IH; [|exact Hall'].
    now rewrite <- app_assoc.
Qed.

(** The rows the grouping step returns after the header. *)
Definition grouped_rows (d : value_groups) : list row :=
  flat_map (fun g => sort_by (designator_key cfg) (snd g)) (sorted_groups d).

(** The groups of [d] in key order, each sorted by designator. *)
Definition sorted_blocks (d : value_groups) : value_groups :=
  map (fun g => (fst g, sort_by (designator_key cfg) (snd g))) (sorted_groups d).

Lemma sorted_blocks_rows d : flat_map snd (sorted_blocks d) = grouped_rows d.
Proof.
  unfold sorted_blocks, grouped_rows. generalize (sorted_groups d). intros l.
  induction l as [|g l IH]; simpl; [reflexivity | now rewrite IH].
Qed.

Lemma sorted_blocks_ok d : groups_ok d -> groups_ok (sorted_blocks d).
Proof.
  intros [Hnd Hall]. unfold sorted_blocks, sorted_groups. split.
  - rewrite map_map. simpl.
    apply (Permutation_NoDup (l := map fst d)); [|exact Hnd].
    apply Permutation_map. symmetry. apply sort_by_permutation.
  - apply Forall_forall. intros g Hin. apply in_map_iff in Hin.
    destruct Hin as [g0 [<- Hin0]].
    assert (Hg0 : group_ok g0).
    { rewrite Forall_forall in Hall. apply Hall.
      eapply Permutation_in; [apply sort_by_permutation | exact Hin0]. }
    destruct Hg0 as [Hne Hrows]. split; simpl.
    + intros Hnil. apply Hne. apply Permutation_nil.
      rewrite <- Hnil. apply sort_by_permutation.
    + eapply Permutation_Forall; [|exact Hrows].
      symmetry. apply sort_by_permutation.
Qed.

Lemma sorted_blocks_sorted d : sorted_groups (sorted_blocks d) = sorted_blocks d.
Proof.
  unfold sorted_blocks, sorted_groups. apply sort_by_fixes_sorted.
  rewrite <- (sort_by_map fst fst) by reflexivity. apply sort_by_sorted.
Qed.

Lemma grouped_rows_sorted_blocks d : grouped_rows (sorted_blocks d) = grouped_rows d.
Proof.
  unfold grouped_rows at 1. rewrite sorted_blocks_sorted.
  unfold sorted_blocks, grouped_rows. generalize (sorted_groups d). intros l.
  induction l as [|g l IH]; simpl; [reflexivity|].
  now rewrite sort_by_idempotent, IH.
Qed.

Lemma groups_ok_nil : groups_ok [].
Proof. split; constructor. Qed.

(** Grouping the rows the grouping step returned files them into the
    same blocks, so the second result is the first. *)
Lemma regroup_grouped_rows d :
  groups_ok d ->
  build_groups cfg (grouped_rows d) [] = Ok (sorted_blocks d).
Proof.
  intros Hd. destruct (sorted_blocks_ok d Hd) as [Hnd Hall].
  rewrite <- sorted_blocks_rows.
  rewrite <- (app_nil_r (flat_map snd (sorted_blocks d))).
  now rewrite build_groups_blocks.
Qed.

End Grouping.

(** C4: the grouping step is idempotent.  When it returns a table for
    the rows of a file, applying it to that table returns the same table,
    row for row. *)
Theorem group_components_by_value_idempotent
  (cfg : MeatBagCSVSettings) (ppdata grouped : list row) :
  group_components_by_value cfg ppdata = Ok grouped ->
  group_components_by_value cfg grouped = Ok grouped.
Proof.
  unfold group_components_by_value.
  destruct ppdata as [|header_row data_rows].
  - now intros [= <-].
  - destruct (build_groups cfg data_rows []) as [d|e] eqn:Hbuild; [|discriminate].
    intros [= <-].
    assert (Hd : groups_ok cfg d)
      by (eapply build_groups_ok; [apply groups_ok_nil | exact Hbuild]).
    fold (grouped_rows cfg d).
    rewrite (regroup_grouped_rows cfg d Hd).
    fold (grouped_rows cfg (sorted_blocks cfg d)).
    now rewrite grouped_rows_sorted_blocks.
Qed.

(** A file in the Altium layout: a header, four components and a line
    too short to be kept. *)
Definition altium_file : list row :=
  [ ["Designator"; "Comment"; "Layer"; "Footprint"; "Center-X(mm)";
     "Center-Y(mm)"; "Rotation"; "Description"; "Manufacturer Part Number 1"];
    ["R2"; "10k"; "BottomLayer"; "0805"; "30"; "40.5"; "0"; "res"; "RC0805-10K"];
    ["R3"; "10k"; "TopLayer"; "0805"; "11"; "21"; "0"; "res"; "RC0805-10K"];
    ["C1"; "100n"; "TopLayer"; "0805"; "15.25"; "20"; "0"; "cap"; "CC0805-100N"];
    ["R1"; "10k"; "TopLayer"; "0805"; "10"; "20"; "0"; "res"; "RC0805-10K"];
    ["bad"; "x"; "y"] ].

(** The table the load makes of it. *)
Definition altium_grouped : list row :=
  [ ["Designator"; "Comment"; "Layer"; "Footprint"; "Center-X(mm)";
     "Center-Y(mm)"; "Rotation"; "Description"; "Manufacturer Part Number 1"];
    ["C1"; "100n"; "TopLayer"; "0805"; "15.25"; "20"; "0"; "cap"; "CC0805-100N"];
    ["R2"; "10k"; "BottomLayer"; "0805"; "30"; "40.5"; "0"; "res"; "RC0805-10K"];
    ["R1"; "10k"; "TopLayer"; "0805"; "10"; "20"; "0"; "res"; "RC0805-10K"];
    ["R3"; "10k"; "TopLayer"; "0805"; "11"; "21"; "0"; "res"; "RC0805-10K"] ].

Lemma group_components_by_value_idempotent_witness :
  group_components_by_value MeatBagCSVSettingsAltium (accepted_rows altium_file)
  = Ok altium_grouped
  /\ group_components_by_value MeatBagCSVSettingsAltium altium_grouped
     = Ok altium_grouped.
Proof.
  split; [reflexivity|].
  apply (group_components_by_value_idempotent
           MeatBagCSVSettingsAltium (accepted_rows altium_file)).
  reflexivity.
Defined.

(** The grouping step returns a table whenever every row it files has a
    layer field (or no layer column is configured). *)
Lemma group_components_by_value_returns cfg ppdata :
  (forall r, In r ppdata ->
             (List.length r <=? col_com cfg)%nat = false ->
             exists layer, layer_of cfg r = Ok layer) ->
  exists grouped, group_components_by_value cfg ppdata = Ok grouped.
Proof.
  unfold group_components_by_value. destruct ppdata as [|header_row data_rows].
  - intros _. now eexists.
  - intros H.
    assert (Hb : forall d, exists g, build_groups cfg data_rows d = Ok g).
    { assert (H' : forall r, In r data_rows ->
                             (List.length r <=? col_com cfg)%nat = false ->
                             exists layer, layer_of cfg r = Ok layer)
        by (intros r Hr; apply H; now right).
      clear H. induction data_rows as [|r rows IH]; intros d; simpl.
      - now eexists.
      - destruct (List.length r <=? col_com cfg)%nat eqn:Hlen.
        + apply IH. intros r' Hr'. apply H'. now right.
        + destruct (H' r (or_introl eq_refl) Hlen) as [layer ->].
          apply IH. intros r' Hr'. apply H'. now right. }
    destruct (Hb []) as [g ->]. now eexists.
Qed.

(** ** Reasoning about methods *)

(** [m] takes every state to a state related to it by [R]. *)
Definition transforms {S A : Type} (R : S -> S -> Prop) (m : M S A) : Prop :=
  forall s, R s (snd (m s)).

(** The states agree on what [f] reads. *)
Definition same_on {S X : Type} (f : S -> X) : S -> S -> Prop :=
  fun s s' => f s' = f s.

(** The trace grew by calls that all satisfy [P]. *)
Definition extends_calls (P : call -> Prop) : MeatBagWindow -> MeatBagWindow -> Prop :=
  fun s s' => exists l, calls s' = (calls s ++ l)%list /\ Forall P l.

#[export] Instance same_on_PreOrder {S X : Type} (f : S -> X) :
  RelationClasses.PreOrder (same_on f).
Proof.
  split.
  - intros s. reflexivity.
  - intros s1 s2 s3 H12 H23. unfold same_on in *. congruence.
Qed.

#[export] Instance extends_calls_PreOrder (P : call -> Prop) :
  RelationClasses.PreOrder (extends_calls P).
Proof.
  split.
  - intros s. exists []. split; [now rewrite app_nil_r | constructor].
  - intros s1 s2 s3 [l12 [H12 F12]] [l23 [H23 F23]]. exists (l12 ++ l23)%list.
    split; [rewrite H23, H12; now rewrite app_assoc | now apply Forall_app].
Qed.

Section Transforms.

Context {S : Type} (R : S -> S -> Prop) {HR : RelationClasses.PreOrder R}.

Lemma transforms_ret {A : Type} (a : A) : transforms R (ret a).
Proof. intros s. reflexivity. Qed.

Lemma transforms_raise {A : Type} (e : exn) : transforms R (@raise S A e).
Proof. intros s. reflexivity. Qed.

Lemma transforms_gets {A : Type} (f : S -> A) : transforms R (gets f).
Proof. intros s. reflexivity. Qed.

Lemma transforms_lift_result {A : Type} (r : result A) :
  transforms R (@lift_result S A r).
Proof. intros s. reflexivity. Qed.

Lemma transforms_or_raise {A : Type} (e : exn) (o : option A) :
  transforms R (@or_raise S A e o).
Proof. intros s. destruct o; reflexivity. Qed.

Lemma transforms_modify (f : S -> S) :
  (forall s, R s (f s)) -> transforms R (modify f).
Proof. intros H s. apply H. Qed.

Lemma transforms_bind {A B : Type} (m : M S A) (k : A -> M S B) :
  transforms R m -> (forall a, transforms R (k a)) -> transforms R (bind m k).
Proof.
  intros Hm Hk s. unfold bind. specialize (Hm s).
  destruct (m s) as [[a|e] s1]; simpl in *; [|exact Hm].
  etransitivity; [exact Hm | apply Hk].
Qed.

Lemma transforms_try_except {A : Type} (m h : M S A) (handles : exn -> bool) :
  transforms R m -> transforms R h -> transforms R (try_except m handles h).
Proof.
  intros Hm Hh s. unfold try_except. specialize (Hm s).
  destruct (m s) as [[a|e] s1]; simpl in *; [exact Hm|].
  destruct (handles e); simpl; [|exact Hm].
  etransitivity; [exact Hm | apply Hh].
Qed.

Lemma transforms_for_each {A : Type} (l : list A) (body : A -> M S unit) :
  (forall x, transforms R (body x)) -> transforms R (for_each l body).
Proof.
  intros Hb. induction l as [|x l IH]; simpl.
  - apply transforms_ret.
  - apply transforms_bind; [apply Hb | intros _; exact IH].
Qed.

Lemma transforms_lift_field {T A : Type} (proj : S -> T) (upd : T -> S -> S)
  (m : M T A) :
  (forall t s, R s (upd t s)) -> transforms R (lift_field proj upd m).
Proof.
  intros H s. unfold lift_field. destruct (m (proj s)) as [r t']. apply H.
Qed.

End Transforms.

Lemma transforms_same_on_weaken {S X Y A : Type} (f : S -> X) (g : S -> Y)
  (m : M S A) :
  (forall s s', f s' = f s -> g s' = g s) ->
  transforms (same_on f) m -> transforms (same_on g) m.
Proof. intros H Hm s. apply H, Hm. Qed.

(** What a computation leaves when its first part is known. *)
Lemma snd_bind {S A B : Type} (m : M S A) (k : A -> M S B) (s : S) :
  snd (bind m k s) =
  match m s with
  | (Ok a, s1) => snd (k a s1)
  | (Raise _, s1) => s1
  end.
Proof. unfold bind. now destruct (m s) as [[a|e] s1]. Qed.

Lemma extends_calls_keep (P : call -> Prop) (s s' : MeatBagWindow) :
  calls s' = calls s -> extends_calls P s s'.
Proof. intros H. exists []. split; [now rewrite app_nil_r | constructor]. Qed.

Lemma transforms_entered (P : call -> Prop) (c : call) :
  P c -> transforms (extends_calls P) (entered c).
Proof.
  intros Hc s. exists [c]. split; [reflexivity | now constructor].
Qed.

(** A method that only reads: it leaves the state as it found it. *)
Definition reads_only {S A : Type} (m : M S A) : Prop :=
  transforms (same_on (fun s => s)) m.

Lemma transforms_reads_only {S A : Type} (R : S -> S -> Prop)
  {HR : RelationClasses.PreOrder R} (m : M S A) :
  reads_only m -> transforms R m.
Proof. intros H s. rewrite (H s). reflexivity. Qed.

Create HintDb methods discriminated.

#[export] Hint Unfold reads_only on_painter item_text item_checked item_float
  isTopLayer active_parts recolour_row : methods.

(** One step through the structure of a method; [atom] settles what a
    single assignment does to the relation at hand. *)
Ltac transforms_step atom :=
  match goal with
  | |- transforms _ (bind _ _) => apply transforms_bind; [exact _ | | intros ?]
  | |- transforms _ (ret _) => apply transforms_ret; exact _
  | |- transforms _ (raise _) => apply transforms_raise; exact _
  | |- transforms _ (gets _) => apply transforms_gets; exact _
  | |- transforms _ (lift_result _) => apply transforms_lift_result; exact _
  | |- transforms _ (or_raise _ _) => apply transforms_or_raise; exact _
  | |- transforms _ (try_except _ _ _) =>
      apply transforms_try_except; [exact _ | | ]
  | |- transforms _ (for_each _ _) =>
      apply transforms_for_each; [exact _ | intros ?]
  | |- transforms _ (modify _) => apply transforms_modify; intros ?; atom
  | |- transforms _ (lift_field _ _ _) =>
      apply transforms_lift_field; intros ? ?; atom
  | |- transforms (extends_calls _) (entered _) =>
      apply transforms_entered; first [assumption | exact I | simpl; tauto]
  | |- transforms _ (entered _) => unfold entered
  | |- transforms _ (if ?b then _ else _) => destruct b
  | |- transforms _ (match ?x with _ => _ end) => destruct x
  | |- transforms _ _ => solve [auto with methods]
  | |- transforms _ _ => progress autounfold with methods
  end.

Ltac transforms_with atom := repeat transforms_step atom.

Ltac same_on_atom := unfold same_on; reflexivity.

Ltac calls_atom := apply extends_calls_keep; reflexivity.

(** *** The methods that only read *)

Lemma item_text_reads r c : reads_only (item_text r c).
Proof. autounfold with methods. transforms_with same_on_atom. Qed.

Lemma item_checked_reads r : reads_only (item_checked r).
Proof. autounfold with methods. transforms_with same_on_atom. Qed.

Lemma isTopLayer_reads r : reads_only (isTopLayer r).
Proof. autounfold with methods. transforms_with same_on_atom. Qed.

Lemma active_parts_reads : reads_only active_parts.
Proof. autounfold with methods. transforms_with same_on_atom. Qed.

Lemma item_float_reads py_float r c : reads_only (item_float py_float r c).
Proof. autounfold with methods. transforms_with same_on_atom. Qed.

Lemma matching_positions_reads py_float parts cur cur_txt :
  reads_only (matching_positions py_float parts cur cur_txt).
Proof.
  induction parts as [|p parts IH]; simpl.
  - apply transforms_ret; exact _.
  - autounfold with methods in *. transforms_with same_on_atom.
Qed.

#[export] Hint Resolve item_text_reads item_checked_reads isTopLayer_reads
  active_parts_reads item_float_reads matching_positions_reads : methods.

#[export] Hint Extern 2 (transforms _ (item_text _ _)) =>
  apply transforms_reads_only; [exact _ | apply item_text_reads] : methods.
#[export] Hint Extern 2 (transforms _ (item_checked _)) =>
  apply transforms_reads_only; [exact _ | apply item_checked_reads] : methods.
#[export] Hint Extern 2 (transforms _ (isTopLayer _)) =>
  apply transforms_reads_only; [exact _ | apply isTopLayer_reads] : methods.
#[export] Hint Extern 2 (transforms _ active_parts) =>
  apply transforms_reads_only; [exact _ | apply active_parts_reads] : methods.
#[export] Hint Extern 2 (transforms _ (item_float _ _ _)) =>
  apply transforms_reads_only; [exact _ | apply item_float_reads] : methods.
#[export] Hint Extern 2 (transforms _ (matching_positions _ _ _ _)) =>
  apply transforms_reads_only; [exact _ | apply matching_positions_reads] : methods.

Lemma reads_only_run {S A : Type} (m : M S A) (s : S) :
  reads_only m -> m s = (fst (m s), s).
Proof. intros H. specialize (H s). unfold same_on in H. destruct (m s); simpl in *; congruence. Qed.

(** ** The placement display ([update_placement]) *)

(** What [update_placement] leaves alone: all but the display, the
    painter, the drawing flag and the trace. *)
Definition placement_core (s : MeatBagWindow) :=
  (csv_settings s, build_side s, all_components_data s, table s, pdb s, pdc s,
   topDesList s, botDesList s, cur_placement s, last_keys s, scanLine s,
   topDes s, botDes s).

(** The calls a keystroke may make: none of them is a matcher. *)
Definition keystroke_call (c : call) : Prop :=
  match c with
  | process_keystroke_called _
  | marker_diameter_increment_called
  | marker_diameter_decrement_called
  | toggle_draw_all_of_current_value_called
  | update_placement_called => True
  | _ => False
  end.

Section Placement.

Variable py_float : string -> option float.

Lemma update_placement_core :
  transforms (same_on placement_core) (update_placement py_float).
Proof. unfold update_placement. transforms_with same_on_atom. Qed.

Lemma update_placement_calls (P : call -> Prop) :
  P update_placement_called ->
  transforms (extends_calls P) (update_placement py_float).
Proof. intros HP. unfold update_placement. transforms_with calls_atom. Qed.

(** The trace of [update_placement] is its own entry. *)
Lemma update_placement_trace s :
  calls (snd (update_placement py_float s))
  = (calls s ++ [update_placement_called])%list.
Proof.
  unfold update_placement. rewrite snd_bind. simpl.
  match goal with
  | |- calls (snd (?m ?s1)) = _ =>
      assert (H : transforms (same_on calls) m) by transforms_with same_on_atom;
      exact (H s1)
  end.
Qed.

End Placement.

#[export] Hint Extern 2 (transforms (same_on _) (update_placement _)) =>
  apply (transforms_same_on_weaken placement_core);
  [ unfold placement_core; intros ? ? ?; congruence
  | apply update_placement_core ] : methods.
#[export] Hint Extern 2 (transforms (extends_calls _) (update_placement _)) =>
  apply update_placement_calls; first [assumption | exact I | simpl; tauto]
  : methods.

(** A bench with a board image of 800 by 600 pixels and a board of 100
    by 50 units, in the Altium layout. *)
Definition bench : MeatBagWindow :=
  set_pcbpainter
    (set_original_base (Some (800, 600)%Z)
       (set_board 100%float 50%float (set_image_size (800, 600)%Z PCBPainter_init)))
    (MeatBagWindow_init MeatBagCSVSettingsAltium).

(** A file without a header line: its one row, a bottom-side resistor,
    is taken for the header and shown on both sides. *)
Definition bottom_only_file : list row :=
  [ ["R2"; "10k"; "BottomLayer"; "0805"; "30"; "40.5"; "0"; "res"; "RC0805-10K"] ].

(** The bench after that file is opened with the top side selected and
    the part number of the resistor is scanned. *)
Definition bottom_only_scanned : MeatBagWindow :=
  snd (process_new_scan decimal_float decimal_int no_network "RC0805-10K"
         (snd (parseCSVFile bottom_only_file bench))).

(** C9, as stated, fails: with the top side active and a token that
    matches only a bottom-side row, the active side's match list is
    empty, there is no cursor, and the display reads [Done], not
    [Not Found]. *)
Lemma done_reported_on_empty_active_list :
  build_side bottom_only_scanned = 0
  /\ topDesList bottom_only_scanned = Some []
  /\ botDesList bottom_only_scanned = Some [0]
  /\ cur_placement bottom_only_scanned = None
  /\ place bottom_only_scanned = "Done"
  /\ ~ (forall py_float s parts,
           cur_placement s = None ->
           (if (build_side s =? 0)%nat then topDesList s else botDesList s)
           = Some parts ->
           (place (snd (update_placement py_float s)) = "Not Found" <-> parts = [])).
Proof.
  assert (Hside : build_side bottom_only_scanned = 0) by (vm_compute; reflexivity).
  assert (Htop : topDesList bottom_only_scanned = Some []) by (vm_compute; reflexivity).
  assert (Hbot : botDesList bottom_only_scanned = Some [0]) by (vm_compute; reflexivity).
  assert (Hcur : cur_placement bottom_only_scanned = None) by (vm_compute; reflexivity).
  assert (Hplace : place bottom_only_scanned = "Done") by (vm_compute; reflexivity).
  assert (Hagain : place (snd (update_placement decimal_float bottom_only_scanned))
                   = "Done") by (vm_compute; reflexivity).
  split; [exact Hside|]. split; [exact Htop|]. split; [exact Hbot|].
  split; [exact Hcur|]. split; [exact Hplace|].
  intros H.
  specialize (H decimal_float bottom_only_scanned [] Hcur).
  rewrite Hside in H. cbn [Nat.eqb] in H. specialize (H Htop).
  destruct H as [_ H]. specialize (H eq_refl). rewrite Hagain in H. discriminate.
Qed.

(** C9, amended: when there is no cursor, the display reads [Not Found]
    exactly when the match lists of both sides are empty, and [Done]
    exactly when the match list of at least one side, the active one or
    the other, is not empty; the two texts differ. *)
Theorem placement_report (py_float : string -> option float)
  (s : MeatBagWindow) (tops bots : list nat) :
  cur_placement s = None ->
  topDesList s = Some tops ->
  botDesList s = Some bots ->
  fst (update_placement py_float s) = Ok tt
  /\ (place (snd (update_placement py_float s)) = "Not Found"
      <-> tops = [] /\ bots = [])
  /\ (place (snd (update_placement py_float s)) = "Done"
      <-> tops <> [] \/ bots <> [])
  /\ "Not Found" <> "Done".
Proof.
  intros Hcur Htops Hbots. destruct s. simpl in Hcur, Htops, Hbots. subst.
  unfold update_placement, bind, entered, modify, gets, or_raise, ret. simpl.
  destruct tops as [|t tops]; [destruct bots as [|b bots]|]; simpl;
    repeat split; intros; try discriminate; try tauto;
    try solve [left; discriminate]; try solve [right; discriminate];
    intuition discriminate.
Qed.

Lemma placement_report_witness :
  place (snd (update_placement decimal_float bottom_only_scanned)) = "Done"
  <-> ([] : list nat) <> [] \/ [0] <> [].
Proof.
  apply (placement_report decimal_float bottom_only_scanned [] [0]); reflexivity.
Defined.

(** ** The scan decoder ([process_new_scan], [process_keystroke]) *)

Lemma transforms_lift_field_rel {S T A : Type} (RT : T -> T -> Prop)
  (R : S -> S -> Prop) (proj : S -> T) (upd : T -> S -> S) (m : M T A) :
  transforms RT m ->
  (forall s t', RT (proj s) t' -> R s (upd t' s)) ->
  transforms R (lift_field proj upd m).
Proof.
  intros Hm H s. unfold lift_field. specialize (Hm (proj s)).
  destruct (m (proj s)) as [r t']. apply H, Hm.
Qed.

#[export] Hint Unfold xy_to_draw reload_base draw_marker redraw
  marker_diameter_increment marker_diameter_decrement : methods.

(** Drawing leaves the marker diameter alone. *)
Lemma xy_to_draw_marker_diameter x y mirror :
  transforms (same_on marker_diameter) (xy_to_draw x y mirror).
Proof. autounfold with methods. transforms_with same_on_atom. Qed.

Section ScanDecoder.

Variable py_float : string -> option float.
Variable py_int : string -> option Z.
Variable urlopen_error : string -> option exn.

Lemma update_placement_marker_diameter :
  transforms (same_on (fun s => marker_diameter (pcbpainter s)))
    (update_placement py_float).
Proof.
  unfold update_placement.
  repeat match goal with
         | |- transforms _ (on_painter (xy_to_draw _ _ _)) =>
             apply (transforms_lift_field_rel (same_on marker_diameter));
             [apply xy_to_draw_marker_diameter | intros ? ? H; exact H]
         | _ => transforms_step same_on_atom
         end.
Qed.

Lemma toggle_draw_all_calls (P : call -> Prop) :
  P toggle_draw_all_of_current_value_called ->
  P update_placement_called ->
  transforms (extends_calls P) (toggle_draw_all_of_current_value py_float).
Proof.
  intros H1 H2. unfold toggle_draw_all_of_current_value.
  assert (Hup : transforms (extends_calls P) (update_placement py_float))
    by now apply update_placement_calls.
  transforms_with calls_atom.
Qed.

Lemma process_keystroke_calls txt :
  transforms (extends_calls keystroke_call) (process_keystroke py_float txt).
Proof.
  unfold process_keystroke, action_map. simpl trigger_actions.
  assert (Htog : transforms (extends_calls keystroke_call)
                   (toggle_draw_all_of_current_value py_float))
    by (apply toggle_draw_all_calls; exact I).
  transforms_with calls_atom.
Qed.

(** What the scan [+] does: two entries in the trace, ten more units of
    marker diameter, then [update_placement]. *)
Lemma process_plus_scan s :
  process_new_scan py_float py_int urlopen_error "+" s =
  update_placement py_float
    (set_pcbpainter
       (set_marker_diameter (marker_diameter (pcbpainter s) + 10)%Z (pcbpainter s))
       (set_calls
          (calls s ++ [process_keystroke_called "+"; marker_diameter_increment_called])%list
          s)).
Proof.
  destruct s. unfold process_new_scan, process_keystroke. simpl.
  unfold bind, entered, modify, on_painter, lift_field,
    marker_diameter_increment, gets, ret. simpl.
  rewrite <- app_assoc. reflexivity.
Qed.

(** Any call at all. *)
Definition any_call (c : call) : Prop := True.

Lemma find_unplaced_calls parts :
  transforms (extends_calls any_call) (find_unplaced parts).
Proof.
  induction parts as [|p parts IH]; simpl; transforms_with calls_atom.
Qed.

Lemma find_next_placement_calls :
  transforms (extends_calls any_call) (find_next_placement py_float).
Proof.
  unfold find_next_placement.
  pose proof find_unplaced_calls. transforms_with calls_atom.
Qed.

Lemma split_by_side_calls ml : forall a b,
  transforms (extends_calls any_call) (split_by_side ml a b).
Proof.
  induction ml as [|r ml IH]; intros a b; simpl; transforms_with calls_atom.
Qed.

Lemma show_matches_calls ml update :
  transforms (extends_calls any_call) (show_matches py_float ml update).
Proof.
  unfold show_matches.
  pose proof split_by_side_calls. pose proof find_next_placement_calls.
  transforms_with calls_atom.
Qed.

Lemma process_new_pn_calls pn update :
  transforms (extends_calls any_call) (process_new_pn py_float pn update).
Proof.
  unfold process_new_pn. pose proof show_matches_calls.
  transforms_with calls_atom.
Qed.

Lemma web_lookup_calls scan :
  transforms (extends_calls any_call)
    (web_lookup py_float py_int urlopen_error scan).
Proof.
  unfold web_lookup. pose proof process_new_pn_calls.
  transforms_with calls_atom.
Qed.

Lemma entered_bind_bind {A B : Type} (c : call) (body : W A) (rest : A -> W B)
  (s : MeatBagWindow) :
  bind (bind (entered c) (fun _ => body)) rest s
  = bind body rest (set_calls (calls s ++ [c])%list s).
Proof. reflexivity. Qed.

(** A scan of five characters or more goes to the part-number matcher
    first. *)
Lemma process_long_scan scan s :
  5 <= String.length scan ->
  exists l,
    calls (snd (process_new_scan py_float py_int urlopen_error scan s))
    = (calls s ++ process_new_pn_called scan :: l)%list.
Proof.
  intros Hlen. unfold process_new_scan.
  assert (Hlt : (String.length scan <? 5)%nat = false) by (apply Nat.ltb_ge; lia).
  rewrite Hlt.
  rewrite snd_bind. cbn [modify]. rewrite snd_bind. cbn [modify].
  unfold process_new_pn. rewrite entered_bind_bind.
  match goal with
  | |- context [snd (?m ?s0)] =>
      assert (Hrest : transforms (extends_calls any_call) m);
      [| destruct (Hrest s0) as [l [Hl _]]; exists l; rewrite Hl ]
  end.
  - pose proof show_matches_calls. pose proof find_next_placement_calls.
    pose proof web_lookup_calls. transforms_with calls_atom.
  - simpl. now rewrite <- app_assoc.
Qed.

End ScanDecoder.

(** C5: a scan of fewer than five characters is handed to
    [process_keystroke] and to nothing else, and the calls that follow
    are key actions and redraws, never a matcher; the scan [+] enters the
    marker-size increment, which adds ten to the diameter, and then the
    redraw of [update_placement], and leaves the match lists and the
    cursor as they were; a scan of five characters or more is handed to
    the part-number matcher as a lookup token. *)
Theorem scan_dispatch (py_float : string -> option float)
  (py_int : string -> option Z) (urlopen_error : string -> option exn)
  (s : MeatBagWindow) (scan : string) :
  (String.length scan < 5 ->
   process_new_scan py_float py_int urlopen_error scan s
   = process_keystroke py_float scan s
   /\ exists l,
        calls (snd (process_new_scan py_float py_int urlopen_error scan s))
        = (calls s ++ process_keystroke_called scan :: l)%list
        /\ Forall keystroke_call l)
  /\ (let s' := snd (process_new_scan py_float py_int urlopen_error "+" s) in
      calls s'
      = (calls s ++ [process_keystroke_called "+";
                     marker_diameter_increment_called;
                     update_placement_called])%list
      /\ marker_diameter (pcbpainter s')
         = (marker_diameter (pcbpainter s) + 10)%Z
      /\ topDesList s' = topDesList s
      /\ botDesList s' = botDesList s
      /\ cur_placement s' = cur_placement s)
  /\ (5 <= String.length scan ->
      exists l,
        calls (snd (process_new_scan py_float py_int urlopen_error scan s))
        = (calls s ++ process_new_pn_called scan :: l)%list).
Proof.
  split; [|split].
  - intros Hlen. unfold process_new_scan.
    assert (Hlt : (String.length scan <? 5)%nat = true) by (apply Nat.ltb_lt; lia).
    rewrite Hlt. split; [reflexivity|].
    unfold process_keystroke. rewrite snd_bind. cbn [entered modify].
    match goal with
    | |- context [snd (?m ?s0)] =>
        assert (Hrest : transforms (extends_calls keystroke_call) m);
        [| destruct (Hrest s0) as [l [Hl Hf]]; exists l; split; [|exact Hf];
           rewrite Hl ]
    end.
    + pose proof (toggle_draw_all_calls py_float keystroke_call I I) as Htog.
      unfold action_map. simpl trigger_actions.
      transforms_with calls_atom.
    + simpl. now rewrite <- app_assoc.
  - cbv zeta. rewrite process_plus_scan.
    rewrite update_placement_trace.
    pose proof (update_placement_marker_diameter py_float) as Hd.
    pose proof (update_placement_core py_float) as Hc.
    match goal with
    | |- context [update_placement py_float ?s0] =>
        specialize (Hd s0); specialize (Hc s0)
    end.
    unfold same_on in Hd, Hc. unfold placement_core in Hc.
    simpl in Hd, Hc. injection Hc as _ _ _ _ _ _ Htop Hbot Hcur _ _ _ _.
    repeat split.
    + simpl. now rewrite <- app_assoc.
    + rewrite Hd. now destruct s.
    + rewrite Htop. now destruct s.
    + rewrite Hbot. now destruct s.
    + rewrite Hcur. now destruct s.
  - apply process_long_scan.
Qed.

(** ** The table under recolouring and marking *)

(** What the methods that only paint or mark leave alone: all but the
    backgrounds, the display and the trace. *)
Definition table_core (s : MeatBagWindow) :=
  (csv_settings s, build_side s, all_components_data s, pdb s, pdc s,
   topDesList s, botDesList s, cur_placement s,
   map (fun tr => (texts tr, checked tr)) (table_rows (table s)),
   columnCount (table s)).

Lemma update_nth_map {A B : Type} (g : A -> B) (f : A -> A) (n : nat) (l : list A) :
  (forall x, g (f x) = g x) -> map g (update_nth n f l) = map g l.
Proof.
  intros H. revert n. induction l as [|x l IH]; intros [|n]; simpl;
    rewrite ?H, ?IH; reflexivity.
Qed.

Lemma nth_error_update_nth {A : Type} (f : A -> A) (n p : nat) (l : list A) :
  nth_error (update_nth n f l) p =
  if (p =? n)%nat then option_map f (nth_error l p) else nth_error l p.
Proof.
  revert n p. induction l as [|x l IH]; intros [|n] [|p]; simpl; try reflexivity.
  - now destruct (p =? n)%nat.
  - apply IH.
Qed.

Lemma item_checked_opt_core t t' r :
  map (fun tr => (texts tr, checked tr)) (table_rows t')
  = map (fun tr => (texts tr, checked tr)) (table_rows t) ->
  columnCount t' = columnCount t ->
  item_checked_opt t' r = item_checked_opt t r.
Proof.
  intros Hrows Hcols. unfold item_checked_opt. rewrite Hcols.
  destruct (columnCount t =? 0)%nat; [reflexivity|].
  assert (H : forall l, option_map checked (nth_error l r)
                        = option_map snd
                            (nth_error (map (fun tr => (texts tr, checked tr)) l) r)).
  { intros l. rewrite nth_error_map. now destruct (nth_error l r). }
  now rewrite !H, Hrows.
Qed.

Lemma item_text_opt_core t t' r c :
  map (fun tr => (texts tr, checked tr)) (table_rows t')
  = map (fun tr => (texts tr, checked tr)) (table_rows t) ->
  columnCount t' = columnCount t ->
  item_text_opt t' r c = item_text_opt t r c.
Proof.
  intros Hrows Hcols. unfold item_text_opt. rewrite Hcols.
  assert (H : forall l, option_map texts (nth_error l r)
                        = option_map fst
                            (nth_error (map (fun tr => (texts tr, checked tr)) l) r)).
  { intros l. rewrite nth_error_map. now destruct (nth_error l r). }
  specialize (H (table_rows t)) as Ht. specialize (H (table_rows t')) as Ht'.
  rewrite Hrows in Ht'. rewrite <- Ht in Ht'.
  destruct (nth_error (table_rows t') r) as [tr'|];
    destruct (nth_error (table_rows t) r) as [tr|]; simpl in Ht'; try discriminate;
    [|reflexivity].
  injection Ht' as ->. reflexivity.
Qed.

Lemma item_checked_opt_set_row_checked t r p :
  item_checked_opt (set_row_checked r true t) p =
  if (p =? r)%nat then option_map (fun _ => true) (item_checked_opt t p)
  else item_checked_opt t p.
Proof.
  unfold item_checked_opt, set_row_checked. simpl.
  destruct (columnCount t =? 0)%nat; [now destruct (p =? r)%nat|].
  rewrite nth_error_update_nth.
  destruct (p =? r)%nat; [|reflexivity].
  now destruct (nth_error (table_rows t) p).
Qed.

Ltac table_core_atom :=
  unfold same_on, table_core; simpl;
  rewrite ?update_nth_map by reflexivity; reflexivity.

Lemma recolourTable_core : transforms (same_on table_core) recolourTable.
Proof. unfold recolourTable. transforms_with table_core_atom. Qed.

(** ** The placement cursor ([find_next_placement], [timesUp]) *)

(** [parts] as a function of the state. *)
Definition active_list (s : MeatBagWindow) : option (list nat) :=
  if (build_side s =? 0)%nat then topDesList s else botDesList s.

(** The row the loop of [find_next_placement] stops at: the first row of
    [parts] whose box is not checked. *)
Fixpoint first_unplaced (t : QTableWidget) (parts : list nat)
  : result (option nat) :=
  match parts with
  | [] => Ok None
  | p :: rest =>
      match item_checked_opt t p with
      | None => Raise AttributeError
      | Some true => first_unplaced t rest
      | Some false => Ok (Some p)
      end
  end.

Definition placed_in (t : QTableWidget) (p : nat) : Prop :=
  item_checked_opt t p = Some true.

Lemma first_unplaced_found t parts p :
  first_unplaced t parts = Ok (Some p) ->
  exists mid post,
    parts = (mid ++ p :: post)%list
    /\ Forall (placed_in t) mid
    /\ item_checked_opt t p = Some false.
Proof.
  induction parts as [|q parts IH]; simpl; [discriminate|].
  destruct (item_checked_opt t q) as [[|]|] eqn:Hq; [| |discriminate].
  - intros H. destruct (IH H) as [mid [post [-> [Hmid Hp]]]].
    exists (q :: mid), post. repeat split; auto.
  - intros [= <-]. exists [], parts. repeat split; auto.
Qed.

Lemma first_unplaced_skip t pre rest :
  Forall (placed_in t) pre ->
  first_unplaced t (pre ++ rest) = first_unplaced t rest.
Proof.
  induction 1 as [|q pre Hq Hpre IH]; simpl; [reflexivity|].
  unfold placed_in in Hq. now rewrite Hq.
Qed.

Lemma first_unplaced_none t parts :
  Forall (placed_in t) parts -> first_unplaced t parts = Ok None.
Proof.
  intros H. rewrite <- (app_nil_r parts). now rewrite first_unplaced_skip.
Qed.

Lemma find_unplaced_run parts s :
  find_unplaced parts s =
  match first_unplaced (table s) parts with
  | Ok None => (Ok tt, s)
  | Ok (Some p) => (Ok tt, set_cur_placement (Some p) s)
  | Raise e => (Raise e, s)
  end.
Proof.
  induction parts as [|p parts IH]; [reflexivity|].
  cbn [find_unplaced first_unplaced].
  unfold bind at 1. unfold item_checked, bind, gets, or_raise.
  destruct (item_checked_opt (table s) p) as [[|]|]; cbn [ret raise modify];
    [exact IH | reflexivity | reflexivity].
Qed.

Lemma active_parts_run s :
  active_parts s =
  (match active_list s with Some l => Ok l | None => Raise AttributeError end, s).
Proof.
  unfold active_parts, active_list, bind, gets, or_raise. simpl.
  destruct (build_side s =? 0)%nat;
    [destruct (topDesList s) | destruct (botDesList s)]; reflexivity.
Qed.

Lemma snd_bind_same_on {S A B X : Type} (f : S -> X) (m : M S A)
  (k : A -> M S B) (s : S) :
  (forall a, transforms (same_on f) (k a)) ->
  f (snd (bind m k s)) = f (snd (m s)).
Proof.
  intros H. rewrite snd_bind. destruct (m s) as [[a|e] s1]; simpl; [apply H | reflexivity].
Qed.

Section Cursor.

Variable py_float : string -> option float.

(** The cursor [find_next_placement] leaves, and what it keeps. *)
Lemma find_next_placement_run s parts :
  active_list s = Some parts ->
  let s' := snd (find_next_placement py_float s) in
  cur_placement s' =
    match first_unplaced (table s) parts with
    | Ok (Some p) => Some p
    | _ => None
    end
  /\ table s' = table s
  /\ topDesList s' = topDesList s
  /\ botDesList s' = botDesList s
  /\ build_side s' = build_side s.
Proof.
  intros Hparts. cbv zeta. unfold find_next_placement.
  rewrite snd_bind. cbn [entered modify]. rewrite snd_bind. cbn [modify].
  rewrite snd_bind. rewrite active_parts_run.
  match goal with
  | |- context [active_list ?s1] =>
      replace (active_list s1) with (Some parts) by (rewrite <- Hparts; now destruct s)
  end.
  match goal with
  | |- context [snd (bind (find_unplaced parts) ?k ?s1)] =>
      pose proof (snd_bind_same_on placement_core (find_unplaced parts) k s1
                    (fun _ => update_placement_core py_float)) as Hcore;
      rewrite find_unplaced_run in Hcore;
      replace (table s1) with (table s) in Hcore by now destruct s
  end.
  unfold placement_core in Hcore.
  destruct (first_unplaced (table s) parts) as [[p|]|e]; simpl in Hcore;
    injection Hcore as _ Hside _ Htable _ _ Htop Hbot Hcur _ _ _ _;
    rewrite Hcur, Htable, Htop, Hbot, Hside; destruct s; repeat split.
Qed.

(** The cursor is where the loop stopped: the rows of the active list
    before it are placed, and it is not. *)
Lemma find_next_placement_cursor s parts r :
  active_list s = Some parts ->
  cur_placement (snd (find_next_placement py_float s)) = Some r ->
  exists pre post,
    parts = (pre ++ r :: post)%list
    /\ Forall (placed_in (table s)) pre
    /\ item_checked_opt (table s) r = Some false.
Proof.
  intros Hparts Hcur.
  destruct (find_next_placement_run s parts Hparts) as [Hc _].
  rewrite Hc in Hcur.
  destruct (first_unplaced (table s) parts) as [[p|]|e] eqn:Hf; try discriminate.
  injection Hcur as ->. now apply first_unplaced_found.
Qed.

(** The space scan with a cursor on a row of the table: the row is
    marked, then [find_next_placement] and [recolourTable] run. *)
Lemma timesUp_space s r c :
  last_keys s = " " ->
  cur_placement s = Some r ->
  item_checked_opt (table s) r = Some c ->
  timesUp py_float s =
  bind (find_next_placement py_float) (fun _ => recolourTable)
    (set_table (set_row_checked r true (table s)) (set_last_keys "" s)).
Proof.
  intros Hkeys Hcur Hr. destruct s. simpl in Hkeys, Hcur, Hr. subst.
  unfold timesUp, mark_placed, item_checked.
  cbn -[item_checked_opt find_next_placement recolourTable].
  unfold bind, gets, or_raise, modify.
  cbn -[item_checked_opt find_next_placement recolourTable].
  rewrite Hr. reflexivity.
Qed.

Lemma timesUp_advance s r c parts :
  last_keys s = " " ->
  cur_placement s = Some r ->
  item_checked_opt (table s) r = Some c ->
  active_list s = Some parts ->
  let t2 := set_row_checked r true (table s) in
  let s' := snd (timesUp py_float s) in
  cur_placement s' =
    match first_unplaced t2 parts with
    | Ok (Some p) => Some p
    | _ => None
    end
  /\ (forall p, item_checked_opt (table s') p = item_checked_opt t2 p)
  /\ active_list s' = Some parts.
Proof.
  intros Hkeys Hcur Hr Hparts. cbv zeta.
  rewrite (timesUp_space s r c Hkeys Hcur Hr).
  set (s2 := set_table (set_row_checked r true (table s)) (set_last_keys "" s)).
  assert (Hparts2 : active_list s2 = Some parts) by (rewrite <- Hparts; now destruct s).
  destruct (find_next_placement_run s2 parts Hparts2) as [Hc [Ht [Htop [Hbot Hside]]]].
  replace (table s2) with (set_row_checked r true (table s)) in * by (now destruct s).
  pose proof (snd_bind_same_on table_core (find_next_placement py_float)
                (fun _ => recolourTable) s2 (fun _ => recolourTable_core)) as Hcore.
  unfold table_core in Hcore.
  injection Hcore as _ Hside' _ _ _ Htop' Hbot' Hcur' Hrows Hcols.
  repeat split.
  - now rewrite Hcur'.
  - intros p. rewrite <- Ht. now apply item_checked_opt_core.
  - unfold active_list. rewrite Hside', Htop', Hbot', Hside, Htop, Hbot. exact Hparts2.
Qed.

End Cursor.

Lemma placed_in_set_row_checked t r p :
  placed_in t p -> placed_in (set_row_checked r true t) p.
Proof.
  unfold placed_in. intros H. rewrite item_checked_opt_set_row_checked, H.
  now destruct (p =? r)%nat.
Qed.

(** A session on the bench: the Altium file is opened, the part number
    of the resistors is scanned (rows 2 and 3 of the top-side table
    match, the cursor goes to row 2), the space key places row 2 (the
    cursor goes to row 3), the side selector is set to bottom and back
    to top (the table is rebuilt, its boxes unchecked; the match list
    and the cursor stay), and the space key is pressed again. *)
Definition resistors_scanned : MeatBagWindow :=
  snd (process_new_scan decimal_float decimal_int no_network "RC0805-10K"
         (snd (parseCSVFile altium_file bench))).

Definition first_resistor_placed : MeatBagWindow :=
  snd (timesUp decimal_float (snd (key_pressed " " resistors_scanned))).

Definition sides_toggled : MeatBagWindow :=
  snd (sideSelectionChanged 0 (snd (sideSelectionChanged 1 first_resistor_placed))).

Definition space_pressed_again : MeatBagWindow :=
  snd (key_pressed " " sides_toggled).

(** C8, as stated, fails: in the session above the cursor is on row 3,
    second in the active side's match list [2; 3] and unplaced; the
    advance marks row 3 and moves the cursor to row 2, which comes
    earlier in that list. *)
Lemma advance_goes_back_after_side_toggle :
  cur_placement space_pressed_again = Some 3
  /\ active_list space_pressed_again = Some [2; 3]
  /\ item_checked_opt (table space_pressed_again) 3 = Some false
  /\ cur_placement (snd (timesUp decimal_float space_pressed_again)) = Some 2
  /\ ~ (forall py_float s r parts r',
           last_keys s = " " ->
           cur_placement s = Some r ->
           active_list s = Some parts ->
           cur_placement (snd (timesUp py_float s)) = Some r' ->
           exists i j,
             nth_error parts i = Some r /\ nth_error parts j = Some r' /\ i < j).
Proof.
  assert (Hkeys : last_keys space_pressed_again = " ") by (vm_compute; reflexivity).
  assert (Hcur : cur_placement space_pressed_again = Some 3)
    by (vm_compute; reflexivity).
  assert (Hact : active_list space_pressed_again = Some [2; 3])
    by (vm_compute; reflexivity).
  assert (Hbox : item_checked_opt (table space_pressed_again) 3 = Some false)
    by (vm_compute; reflexivity).
  assert (Hnext : cur_placement (snd (timesUp decimal_float space_pressed_again))
                  = Some 2) by (vm_compute; reflexivity).
  split; [exact Hcur|]. split; [exact Hact|]. split; [exact Hbox|].
  split; [exact Hnext|].
  intros H.
  destruct (H decimal_float space_pressed_again 3 [2; 3] 2 Hkeys Hcur Hact Hnext)
    as [i [j [Hi [Hj Hlt]]]].
  clear H Hkeys Hcur Hact Hbox Hnext.
  destruct i as [|[|[|i]]]; simpl in Hi; try discriminate.
  destruct j as [|[|[|j]]]; simpl in Hj; try discriminate. lia.
Qed.

(** C8, amended: for a state whose cursor is on row [r] of the active
    side's match list, with every row before [r] in that list placed (as
    [find_next_placement] leaves it, see [find_next_placement_cursor]),
    the advance marks row [r] placed and re-runs [find_next_placement]
    over the same list; the new cursor, if any, is the first unplaced row
    after [r] in the list, so it stands strictly later than [r], and if
    every row after [r] is placed there is no cursor. *)
Theorem advance_moves_forward (py_float : string -> option float)
  (s : MeatBagWindow) (r : nat) (pre post : list nat) :
  last_keys s = " " ->
  cur_placement s = Some r ->
  active_list s = Some (pre ++ r :: post)%list ->
  Forall (placed_in (table s)) pre ->
  item_checked_opt (table s) r = Some false ->
  let s' := snd (timesUp py_float s) in
  placed_in (table s') r
  /\ active_list s' = Some (pre ++ r :: post)%list
  /\ (forall r', cur_placement s' = Some r' ->
        exists mid post',
          post = (mid ++ r' :: post')%list
          /\ Forall (placed_in (table s')) (pre ++ r :: mid)
          /\ item_checked_opt (table s') r' = Some false)
  /\ (Forall (placed_in (table s)) post -> cur_placement s' = None).
Proof.
  intros Hkeys Hcur Hact Hpre Hr. cbv zeta.
  destruct (timesUp_advance py_float s r false _ Hkeys Hcur Hr Hact)
    as [Hc [Hbox Hact']].
  set (t2 := set_row_checked r true (table s)) in *.
  assert (Hr2 : placed_in t2 r).
  { unfold placed_in, t2. rewrite item_checked_opt_set_row_checked, Nat.eqb_refl, Hr.
    reflexivity. }
  assert (Hpre2 : Forall (placed_in t2) (pre ++ [r])).
  { apply Forall_app. split.
    - eapply Forall_impl; [|exact Hpre]. intros p. apply placed_in_set_row_checked.
    - constructor; [exact Hr2 | constructor]. }
  assert (Hskip : first_unplaced t2 (pre ++ r :: post) = first_unplaced t2 post).
  { replace (pre ++ r :: post)%list with ((pre ++ [r]) ++ post)%list
      by (now rewrite <- app_assoc).
    now apply first_unplaced_skip. }
  rewrite Hskip in Hc.
  assert (Hplaced' : forall p, placed_in t2 p -> placed_in (table (snd (timesUp py_float s))) p).
  { intros p Hp. unfold placed_in. now rewrite Hbox. }
  repeat split.
  - now apply Hplaced'.
  - exact Hact'.
  - intros r' Hr'. rewrite Hr' in Hc.
    destruct (first_unplaced t2 post) as [[p|]|e] eqn:Hf; try discriminate.
    injection Hc as <-.
    destruct (first_unplaced_found _ _ _ Hf) as [mid [post' [Hpost [Hmid Hp]]]].
    exists mid, post'. split; [exact Hpost|]. split.
    + replace (pre ++ r :: mid)%list with ((pre ++ [r]) ++ mid)%list
        by (now rewrite <- app_assoc).
      apply Forall_app. split; (eapply Forall_impl; [exact Hplaced'|]); assumption.
    + now rewrite Hbox.
  - intros Hpost. rewrite Hc.
    rewrite first_unplaced_none; [reflexivity|].
    eapply Forall_impl; [|exact Hpost]. intros p. apply placed_in_set_row_checked.
Qed.

(** ** The match lists and the selected side *)

Lemma bind_ok {S A B : Type} (m : M S A) (k : A -> M S B) (s s1 : S) (a : A) :
  m s = (Ok a, s1) -> bind m k s = k a s1.
Proof. intros H. unfold bind. now rewrite H. Qed.

Lemma bind_raise {S A B : Type} (m : M S A) (k : A -> M S B) (s s1 : S) (e : exn) :
  m s = (Raise e, s1) -> bind m k s = (Raise e, s1).
Proof. intros H. unfold bind. now rewrite H. Qed.

(** The side [isTopLayer] derives for a row of a table. *)
Definition layer_side (cfg : MeatBagCSVSettings) (t : QTableWidget) (r : nat)
  : result bool :=
  if (col_layer cfg <? 0)%Z then Ok true
  else
    match item_text_opt t r (Z.to_nat (col_layer cfg)) with
    | None => Raise AttributeError
    | Some tb =>
        if startswith (lower tb) "top" then Ok true
        else if startswith (lower tb) "bot" then Ok false
        else Raise ValueError
    end.

Lemma item_text_run r c s :
  item_text r c s =
  (match item_text_opt (table s) r c with
   | Some txt => Ok txt
   | None => Raise AttributeError
   end, s).
Proof.
  unfold item_text. rewrite (bind_ok (gets table) _ s s _ eq_refl).
  now destruct (item_text_opt (table s) r c).
Qed.

Lemma isTopLayer_run r s :
  isTopLayer r s = (layer_side (csv_settings s) (table s) r, s).
Proof.
  unfold isTopLayer, layer_side.
  rewrite (bind_ok (gets csv_settings) _ s s _ eq_refl).
  destruct (col_layer (csv_settings s) <? 0)%Z; [reflexivity|].
  destruct (item_text_opt (table s) r (Z.to_nat (col_layer (csv_settings s))))
    as [tb|] eqn:Htb.
  - rewrite (bind_ok (item_text r _) _ s s tb)
      by (now rewrite item_text_run, Htb).
    destruct (startswith (lower tb) "top"); [reflexivity|].
    destruct (startswith (lower tb) "bot"); reflexivity.
  - rewrite (bind_raise (item_text r _) _ s s AttributeError)
      by (now rewrite item_text_run, Htb).
    reflexivity.
Qed.

(** The text items of the table made from [filtered_data]. *)
Lemma item_text_opt_table_of header_row filtered r c a_row :
  nth_error filtered r = Some a_row ->
  item_text_opt (table_of header_row filtered) r c =
  if (List.length header_row + 1 <=? c)%nat then None
  else if (S c =? List.length header_row + 1)%nat then Some ""
  else Some (nth c a_row "???").
Proof.
  intros Hr. unfold item_text_opt, table_of. cbn [table_rows columnCount].
  unfold row in *. rewrite nth_error_map, Hr. cbn [option_map texts].
  destruct (List.length header_row + 1 <=? c)%nat eqn:Hle; [reflexivity|].
  destruct (S c =? List.length header_row + 1)%nat eqn:Heq; [reflexivity|].
  apply Nat.leb_gt in Hle. apply Nat.eqb_neq in Heq.
  rewrite nth_error_map.
  rewrite (nth_error_nth' (seq 0 (List.length header_row)) 0)
    by (rewrite length_seq; lia).
  rewrite seq_nth by lia. reflexivity.
Qed.

(** On the table made for a side, a component row is never given the
    other side. *)
Lemma layer_side_of_filtered cfg side header_row rest t r b :
  (forall r' c, item_text_opt t r' c
                = item_text_opt
                    (table_of header_row
                       (filtered_data cfg side (header_row :: rest))) r' c) ->
  r < List.length (filtered_data cfg side (header_row :: rest)) ->
  layer_side cfg t r = Ok b ->
  1 <= r ->
  (b = true -> side = 0) /\ (b = false -> side <> 0).
Proof.
  intros Htable Hr Hside Hpos.
  destruct r as [|j]; [lia|].
  destruct (nth_error (filtered_data cfg side (header_row :: rest)) (S j))
    as [a_row|] eqn:Hrow; [|apply nth_error_None in Hrow; lia].
  assert (Hkeep : keeps_row cfg side a_row = true).
  { simpl in Hrow. apply nth_error_In in Hrow. now apply filter_In in Hrow. }
  apply keeps_row_spec in Hkeep. unfold layer_side in Hside.
  destruct Hkeep as [[Hneg ->] | [layer [Hp [Hl Hpre]]]].
  - split; [reflexivity|]. intros ->.
    apply Z.ltb_lt in Hneg. rewrite Hneg in Hside. discriminate.
  - assert (Hnn : (col_layer cfg <? 0)%Z = false) by (apply Z.ltb_ge; lia).
    rewrite Hnn, Htable, (item_text_opt_table_of _ _ _ _ _ Hrow) in Hside.
    destruct (List.length header_row + 1 <=? Z.to_nat (col_layer cfg))%nat;
      [discriminate|].
    destruct (S (Z.to_nat (col_layer cfg)) =? List.length header_row + 1)%nat.
    { vm_compute in Hside. discriminate. }
    rewrite (nth_error_nth _ _ "???" Hl) in Hside.
    destruct (startswith (lower layer) "top") eqn:Htop.
    + injection Hside as <-. apply startswith_spec in Htop.
      split; [intros _ | discriminate].
      unfold side_prefix in Hpre. destruct (side =? 0)%nat eqn:E.
      * now apply Nat.eqb_eq in E.
      * exfalso. exact (top_bot_exclusive _ Htop Hpre).
    + destruct (startswith (lower layer) "bot") eqn:Hbot; [|discriminate].
      injection Hside as <-. apply startswith_spec in Hbot.
      split; [discriminate | intros _ ->].
      exact (top_bot_exclusive _ Hpre Hbot).
Qed.

(** What the loop over the match list leaves alone. *)
Definition layout_core (s : MeatBagWindow) :=
  (csv_settings s, build_side s, table s).

(** Every index of the two lists is a row of a table of [n] rows, and
    an index filed under the side that is not selected is the header's. *)
Definition lists_follow_side (n side : nat) (s : MeatBagWindow) : Prop :=
  forall i,
    (forall tops, topDesList s = Some tops -> In i tops ->
                  i < n /\ (side <> 0 -> i = 0))
    /\ (forall bots, botDesList s = Some bots -> In i bots ->
                     i < n /\ (side = 0 -> i = 0)).

Section MatchLists.

Variable py_float : string -> option float.

Lemma find_unplaced_lists parts :
  transforms (same_on (fun s => (topDesList s, botDesList s))) (find_unplaced parts).
Proof.
  induction parts as [|p parts IH]; simpl; transforms_with same_on_atom.
Qed.

Lemma find_next_placement_lists :
  transforms (same_on (fun s => (topDesList s, botDesList s)))
    (find_next_placement py_float).
Proof.
  unfold find_next_placement. pose proof find_unplaced_lists.
  transforms_with same_on_atom.
Qed.

Variables (cfg : MeatBagCSVSettings) (side : nat) (header_row : row)
  (rest : list row).

Let filtered := filtered_data cfg side (header_row :: rest).

(** The state shows the table made for the selected side. *)
Definition shows_side (s : MeatBagWindow) : Prop :=
  csv_settings s = cfg /\ build_side s = side
  /\ forall r c, item_text_opt (table s) r c
                 = item_text_opt (table_of header_row filtered) r c.

Lemma lists_follow_side_append_top s r :
  lists_follow_side (List.length filtered) side s ->
  r < List.length filtered -> (side <> 0 -> r = 0) ->
  lists_follow_side (List.length filtered) side
    (set_topDesList (option_map (fun l => l ++ [r])%list (topDesList s)) s).
Proof.
  intros H Hr Hs i. destruct (H i) as [Ht Hb]. destruct s. simpl in *. split.
  - intros tops Htops Hin. destruct topDesList0 as [l|]; [|discriminate].
    injection Htops as <-. apply in_app_or in Hin. destruct Hin as [Hin | [<- | []]].
    + now apply (Ht l).
    + auto.
  - exact Hb.
Qed.

Lemma lists_follow_side_append_bot s r :
  lists_follow_side (List.length filtered) side s ->
  r < List.length filtered -> (side = 0 -> r = 0) ->
  lists_follow_side (List.length filtered) side
    (set_botDesList (option_map (fun l => l ++ [r])%list (botDesList s)) s).
Proof.
  intros H Hr Hs i. destruct (H i) as [Ht Hb]. destruct s. simpl in *. split.
  - exact Ht.
  - intros bots Hbots Hin. destruct botDesList0 as [l|]; [|discriminate].
    injection Hbots as <-. apply in_app_or in Hin. destruct Hin as [Hin | [<- | []]].
    + now apply (Hb l).
    + auto.
Qed.

Lemma split_by_side_follows ml : forall a b s,
  shows_side s ->
  Forall (fun r => r < List.length filtered) ml ->
  lists_follow_side (List.length filtered) side s ->
  lists_follow_side (List.length filtered) side (snd (split_by_side ml a b s)).
Proof.
  induction ml as [|r ml IH]; intros a b s Hshow Hml Hlists; [exact Hlists|].
  inversion Hml as [|? ? Hr Hml']; subst.
  destruct Hshow as [Hcfg [Hside Htable]].
  cbn [split_by_side].
  rewrite (bind_ok (gets csv_settings) _ s s (csv_settings s) eq_refl).
  destruct (layer_side (csv_settings s) (table s) r) as [b0|e] eqn:Hlayer;
    [|rewrite (bind_raise _ _ s s e) by (now rewrite isTopLayer_run, Hlayer);
      exact Hlists].
  rewrite (bind_ok _ _ s s b0) by (now rewrite isTopLayer_run, Hlayer).
  assert (Hb0 : 1 <= r -> (b0 = true -> side = 0) /\ (b0 = false -> side <> 0)).
  { intros Hpos. rewrite Hcfg in Hlayer.
    exact (layer_side_of_filtered cfg side header_row rest (table s) r b0
             Htable Hr Hlayer Hpos). }
  destruct b0.
  - rewrite (bind_ok (modify _) _ s _ tt eq_refl).
    match goal with
    | |- lists_follow_side _ _ (snd (bind _ _ ?s1)) =>
        assert (Hlists1 : lists_follow_side (List.length filtered) side s1);
        [| assert (Hshow1 : shows_side s1) by (now destruct s);
           rewrite snd_bind, item_text_run;
           destruct (item_text_opt (table s1) r (col_des (csv_settings s)));
           [apply IH; assumption | exact Hlists1] ]
    end.
    apply lists_follow_side_append_top; [exact Hlists | exact Hr |].
    intros Hne. destruct r; [reflexivity|].
    destruct Hb0 as [H _]; [lia|]. specialize (H eq_refl). contradiction.
  - rewrite (bind_ok (modify _) _ s _ tt eq_refl).
    match goal with
    | |- lists_follow_side _ _ (snd (bind _ _ ?s1)) =>
        assert (Hlists1 : lists_follow_side (List.length filtered) side s1);
        [| assert (Hshow1 : shows_side s1) by (now destruct s);
           rewrite snd_bind, item_text_run;
           destruct (item_text_opt (table s1) r (col_des (csv_settings s)));
           [apply IH; assumption | exact Hlists1] ]
    end.
    apply lists_follow_side_append_bot; [exact Hlists | exact Hr |].
    intros He. destruct r; [reflexivity|].
    destruct Hb0 as [_ H]; [lia|]. specialize (H eq_refl). contradiction.
Qed.

Lemma show_matches_follows ml update s :
  shows_side s ->
  Forall (fun r => r < List.length filtered) ml ->
  lists_follow_side (List.length filtered) side
    (snd (show_matches py_float ml update s)).
Proof.
  intros Hshow Hml. unfold show_matches.
  rewrite (bind_ok (modify _) _ s _ tt eq_refl).
  match goal with
  | |- context [bind (modify ?f) ?k ?s0] =>
      rewrite (bind_ok (modify f) k s0 _ tt eq_refl)
  end.
  match goal with
  | |- lists_follow_side _ _ (snd (bind (split_by_side ml ?a ?b) ?k ?s0)) =>
      assert (Hsplit : lists_follow_side (List.length filtered) side
                         (snd (split_by_side ml a b s0)));
      [ apply split_by_side_follows;
        [ now destruct s | exact Hml
        | intros i; destruct s; simpl; split; intros l [= <-] [] ]
      | assert (Hk : forall strs,
                   transforms (same_on (fun s => (topDesList s, botDesList s)))
                     (k strs))
          by (intros strs; pose proof find_next_placement_lists;
              transforms_with same_on_atom);
        pose proof (snd_bind_same_on _ (split_by_side ml a b) k s0 Hk) as Hsame ]
  end.
  injection Hsame as Htop Hbot.
  intros i. destruct (Hsplit i) as [Ht Hb].
  rewrite Htop, Hbot. split; assumption.
Qed.

Lemma matchlist_in_range gate db token :
  Forall (fun r => r < List.length db)
    (indices_where (fun field => field_matches gate field token) 0 db).
Proof.
  apply Forall_forall. intros i Hi. apply indices_where_spec in Hi.
  destruct Hi as [field [_ [Hn _]]]. rewrite Nat.sub_0_r in Hn.
  apply nth_error_Some. congruence.
Qed.

Lemma process_new_pn_follows pn update s :
  shows_side s ->
  pdb s = Some (map (fun r => nth (col_pn cfg) r "") filtered) ->
  lists_follow_side (List.length filtered) side
    (snd (process_new_pn py_float pn update s)).
Proof.
  intros Hshow Hdb. unfold process_new_pn.
  rewrite (bind_ok (entered _) _ s _ tt eq_refl).
  match goal with
  | |- context [bind ?m ?k ?s0] =>
      rewrite (bind_ok m k s0 s0 (map (fun r => nth (col_pn cfg) r "") filtered))
        by (unfold bind, gets, or_raise;
            replace (pdb s0) with (pdb s) by (now destruct s);
            now rewrite Hdb)
  end.
  apply show_matches_follows; [now destruct s|].
  unfold pn_matchlist.
  eapply Forall_impl; [|apply matchlist_in_range].
  intros r Hr. now rewrite length_map in Hr.
Qed.

Lemma process_new_com_follows com update s :
  shows_side s ->
  pdc s = Some (map (fun r => nth (col_com cfg) r "") filtered) ->
  lists_follow_side (List.length filtered) side
    (snd (process_new_com py_float com update s)).
Proof.
  intros Hshow Hdb. unfold process_new_com.
  rewrite (bind_ok (entered _) _ s _ tt eq_refl).
  match goal with
  | |- context [bind ?m ?k ?s0] =>
      rewrite (bind_ok m k s0 s0 (map (fun r => nth (col_com cfg) r "") filtered))
        by (unfold bind, gets, or_raise;
            replace (pdc s0) with (pdc s) by (now destruct s);
            now rewrite Hdb)
  end.
  apply show_matches_follows; [now destruct s|].
  unfold com_matchlist.
  eapply Forall_impl; [|apply matchlist_in_range].
  intros r Hr. now rewrite length_map in Hr.
Qed.

End MatchLists.

(** The state [update_table_for_selected_side] leaves: the table and the
    two pools made from the rows of the selected side. *)
Lemma update_table_for_selected_side_shows s header_row rest :
  all_components_data s = header_row :: rest ->
  let filtered :=
    filtered_data (csv_settings s) (build_side s) (header_row :: rest) in
  let s1 := snd (update_table_for_selected_side s) in
  shows_side (csv_settings s) (build_side s) header_row rest s1
  /\ pdb s1 = Some (map (fun r => nth (col_pn (csv_settings s)) r "") filtered)
  /\ pdc s1 = Some (map (fun r => nth (col_com (csv_settings s)) r "") filtered)
  /\ rowCount (table s1) = List.length filtered.
Proof.
  intros Hall. cbv zeta. unfold update_table_for_selected_side.
  rewrite (bind_ok (gets all_components_data) _ s s _ eq_refl), Hall.
  rewrite (bind_ok (gets csv_settings) _ s s _ eq_refl).
  rewrite (bind_ok (gets build_side) _ s s _ eq_refl).
  rewrite (bind_ok (modify _) _ s _ tt eq_refl).
  match goal with
  | |- context [bind (modify ?f) ?k ?s0] =>
      rewrite (bind_ok (modify f) k s0 _ tt eq_refl)
  end.
  match goal with
  | |- context [bind (modify ?f) ?k ?s0] =>
      rewrite (bind_ok (modify f) k s0 _ tt eq_refl)
  end.
  match goal with
  | |- context [recolourTable ?s0] => remember s0 as shown eqn:Hshown
  end.
  pose proof (recolourTable_core shown) as Hcore.
  remember (snd (recolourTable shown)) as s1 eqn:Hs1. clear Hs1.
  unfold same_on, table_core in Hcore.
  injection Hcore as Hcfg Hside _ Hpdb Hpdc _ _ _ Hrows Hcols.
  assert (Hcfg0 : csv_settings shown = csv_settings s) by (subst; now destruct s).
  assert (Hside0 : build_side shown = build_side s) by (subst; now destruct s).
  assert (Htable0 : table shown
                    = table_of header_row
                        (filtered_data (csv_settings s) (build_side s)
                           (header_row :: rest)))
    by (subst; now destruct s).
  assert (Hpdb0 : pdb shown
                  = Some (map (fun r => nth (col_pn (csv_settings s)) r "")
                            (filtered_data (csv_settings s) (build_side s)
                               (header_row :: rest))))
    by (subst; now destruct s).
  assert (Hpdc0 : pdc shown
                  = Some (map (fun r => nth (col_com (csv_settings s)) r "")
                            (filtered_data (csv_settings s) (build_side s)
                               (header_row :: rest))))
    by (subst; now destruct s).
  clear Hshown. rewrite Htable0 in Hrows, Hcols.
  split; [|split; [|split]].
  - split; [congruence|]. split; [congruence|].
    intros r c. now apply item_text_opt_core.
  - congruence.
  - congruence.
  - unfold rowCount.
    rewrite <- (length_map (fun tr => (texts tr, checked tr))), Hrows.
    unfold table_of. cbn [table_rows]. now rewrite !length_map.
Qed.

(** C10: after the table is filtered to the selected side, the two
    matching pools are the part-number and value fields of the filtered
    rows (header included), in table order; and for every token matched
    then, by part number or by value, every index in the two match lists
    is a row of the filtered table, and the list of the side that is not
    selected holds no component row (at most the header's index 0). *)
Theorem match_lists_follow_selected_side (py_float : string -> option float)
  (s : MeatBagWindow) (header_row : row) (rest : list row)
  (token : string) (update : bool) :
  all_components_data s = header_row :: rest ->
  let cfg := csv_settings s in
  let filtered := filtered_data cfg (build_side s) (all_components_data s) in
  let s1 := snd (update_table_for_selected_side s) in
  pdb s1 = Some (map (fun r => nth (col_pn cfg) r "") filtered)
  /\ pdc s1 = Some (map (fun r => nth (col_com cfg) r "") filtered)
  /\ rowCount (table s1) = List.length filtered
  /\ lists_follow_side (List.length filtered) (build_side s)
       (snd (process_new_pn py_float token update s1))
  /\ lists_follow_side (List.length filtered) (build_side s)
       (snd (process_new_com py_float token update s1)).
Proof.
  intros Hall. cbv zeta. rewrite Hall.
  destruct (update_table_for_selected_side_shows s header_row rest Hall)
    as [Hshow [Hpdb [Hpdc Hrows]]].
  split; [exact Hpdb|]. split; [exact Hpdc|]. split; [exact Hrows|]. split.
  - exact (process_new_pn_follows py_float (csv_settings s) (build_side s)
             header_row rest token update _ Hshow Hpdb).
  - exact (process_new_com_follows py_float (csv_settings s) (build_side s)
             header_row rest token update _ Hshow Hpdc).
Qed.

(** ** Side derivation ([isTopLayer]) and the rows of unknown layer *)

Lemma unknown_layer_not_kept cfg side a_row :
  unknown_layer cfg a_row -> keeps_row cfg side a_row = false.
Proof.
  intros [layer [Hp [Hl [Hntop Hnbot]]]].
  destruct (keeps_row cfg side a_row) eqn:Hk; [|reflexivity].
  apply keeps_row_spec in Hk.
  destruct Hk as [[Hneg _] | [layer' [_ [Hl' Hpre]]]]; [lia|].
  assert (layer' = layer) by congruence. subst layer'.
  unfold side_prefix in Hpre. destruct (side =? 0)%nat; contradiction.
Qed.

(** The match loop stops with an exception when it meets a row whose
    side [isTopLayer] cannot derive. *)
Lemma split_by_side_raises r ml : forall a b s e,
  In r ml ->
  layer_side (csv_settings s) (table s) r = Raise e ->
  exists e', fst (split_by_side ml a b s) = Raise e'.
Proof.
  induction ml as [|q ml IH]; intros a b s e Hin Hr; [contradiction|].
  cbn [split_by_side].
  rewrite (bind_ok (gets csv_settings) _ s s (csv_settings s) eq_refl).
  destruct (layer_side (csv_settings s) (table s) q) as [b0|e0] eqn:Hq.
  - assert (Hin' : In r ml).
    { destruct Hin as [-> | Hin]; [congruence | exact Hin]. }
    rewrite (bind_ok _ _ s s b0) by (now rewrite isTopLayer_run, Hq).
    destruct b0;
      rewrite (bind_ok (modify _) _ s _ tt eq_refl);
      match goal with
      | |- context [bind (item_text ?r0 ?c0) ?k ?s1] =>
          destruct (item_text_opt (table s1) r0 c0) as [des|] eqn:Hdes;
          [ rewrite (bind_ok (item_text r0 c0) k s1 s1 des)
              by (now rewrite item_text_run, Hdes);
            apply (IH _ _ s1 e Hin'); now destruct s
          | rewrite (bind_raise (item_text r0 c0) k s1 s1 AttributeError)
              by (now rewrite item_text_run, Hdes);
            now eexists ]
      end.
  - rewrite (bind_raise _ _ s s e0) by (now rewrite isTopLayer_run, Hq).
    now eexists.
Qed.

(** [recolourTable] catches the [ValueError] and paints the row light
    gray. *)
Lemma recolour_row_unknown_layer r s c :
  item_checked_opt (table s) r = Some c ->
  layer_side (csv_settings s) (table s) r = Raise ValueError ->
  recolour_row r s
  = (Ok tt, set_table (set_row_background r LightGray (table s)) s).
Proof.
  intros Hc Hl. unfold recolour_row.
  assert (Htry : forall h : W QColor,
             try_except
               (placed <- item_checked r ;;
                top <- isTopLayer r ;;
                ret (if top
                     then Rgba 255 0 0 (if placed then 5%Z else 120%Z)
                     else Rgba 0 0 255 (if placed then 5%Z else 120%Z)))
               is_ValueError h s = h s).
  { intros h. unfold try_except.
    rewrite (bind_ok (item_checked r) _ s s c)
      by (unfold item_checked, bind, gets, or_raise; now rewrite Hc).
    rewrite (bind_raise (isTopLayer r) _ s s ValueError)
      by (now rewrite isTopLayer_run, Hl).
    reflexivity. }
  unfold bind at 1. rewrite Htry. reflexivity.
Qed.

(** A file whose one component has the layer [Middle]. *)
Definition unknown_layer_file : list row :=
  [ ["Designator"; "Comment"; "Layer"; "Footprint"; "Center-X(mm)";
     "Center-Y(mm)"; "Rotation"; "Description"; "Part Number"];
    ["X1"; "osc"; "Middle"; "HC49"; "11"; "21"; "0"; "crystal"; "OSC-12345"] ].

Definition unknown_layer_loaded : MeatBagWindow :=
  snd (parseCSVFile unknown_layer_file bench).

(** C2, as stated, fails for the side filter: the file above loads
    without an error, its component is kept in [all_components_data],
    and both the top-side and the bottom-side table hold the header
    alone; no error is produced for the row. *)
Lemma unknown_layer_dropped_silently :
  fst (parseCSVFile unknown_layer_file bench) = Ok tt
  /\ all_components_data unknown_layer_loaded = unknown_layer_file
  /\ rowCount (table unknown_layer_loaded) = 1
  /\ fst (sideSelectionChanged 1 unknown_layer_loaded) = Ok tt
  /\ rowCount (table (snd (sideSelectionChanged 1 unknown_layer_loaded))) = 1
  /\ ~ (forall s i a_row,
           nth_error (all_components_data s) i = Some a_row ->
           1 <= i ->
           unknown_layer (csv_settings s) a_row ->
           exists e, fst (update_table_for_selected_side s) = Raise e).
Proof.
  assert (Hload : fst (parseCSVFile unknown_layer_file bench) = Ok tt)
    by (vm_compute; reflexivity).
  assert (Hall : all_components_data unknown_layer_loaded = unknown_layer_file)
    by (vm_compute; reflexivity).
  assert (Htop : rowCount (table unknown_layer_loaded) = 1)
    by (vm_compute; reflexivity).
  assert (Hswitch : fst (sideSelectionChanged 1 unknown_layer_loaded) = Ok tt)
    by (vm_compute; reflexivity).
  assert (Hbot : rowCount (table (snd (sideSelectionChanged 1 unknown_layer_loaded)))
                 = 1) by (vm_compute; reflexivity).
  assert (Hupd : fst (update_table_for_selected_side unknown_layer_loaded) = Ok tt)
    by (vm_compute; reflexivity).
  split; [exact Hload|]. split; [exact Hall|]. split; [exact Htop|].
  split; [exact Hswitch|]. split; [exact Hbot|].
  intros H.
  destruct (H unknown_layer_loaded 1
              ["X1"; "osc"; "Middle"; "HC49"; "11"; "21"; "0"; "crystal"; "OSC-12345"])
    as [e He].
  - rewrite Hall. reflexivity.
  - lia.
  - exists "Middle". repeat split.
    + vm_compute. discriminate.
    + intros Hp. apply startswith_spec in Hp. vm_compute in Hp. discriminate.
    + intros Hp. apply startswith_spec in Hp. vm_compute in Hp. discriminate.
  - rewrite Hupd in He. discriminate.
Qed.

(** C2, amended: [isTopLayer] returns top when no layer column is
    configured; otherwise it classifies the layer cell, in lower case, by
    its 3-character prefix, [top] or [bot], and raises [ValueError] for
    any other text; the match loop of [process_new_pn] and
    [process_new_com] ends with an exception when a matched row has no
    derivable side (it neither defaults the side nor skips the row);
    [recolourTable] catches the error and paints the row light gray; and
    the side filter of [update_table_for_selected_side] does not call
    [isTopLayer]: a row whose layer field matches neither prefix is left
    out of both side views. *)
Theorem side_derivation (s : MeatBagWindow) (r : nat) :
  let cfg := csv_settings s in
  ((col_layer cfg < 0)%Z -> isTopLayer r s = (Ok true, s))
  /\ (forall tb,
        (0 <= col_layer cfg)%Z ->
        item_text_opt (table s) r (Z.to_nat (col_layer cfg)) = Some tb ->
        (has_prefix (lower tb) "top" -> isTopLayer r s = (Ok true, s))
        /\ (has_prefix (lower tb) "bot" -> isTopLayer r s = (Ok false, s))
        /\ (~ has_prefix (lower tb) "top" -> ~ has_prefix (lower tb) "bot" ->
            isTopLayer r s = (Raise ValueError, s)))
  /\ (forall ml a b,
        In r ml -> isTopLayer r s = (Raise ValueError, s) ->
        exists e, fst (split_by_side ml a b s) = Raise e)
  /\ (forall c,
        item_checked_opt (table s) r = Some c ->
        isTopLayer r s = (Raise ValueError, s) ->
        recolour_row r s
        = (Ok tt, set_table (set_row_background r LightGray (table s)) s))
  /\ (forall all i a_row,
        nth_error all i = Some a_row ->
        unknown_layer cfg a_row ->
        ~ In i (side_view cfg 0 all) /\ ~ In i (side_view cfg 1 all)).
Proof.
  cbv zeta. rewrite isTopLayer_run. unfold layer_side.
  split; [|split; [|split; [|split]]].
  - intros Hneg. apply Z.ltb_lt in Hneg. now rewrite Hneg.
  - intros tb Hpos Htb.
    assert (Hnn : (col_layer (csv_settings s) <? 0)%Z = false)
      by (apply Z.ltb_ge; lia).
    rewrite Hnn, Htb. repeat split.
    + intros Htop. apply startswith_spec in Htop. now rewrite Htop.
    + intros Hbot.
      destruct (startswith (lower tb) "top") eqn:Htop.
      * apply startswith_spec in Htop.
        exfalso. exact (top_bot_exclusive _ Htop Hbot).
      * apply startswith_spec in Hbot. now rewrite Hbot.
    + intros Hntop Hnbot.
      destruct (startswith (lower tb) "top") eqn:Htop;
        [apply startswith_spec in Htop; contradiction|].
      destruct (startswith (lower tb) "bot") eqn:Hbot;
        [apply startswith_spec in Hbot; contradiction|].
      reflexivity.
  - intros ml a b Hin Hraise. injection Hraise as Hraise.
    now apply (split_by_side_raises r ml a b s ValueError).
  - intros c Hc Hraise. injection Hraise as Hraise.
    now apply (recolour_row_unknown_layer r s c).
  - intros all i a_row Hn Hunk.
    split; intros Hin; apply side_view_spec in Hin;
      destruct Hin as [a_row' [_ [Hn' Hk]]];
      assert (a_row' = a_row) by congruence; subst a_row';
      rewrite (unknown_layer_not_kept _ _ _ Hunk) in Hk; discriminate.
Qed.

(** ** Binary64 arithmetic of the coordinate mapping *)

Section Binary64.

Local Open Scope Z_scope.

Lemma digits2_pos_size p : digits2_pos p = Pos.size p.
Proof. induction p; simpl; congruence. Qed.

Lemma digits2_pos_bound p : Z.pos p < 2 ^ 53 -> Z.pos (digits2_pos p) <= 53.
Proof.
  intros H. rewrite digits2_pos_size.
  destruct (Z_le_gt_dec (Z.pos (Pos.size p)) 53) as [Hle|Hgt]; [exact Hle|].
  exfalso. pose proof (Pos.size_le p) as Hs.
  assert (H2 : 2 ^ 54 <= 2 ^ Z.pos (Pos.size p)) by (apply Z.pow_le_mono_r; lia).
  assert (H3 : Z.pos (2 ^ Pos.size p) = 2 ^ Z.pos (Pos.size p)) by apply Pos2Z.inj_pow.
  assert (H4 : Z.pos (2 ^ Pos.size p) <= Z.pos p~0) by exact Hs.
  rewrite H3 in H4. change (2 ^ 54) with (2 * 2 ^ 53) in H2. lia.
Qed.

Lemma iter_xO_digits p k :
  digits2_pos (Pos.iter xO p k) = (digits2_pos p + k)%positive.
Proof.
  induction k using Pos.peano_ind.
  - simpl. lia.
  - rewrite Pos.iter_succ. simpl. rewrite IHk. lia.
Qed.

Lemma iter_xO_value p k : Z.pos (Pos.iter xO p k) = Z.pos p * 2 ^ Z.pos k.
Proof.
  induction k using Pos.peano_ind.
  - simpl. lia.
  - rewrite Pos.iter_succ, Pos2Z.inj_xO, IHk, Pos2Z.inj_succ, Z.pow_succ_r by lia.
    lia.
Qed.

(** The binary64 number of a positive integer below [2^53]: the integer
    itself, its digits shifted up to fill the 53-bit mantissa. *)
Definition small_int_SF (p : positive) : spec_float :=
  let d := Z.pos (digits2_pos p) in
  match d - 53 with
  | Zneg k => S754_finite false (Pos.iter xO p k) (d - 53)
  | _ => S754_finite false p 0
  end.

Lemma binary_normalize_small p :
  Z.pos p < 2 ^ 53 ->
  binary_normalize prec emax (Z.pos p) 0 false = small_int_SF p
  /\ valid_binary (small_int_SF p) = true.
Proof.
  intros Hp. pose proof (digits2_pos_bound p Hp) as Hd.
  unfold binary_normalize, binary_round, small_int_SF.
  assert (Hfexp : fexp prec emax (Z.pos (digits2_pos p) + 0)
                  = Z.pos (digits2_pos p) - 53).
  { unfold fexp, SpecFloat.emin, prec, emax. lia. }
  rewrite Hfexp. unfold shl_align. rewrite Z.sub_0_r.
  destruct (Z.pos (digits2_pos p) - 53) as [|q|k] eqn:Hk; try lia.
  - unfold binary_round_aux, shr_fexp, Zdigits2.
    assert (Hf2 : fexp prec emax (Z.pos (digits2_pos p) + 0) - 0 = 0) by lia.
    rewrite Hf2. simpl shr.
    cbn [shr_m round_nearest_even loc_of_shr_record shr_record_of_loc].
    rewrite Hf2. simpl shr. cbn [shr_m].
    split; [reflexivity|].
    unfold valid_binary, bounded, canonical_mantissa.
    apply andb_true_intro. split; [apply Z.eqb_eq | apply Z.leb_le];
      unfold fexp, SpecFloat.emin, prec, emax in *; lia.
  - assert (Hdig : Z.pos (digits2_pos (Pos.iter xO p k)) = 53).
    { rewrite iter_xO_digits. lia. }
    assert (Hf2 : fexp prec emax (Z.pos (digits2_pos (Pos.iter xO p k)) + Z.neg k)
                  - Z.neg k = 0).
    { rewrite Hdig. unfold fexp, SpecFloat.emin, prec, emax. lia. }
    unfold binary_round_aux, shr_fexp, Zdigits2.
    rewrite Hf2. simpl shr.
    cbn [shr_m round_nearest_even loc_of_shr_record shr_record_of_loc].
    rewrite Hf2. simpl shr. cbn [shr_m].
    assert (Hle : (Z.neg k <=? emax - prec) = true)
      by (apply Z.leb_le; unfold emax, prec; lia).
    rewrite Hle. split; [reflexivity|].
    unfold valid_binary, bounded, canonical_mantissa. rewrite Hle, andb_true_r.
    apply Z.eqb_eq. rewrite Hdig. unfold fexp, SpecFloat.emin, prec, emax. lia.
Qed.

Lemma float_of_Z_SF p :
  Z.pos p < 2 ^ 53 -> Prim2SF (float_of_Z (Z.pos p)) = small_int_SF p.
Proof.
  intros Hp. destruct (binary_normalize_small p Hp) as [Hn Hv].
  unfold float_of_Z. rewrite Hn. now apply Prim2SF_SF2Prim.
Qed.

Lemma round_small_int p :
  Z.pos p < 2 ^ 53 ->
  match small_int_SF p with
  | S754_finite s m e => cond_Zopp s (round_half_even m e) = Z.pos p
  | _ => False
  end.
Proof.
  intros Hp. pose proof (digits2_pos_bound p Hp) as Hd. unfold small_int_SF.
  destruct (Z.pos (digits2_pos p) - 53) as [|q|k] eqn:Hk; try lia.
  - simpl. unfold round_half_even. simpl. lia.
  - simpl. unfold round_half_even.
    assert (Hneg : (0 <=? Z.neg k) = false) by (apply Z.leb_gt; lia).
    rewrite Hneg. cbv zeta. change (- Z.neg k) with (Z.pos k).
    rewrite iter_xO_value.
    assert (Hpow : 0 < 2 ^ Z.pos k) by (apply Z.pow_pos_nonneg; lia).
    rewrite Z.div_mul by lia. rewrite Z.mod_mul by lia.
    assert (Hc : (2 * 0 ?= 2 ^ Z.pos k) = Lt) by (apply Z.compare_lt_iff; lia).
    rewrite Hc. reflexivity.
Qed.

(** An image dimension survives [float] and [round]. *)
Lemma py_round_float_of_Z z : 0 <= z < 2 ^ 53 -> py_round (float_of_Z z) = Ok z.
Proof.
  intros [Hz0 Hz]. destruct z as [|p|p]; try lia.
  - reflexivity.
  - unfold py_round. rewrite (float_of_Z_SF p Hz).
    pose proof (round_small_int p Hz) as Hr.
    destruct (small_int_SF p); try contradiction. now rewrite Hr.
Qed.

(** A zero or a finite number. *)
Definition finite_SF (x : spec_float) : Prop :=
  match x with
  | S754_zero _ | S754_finite _ _ _ => True
  | _ => False
  end.

Lemma float_of_Z_finite z : 0 <= z < 2 ^ 53 -> finite_SF (Prim2SF (float_of_Z z)).
Proof.
  intros [Hz0 Hz]. destruct z as [|p|p]; try lia.
  - exact I.
  - rewrite (float_of_Z_SF p Hz). unfold small_int_SF.
    now destruct (Z.pos (digits2_pos p) - 53).
Qed.

Lemma Prim2SF_infinity : Prim2SF infinity = S754_infinity false.
Proof. reflexivity. Qed.

Lemma is_finite_SF f : is_finite f = true -> finite_SF (Prim2SF f).
Proof.
  unfold is_finite, is_nan, is_infinity.
  rewrite !FloatAxioms.eqb_spec, abs_spec, Prim2SF_infinity.
  destruct (Prim2SF f) as [s|s| |s m e]; simpl; try exact (fun _ => I).
  - destruct s; simpl; discriminate.
  - discriminate.
Qed.

Lemma finite_SF_not_infinity f : finite_SF (Prim2SF f) -> is_infinity f = false.
Proof.
  unfold is_infinity.
  rewrite FloatAxioms.eqb_spec, abs_spec, Prim2SF_infinity.
  destruct (Prim2SF f) as [s|s| |s m e]; simpl; try contradiction; reflexivity.
Qed.

Lemma py_float_of_int_small z :
  0 <= z < 2 ^ 53 -> py_float_of_int z = Ok (float_of_Z z).
Proof.
  intros Hz. unfold py_float_of_int.
  now rewrite (finite_SF_not_infinity _ (float_of_Z_finite z Hz)).
Qed.

Lemma zero_product_SF (scale : float) :
  is_finite scale = true -> exists s, Prim2SF (0 * scale)%float = S754_zero s.
Proof.
  intros Hf. apply is_finite_SF in Hf.
  rewrite mul_spec. change (Prim2SF 0%float) with (S754_zero false).
  destruct (Prim2SF scale); simpl in *; try contradiction; eexists; reflexivity.
Qed.

Lemma py_round_sub_zero (a z : float) (s : bool) :
  finite_SF (Prim2SF a) ->
  Prim2SF z = S754_zero s ->
  py_round (a - z)%float = py_round a.
Proof.
  intros Ha Hz. unfold py_round. rewrite sub_spec, Hz.
  destruct (Prim2SF a) as [sa|sa| |sa m e]; simpl in *; try contradiction.
  - destruct sa, s; reflexivity.
  - reflexivity.
Qed.

(** [n] is an integer nearest to the number [f] stands for: at most one
    half away, the distance being measured in units of [2^e]. *)
Definition nearest_integer (n : Z) (f : float) : Prop :=
  match Prim2SF f with
  | S754_zero _ => n = 0
  | S754_finite s m e =>
      if 0 <=? e then n = cond_Zopp s (Z.pos m * 2 ^ e)
      else 2 * Z.abs (n * 2 ^ (- e) - cond_Zopp s (Z.pos m)) <= 2 ^ (- e)
  | _ => False
  end.

Lemma round_half_even_nearest m e :
  if 0 <=? e then round_half_even m e = Z.pos m * 2 ^ e
  else 2 * Z.abs (round_half_even m e * 2 ^ (- e) - Z.pos m) <= 2 ^ (- e).
Proof.
  unfold round_half_even. destruct (0 <=? e) eqn:He; [reflexivity|].
  apply Z.leb_gt in He. cbv zeta.
  assert (Hd : 0 < 2 ^ (- e)) by (apply Z.pow_pos_nonneg; lia).
  pose proof (Z.div_mod (Z.pos m) (2 ^ (- e)) ltac:(lia)) as Hdm.
  pose proof (Z.mod_pos_bound (Z.pos m) (2 ^ (- e)) Hd) as Hr.
  set (D := 2 ^ (- e)) in *. set (q := Z.pos m / D) in *.
  set (r := Z.pos m mod D) in *.
  destruct (Z.compare_spec (2 * r) D) as [Hc|Hc|Hc];
    try destruct (Z.even q); lia.
Qed.

Lemma py_round_nearest f n : py_round f = Ok n -> nearest_integer n f.
Proof.
  unfold py_round, nearest_integer.
  destruct (Prim2SF f) as [s|s| |s m e]; try discriminate.
  - now intros [= <-].
  - intros [= <-]. pose proof (round_half_even_nearest m e) as H.
    destruct (0 <=? e); [now rewrite H|].
    generalize dependent (2 ^ (- e)). generalize (round_half_even m e).
    intros R D H. destruct s; unfold cond_Zopp; [|exact H].
    replace (- R * D - - Z.pos m) with (- (R * D - Z.pos m)) by ring.
    now rewrite Z.abs_opp.
Qed.

End Binary64.

(** ** The coordinate mapping ([draw_marker]) *)

(** The two pixel coordinates before rounding, as the specification
    words them: [px = board_x * (image_width / board_width)], mirrored to
    [image_width - px] when asked, and
    [py = image_height - board_y * (image_height / board_height)]. *)
Definition stated_px (x boardwidth : float) (W : Z) (mirror : bool) : float :=
  let px := (x * (float_of_Z W / boardwidth))%float in
  if mirror then (float_of_Z W - px)%float else px.

Definition stated_py (y boardheight : float) (H : Z) : float :=
  (float_of_Z H - y * (float_of_Z H / boardheight))%float.

(** An image dimension: not negative, and small enough for binary64 to
    hold it exactly (Qt's sizes are 32-bit integers). *)
Definition image_dimension (z : Z) : Prop := (0 <= z < 2 ^ 53)%Z.

Lemma marker_scales_nonzero boardwidth boardheight W H :
  image_dimension W -> image_dimension H ->
  (boardwidth =? 0)%float = false -> (boardheight =? 0)%float = false ->
  marker_scales W H boardwidth boardheight
  = Ok ((float_of_Z W / boardwidth)%float, (float_of_Z H / boardheight)%float).
Proof.
  intros HW HH Hbw Hbh. unfold marker_scales, py_truediv.
  now rewrite (py_float_of_int_small W HW), Hbw, (py_float_of_int_small H HH), Hbh.
Qed.

Lemma to_pixel_nonzero x y boardwidth boardheight W H mirror :
  image_dimension W -> image_dimension H ->
  (boardwidth =? 0)%float = false -> (boardheight =? 0)%float = false ->
  to_pixel x y boardwidth boardheight W H mirror =
  match py_round (stated_px x boardwidth W mirror) with
  | Raise e => Raise e
  | Ok x_int =>
      match py_round (stated_py y boardheight H) with
      | Raise e => Raise e
      | Ok y_int => Ok (x_int, y_int)
      end
  end.
Proof.
  intros HW HH Hbw Hbh. unfold to_pixel.
  rewrite (marker_scales_nonzero _ _ _ _ HW HH Hbw Hbh).
  unfold marker_pixel, stated_px, stated_py. now destruct mirror.
Qed.

Lemma to_pixel_origin boardwidth boardheight W H mirror :
  image_dimension W -> image_dimension H ->
  (boardwidth =? 0)%float = false -> (boardheight =? 0)%float = false ->
  is_finite (float_of_Z W / boardwidth)%float = true ->
  is_finite (float_of_Z H / boardheight)%float = true ->
  to_pixel 0 0 boardwidth boardheight W H mirror
  = Ok (if mirror then W else 0%Z, H).
Proof.
  intros HW HH Hbw Hbh Hfx Hfy.
  rewrite (to_pixel_nonzero _ _ _ _ _ _ _ HW HH Hbw Hbh).
  destruct (zero_product_SF _ Hfx) as [sx Hzx].
  destruct (zero_product_SF _ Hfy) as [sy Hzy].
  assert (Hpx : py_round (stated_px 0 boardwidth W mirror)
                = Ok (if mirror then W else 0%Z)).
  { unfold stated_px. destruct mirror.
    - rewrite (py_round_sub_zero _ _ sx (float_of_Z_finite W HW) Hzx).
      now apply py_round_float_of_Z.
    - unfold py_round. now rewrite Hzx. }
  assert (Hpy : py_round (stated_py 0 boardheight H) = Ok H).
  { unfold stated_py.
    rewrite (py_round_sub_zero _ _ sy (float_of_Z_finite H HH) Hzy).
    now apply py_round_float_of_Z. }
  now rewrite Hpx, Hpy.
Qed.

(** [draw_marker] paints its marker at the pixel the mapping returns. *)
Lemma draw_marker_to_pixel x y mirror W H x_int y_int p :
  original_base p = Some (W, H) ->
  to_pixel x y (pcbwidth p) (pcbheight p) W H mirror = Ok (x_int, y_int) ->
  draw_marker x y mirror p
  = (Ok tt,
     set_base_markers
       (base_markers p ++ [(x_int, y_int, marker_diameter p)])%list p).
Proof.
  intros Hbase Hpix. destruct p. simpl in Hbase, Hpix. subst.
  unfold to_pixel in Hpix.
  unfold draw_marker, bind, gets, or_raise, try_except, lift_result, ret,
    modify, raise. cbn [original_base pcbwidth pcbheight fst snd].
  destruct (marker_scales W H pcbwidth0 pcbheight0) as [[scale_x scale_y]|e];
    [|discriminate].
  cbn [fst snd]. rewrite Hpix. reflexivity.
Qed.

(** C6: with board dimensions that are not zero, the pixel mapping of
    [draw_marker] returns the two coordinates
    [px = x * (image_width / board_width)], replaced by
    [image_width - px] when [mirror] is set, and
    [py = image_height - y * (image_height / board_height)], each
    rounded to a nearest integer, and [draw_marker] paints its marker
    there; and when the two scale factors are
    finite numbers, the board origin goes to [(0, image_height)] without
    mirror and to [(image_width, image_height)] with it. *)
Theorem to_pixel_formula (x y boardwidth boardheight : float) (W H : Z)
  (mirror : bool) :
  image_dimension W -> image_dimension H ->
  (boardwidth =? 0)%float = false -> (boardheight =? 0)%float = false ->
  (forall x_int y_int,
      to_pixel x y boardwidth boardheight W H mirror = Ok (x_int, y_int) <->
      py_round (stated_px x boardwidth W mirror) = Ok x_int
      /\ py_round (stated_py y boardheight H) = Ok y_int)
  /\ (forall x_int y_int,
        to_pixel x y boardwidth boardheight W H mirror = Ok (x_int, y_int) ->
        nearest_integer x_int (stated_px x boardwidth W mirror)
        /\ nearest_integer y_int (stated_py y boardheight H))
  /\ (forall p x_int y_int,
        original_base p = Some (W, H) ->
        pcbwidth p = boardwidth -> pcbheight p = boardheight ->
        to_pixel x y boardwidth boardheight W H mirror = Ok (x_int, y_int) ->
        draw_marker x y mirror p
        = (Ok tt,
           set_base_markers
             (base_markers p ++ [(x_int, y_int, marker_diameter p)])%list p))
  /\ (is_finite (float_of_Z W / boardwidth)%float = true ->
      is_finite (float_of_Z H / boardheight)%float = true ->
      to_pixel 0 0 boardwidth boardheight W H false = Ok (0%Z, H)
      /\ to_pixel 0 0 boardwidth boardheight W H true = Ok (W, H)).
Proof.
  intros HW HH Hbw Hbh.
  assert (Hiff : forall x_int y_int,
             to_pixel x y boardwidth boardheight W H mirror = Ok (x_int, y_int) <->
             py_round (stated_px x boardwidth W mirror) = Ok x_int
             /\ py_round (stated_py y boardheight H) = Ok y_int).
  { intros x_int y_int. rewrite (to_pixel_nonzero _ _ _ _ _ _ _ HW HH Hbw Hbh).
    destruct (py_round (stated_px x boardwidth W mirror)) as [a|e];
      destruct (py_round (stated_py y boardheight H)) as [b|e'];
      split; try discriminate; try (intros [H1 H2]; discriminate).
    - now intros [= <- <-].
    - now intros [[= <-] [= <-]]. }
  split; [exact Hiff|]. split.
  - intros x_int y_int Hok. apply Hiff in Hok. destruct Hok as [Hx Hy].
    split; now apply py_round_nearest.
  - split.
    { intros p x_int y_int Hbase Hbw' Hbh' Hok. subst boardwidth boardheight.
      now apply (draw_marker_to_pixel x y mirror W H). }
    intros Hfx Hfy. split.
    + exact (to_pixel_origin boardwidth boardheight W H false HW HH Hbw Hbh Hfx Hfy).
    + exact (to_pixel_origin boardwidth boardheight W H true HW HH Hbw Hbh Hfx Hfy).
Qed.

Lemma to_pixel_formula_witness :
  to_pixel 0 0 100 50 800 600 false = Ok (0%Z, 600%Z)
  /\ to_pixel 0 0 100 50 800 600 true = Ok (800%Z, 600%Z).
Proof.
  apply (to_pixel_formula 12.5 20 100 50 800 600 true);
    try reflexivity; unfold image_dimension; lia.
Defined.

(** C7: the coordinate mapping ends with [ZeroDivisionError] exactly
    when the board width or the board height is zero, whatever the board
    point; [draw_marker] then shows its warning, raises the error again
    and paints no marker. *)
Theorem to_pixel_zero_division (x y boardwidth boardheight : float) (W H : Z)
  (mirror : bool) :
  image_dimension W -> image_dimension H ->
  (to_pixel x y boardwidth boardheight W H mirror = Raise ZeroDivisionError <->
   (boardwidth =? 0)%float = true \/ (boardheight =? 0)%float = true)
  /\ (forall p,
        original_base p = Some (W, H) ->
        pcbwidth p = boardwidth ->
        pcbheight p = boardheight ->
        (boardwidth =? 0)%float = true \/ (boardheight =? 0)%float = true ->
        draw_marker x y mirror p
        = (Raise ZeroDivisionError,
           set_division_warnings (S (division_warnings p)) p)).
Proof.
  intros HW HH.
  assert (Hscales : (boardwidth =? 0)%float = true \/ (boardheight =? 0)%float = true ->
                    marker_scales W H boardwidth boardheight = Raise ZeroDivisionError).
  { intros Hz. unfold marker_scales, py_truediv.
    rewrite (py_float_of_int_small W HW), (py_float_of_int_small H HH).
    destruct (boardwidth =? 0)%float; [reflexivity|].
    destruct Hz as [Hz | Hz]; [discriminate | now rewrite Hz]. }
  split; [split|].
  - destruct (boardwidth =? 0)%float eqn:Hbw; [now left|].
    destruct (boardheight =? 0)%float eqn:Hbh; [now right|].
    rewrite (to_pixel_nonzero _ _ _ _ _ _ _ HW HH Hbw Hbh).
    unfold py_round.
    destruct (Prim2SF (stated_px x boardwidth W mirror));
      destruct (Prim2SF (stated_py y boardheight H)); discriminate.
  - intros Hz. unfold to_pixel. now rewrite (Hscales Hz).
  - intros p Hbase Hbw Hbh Hz. destruct p. simpl in Hbase, Hbw, Hbh. subst.
    unfold draw_marker, bind, gets, or_raise, try_except, lift_result, ret,
      modify, raise. cbn [original_base pcbwidth pcbheight fst snd].
    rewrite (Hscales Hz). reflexivity.
Qed.

Lemma to_pixel_zero_division_witness :
  to_pixel 12.5 20 0 50 800 600 false = Raise ZeroDivisionError
  <-> (0 =? 0)%float = true \/ (50 =? 0)%float = true.
Proof.
  apply (to_pixel_zero_division 12.5 20 0 50 800 600 false);
    unfold image_dimension; lia.
Defined.

(** The bench with the Altium file grouped, before the table is shown. *)
Definition altium_loaded : MeatBagWindow :=
  set_all_components_data altium_grouped bench.

Lemma match_lists_follow_selected_side_witness :
  lists_follow_side 4 0
    (snd (process_new_pn decimal_float "RC0805-10K" true
            (snd (update_table_for_selected_side altium_loaded)))).
Proof.
  apply (match_lists_follow_selected_side decimal_float altium_loaded
           (hd [] altium_grouped) (tl altium_grouped) "RC0805-10K" true).
  reflexivity.
Defined.

Lemma advance_moves_forward_witness :
  placed_in (table (snd (timesUp decimal_float (snd (key_pressed " " resistors_scanned))))) 2
  /\ cur_placement (snd (timesUp decimal_float (snd (key_pressed " " resistors_scanned))))
     = Some 3.
Proof.
  destruct (advance_moves_forward decimal_float
              (snd (key_pressed " " resistors_scanned)) 2 [] [3])
    as [Hplaced _]; try (vm_compute; reflexivity); [constructor|].
  split; [exact Hplaced | vm_compute; reflexivity].
Defined.

(** * Further properties

    The rest of the source: the grouping step and the load, the table
    and its colours, the two match lists, the painter, the keys, the
    scans that match no row and the page of the web lookup. *)


Section GroupedTable.

Local Open Scope list_scope.

Variable cfg : MeatBagCSVSettings.

(** The rows the loop of the grouping step does not skip. *)
Definition long_enough (r : row) : bool :=
  negb (List.length r <=? col_com cfg)%nat.

Lemma groups_append_rows k r d :
  Permutation (flat_map snd (groups_append k r d)) (flat_map snd d ++ [r]).
Proof.
  induction d as [|[k0 rs] d IH]; simpl; [reflexivity|].
  destruct (String.eqb k k0); simpl.
  - rewrite <- !app_assoc. apply Permutation_app_head. apply Permutation_app_comm.
  - rewrite IH. now rewrite app_assoc.
Qed.

Lemma build_groups_rows rows : forall d g,
  build_groups cfg rows d = Ok g ->
  Permutation (flat_map snd g) (flat_map snd d ++ filter long_enough rows).
Proof.
  induction rows as [|r rows IH]; intros d g; simpl.
  - intros [= <-]. now rewrite app_nil_r.
  - unfold long_enough at 1.
    destruct (List.length r <=? col_com cfg)%nat; simpl; [apply IH|].
    destruct (layer_of cfg r) as [layer|e]; [|discriminate].
    intros H. rewrite (IH _ _ H), groups_append_rows, <- app_assoc. reflexivity.
Qed.

Lemma flat_map_permutation {A B : Type} (f g : A -> list B) (l : list A) :
  (forall x, Permutation (f x) (g x)) ->
  Permutation (flat_map f l) (flat_map g l).
Proof.
  intros H. induction l as [|x l IH]; simpl; [reflexivity|].
  now apply Permutation_app.
Qed.

Lemma grouped_rows_permutation d :
  Permutation (grouped_rows cfg d) (flat_map snd d).
Proof.
  unfold grouped_rows, sorted_groups.
  rewrite (flat_map_permutation _ snd) by (intros g; apply sort_by_permutation).
  apply Permutation_flat_map. apply sort_by_permutation.
Qed.

End GroupedTable.

(** X1: the grouping step keeps the header in place and returns, after
    it, the data rows that are longer than the value column, each once,
    in some order; shorter rows are left out. *)
Theorem group_components_by_value_keeps_rows (cfg : MeatBagCSVSettings)
  (header_row : row) (data_rows grouped : list row) :
  group_components_by_value cfg (header_row :: data_rows) = Ok grouped ->
  exists body,
    grouped = header_row :: body
    /\ Permutation body (filter (long_enough cfg) data_rows).
Proof.
  unfold group_components_by_value.
  destruct (build_groups cfg data_rows []) as [d|e] eqn:Hbuild; [|discriminate].
  intros [= <-]. eexists. split; [reflexivity|].
  fold (grouped_rows cfg d). rewrite grouped_rows_permutation.
  exact (build_groups_rows cfg data_rows [] d Hbuild).
Qed.

(** X2: the table the grouping step returns is the header followed by
    blocks of rows: the rows of a block share one value-and-layer key,
    no two blocks have the same key, the blocks stand in the order of
    their keys, and the rows of a block in the order of their
    designators. *)
Theorem group_components_by_value_blocks (cfg : MeatBagCSVSettings)
  (header_row : row) (data_rows grouped : list row) :
  group_components_by_value cfg (header_row :: data_rows) = Ok grouped ->
  exists blocks : value_groups,
    grouped = header_row :: flat_map snd blocks
    /\ NoDup (map fst blocks)
    /\ sorted_by fst blocks
    /\ Forall (fun b =>
                 snd b <> []
                 /\ Forall (fun r => row_key cfg r = Some (fst b)) (snd b)
                 /\ sorted_by (designator_key cfg) (snd b))
              blocks.
Proof.
  unfold group_components_by_value.
  destruct (build_groups cfg data_rows []) as [d|e] eqn:Hbuild; [|discriminate].
  intros [= <-].
  assert (Hd : groups_ok cfg d)
    by (eapply build_groups_ok; [apply groups_ok_nil | exact Hbuild]).
  destruct (sorted_blocks_ok cfg d Hd) as [Hnd Hall].
  exists (sorted_blocks cfg d). split; [|split; [exact Hnd|split]].
  - now rewrite sorted_blocks_rows.
  - unfold sorted_blocks, sorted_groups.
    rewrite <- (sort_by_map fst fst) by reflexivity. apply sort_by_sorted.
  - apply Forall_forall. intros b Hb.
    rewrite Forall_forall in Hall. destruct (Hall b Hb) as [Hne Hkeys].
    split; [exact Hne|]. split; [exact Hkeys|].
    unfold sorted_blocks in Hb. apply in_map_iff in Hb.
    destruct Hb as [g [<- _]]. simpl. apply sort_by_sorted.
Qed.

Lemma group_components_by_value_blocks_witness :
  exists blocks : value_groups,
    altium_grouped = hd [] altium_file :: flat_map snd blocks
    /\ NoDup (map fst blocks)
    /\ sorted_by fst blocks
    /\ Forall (fun b =>
                 snd b <> []
                 /\ Forall (fun r => row_key MeatBagCSVSettingsAltium r
                                     = Some (fst b)) (snd b)
                 /\ sorted_by (designator_key MeatBagCSVSettingsAltium) (snd b))
              blocks.
Proof.
  apply (group_components_by_value_blocks MeatBagCSVSettingsAltium
           (hd [] altium_file) (tl (accepted_rows altium_file))).
  reflexivity.
Defined.

Lemma group_components_by_value_keeps_rows_witness :
  exists body,
    altium_grouped = hd [] altium_file :: body
    /\ Permutation body
         (filter (long_enough MeatBagCSVSettingsAltium)
            (tl (accepted_rows altium_file))).
Proof.
  apply (group_components_by_value_keeps_rows MeatBagCSVSettingsAltium).
  reflexivity.
Defined.

(** A row the loop files but that has no field in the layer column. *)
Definition lacks_layer (cfg : MeatBagCSVSettings) (r : row) : bool :=
  long_enough cfg r && (0 <=? col_layer cfg)%Z
  && (Z.of_nat (List.length r) <=? col_layer cfg)%Z.

Lemma layer_of_lacks_layer cfg r :
  long_enough cfg r = true ->
  layer_of cfg r =
  if lacks_layer cfg r then Raise IndexError
  else Ok (if (0 <=? col_layer cfg)%Z
           then nth (Z.to_nat (col_layer cfg)) r "" else "top").
Proof.
  intros Hlong. unfold layer_of, lacks_layer. rewrite Hlong. cbn [andb].
  destruct (0 <=? col_layer cfg)%Z eqn:Hpos; [|reflexivity]. cbn [andb].
  apply Z.leb_le in Hpos.
  destruct (Z.of_nat (List.length r) <=? col_layer cfg)%Z eqn:Hlen.
  - apply Z.leb_le in Hlen.
    assert (Hn : nth_error r (Z.to_nat (col_layer cfg)) = None)
      by (apply nth_error_None; lia).
    now rewrite Hn.
  - apply Z.leb_gt in Hlen.
    rewrite (nth_error_nth' r "") by lia. reflexivity.
Qed.

Lemma build_groups_outcome cfg rows : forall d,
  match build_groups cfg rows d with
  | Ok _ => existsb (lacks_layer cfg) rows = false
  | Raise e => e = IndexError /\ existsb (lacks_layer cfg) rows = true
  end.
Proof.
  induction rows as [|r rows IH]; intros d; simpl; [reflexivity|].
  destruct (List.length r <=? col_com cfg)%nat eqn:Hlen.
  - assert (Hl : lacks_layer cfg r = false)
      by (unfold lacks_layer, long_enough; now rewrite Hlen).
    rewrite Hl. apply IH.
  - rewrite layer_of_lacks_layer by (unfold long_enough; now rewrite Hlen).
    destruct (lacks_layer cfg r); [now split | apply IH].
Qed.

(** X3: the grouping step ends with [IndexError] exactly when some data
    row is longer than the value column but has no field in the layer
    column of the profile; otherwise it returns a table.  The header row
    plays no part in it. *)
Theorem group_components_by_value_index_error (cfg : MeatBagCSVSettings)
  (header_row : row) (data_rows : list row) :
  (existsb (lacks_layer cfg) data_rows = true <->
   group_components_by_value cfg (header_row :: data_rows) = Raise IndexError)
  /\ (existsb (lacks_layer cfg) data_rows = false <->
      exists grouped,
        group_components_by_value cfg (header_row :: data_rows) = Ok grouped)
  /\ ((col_layer cfg < 0)%Z -> existsb (lacks_layer cfg) data_rows = false).
Proof.
  unfold group_components_by_value.
  pose proof (build_groups_outcome cfg data_rows []) as H.
  destruct (build_groups cfg data_rows []) as [d|e].
  - rewrite H. repeat split; try discriminate; try reflexivity.
    intros _. now eexists.
  - destruct H as [-> H]. rewrite H. repeat split; try discriminate.
    + intros [g Hg]. discriminate.
    + intros Hneg. exfalso. apply existsb_exists in H.
      destruct H as [r [_ Hr]]. unfold lacks_layer in Hr.
      apply andb_true_iff in Hr. destruct Hr as [Hr _].
      apply andb_true_iff in Hr. destruct Hr as [_ Hr].
      apply Z.leb_le in Hr. lia.
Qed.


(** ** The colours of the table ([recolourTable]) *)

(** The colour one round of the loop of [recolourTable] computes for a
    row: red for a top-side row, blue for a bottom-side row, with alpha
    [5] when the row is placed and [120] when it is not, light gray when
    [isTopLayer] raises [ValueError]; another exception is not caught. *)
Definition row_colour (cfg : MeatBagCSVSettings) (t : QTableWidget) (r : nat)
  : result QColor :=
  match item_checked_opt t r with
  | None => Raise AttributeError
  | Some placed =>
      let alpha := if placed then 5%Z else 120%Z in
      match layer_side cfg t r with
      | Ok true => Ok (Rgba 255 0 0 alpha)
      | Ok false => Ok (Rgba 0 0 255 alpha)
      | Raise ValueError => Ok LightGray
      | Raise e => Raise e
      end
  end.

Lemma recolour_row_run r s :
  recolour_row r s =
  match row_colour (csv_settings s) (table s) r with
  | Ok c => (Ok tt, set_table (set_row_background r c (table s)) s)
  | Raise e => (Raise e, s)
  end.
Proof.
  unfold recolour_row, row_colour, try_except, item_checked.
  unfold bind at 1. unfold bind at 1. unfold bind at 1.
  cbn [gets]. unfold or_raise.
  destruct (item_checked_opt (table s) r) as [placed|]; cbn [ret raise];
    [|reflexivity].
  unfold bind at 1. rewrite isTopLayer_run.
  destruct (layer_side (csv_settings s) (table s) r) as [[|]|e];
    try reflexivity.
  destruct e; reflexivity.
Qed.

(** The texts, the boxes and the number of columns of a table. *)
Definition table_content (t : QTableWidget) :=
  (map (fun tr => (texts tr, checked tr)) (table_rows t), columnCount t).

Lemma layer_side_content cfg t t' r :
  table_content t' = table_content t ->
  layer_side cfg t' r = layer_side cfg t r.
Proof.
  unfold table_content. intros [= Hrows Hcols]. unfold layer_side.
  now rewrite (item_text_opt_core t t' r _ Hrows Hcols).
Qed.

Lemma row_colour_content cfg t t' r :
  table_content t' = table_content t ->
  row_colour cfg t' r = row_colour cfg t r.
Proof.
  intros H. unfold row_colour. rewrite (layer_side_content cfg t t' r H).
  unfold table_content in H. injection H as Hrows Hcols.
  now rewrite (item_checked_opt_core t t' r Hrows Hcols).
Qed.

Lemma set_row_background_content r c t :
  table_content (set_row_background r c t) = table_content t.
Proof.
  unfold table_content, set_row_background. cbn [table_rows columnCount].
  now rewrite update_nth_map.
Qed.

(** The background of row [r]. *)
Definition row_background (t : QTableWidget) (r : nat) : option QColor :=
  match nth_error (table_rows t) r with
  | Some tr => background tr
  | None => None
  end.

Lemma row_background_set r c t p :
  row_background (set_row_background r c t) p =
  if (p =? r)%nat && (p <? rowCount t)%nat then Some c else row_background t p.
Proof.
  unfold row_background, set_row_background, rowCount. cbn [table_rows].
  rewrite nth_error_update_nth.
  destruct (p =? r)%nat; cbn [andb]; [|reflexivity].
  destruct (nth_error (table_rows t) p) as [tr|] eqn:Hp; cbn [option_map].
  - assert (Hlt : (p <? List.length (table_rows t))%nat = true).
    { apply Nat.ltb_lt. apply nth_error_Some. congruence. }
    now rewrite Hlt.
  - assert (Hge : (p <? List.length (table_rows t))%nat = false).
    { apply Nat.ltb_ge. now apply nth_error_None. }
    now rewrite Hge.
Qed.

Lemma rowCount_content t t' :
  table_content t' = table_content t -> rowCount t' = rowCount t.
Proof.
  unfold table_content, rowCount. intros [= Hrows _].
  rewrite <- (length_map (fun tr => (texts tr, checked tr)) (table_rows t')).
  now rewrite Hrows, length_map.
Qed.

Lemma columnCount_content t t' :
  table_content t' = table_content t -> columnCount t' = columnCount t.
Proof. unfold table_content. now intros [= _ H]. Qed.

Lemma item_checked_opt_content t t' r :
  table_content t' = table_content t ->
  item_checked_opt t' r = item_checked_opt t r.
Proof.
  unfold table_content. intros [= Hrows Hcols].
  now apply item_checked_opt_core.
Qed.

Lemma item_text_opt_content t t' r c :
  table_content t' = table_content t ->
  item_text_opt t' r c = item_text_opt t r c.
Proof.
  unfold table_content. intros [= Hrows Hcols].
  now apply item_text_opt_core.
Qed.

(** The loop of [recolourTable] over the rows [l]: it ends well exactly
    when a colour is computed for every row, and then each row of [l]
    that is in the table has its colour and the others keep theirs. *)
Lemma for_each_recolour_row l : forall s,
  let cfg := csv_settings s in
  let s' := snd (for_each l recolour_row s) in
  (fst (for_each l recolour_row s) = Ok tt <->
   forall r, In r l -> exists c, row_colour cfg (table s) r = Ok c)
  /\ (fst (for_each l recolour_row s) = Ok tt ->
      forall p,
        row_background (table s') p =
        if existsb (Nat.eqb p) l && (p <? rowCount (table s))%nat
        then match row_colour cfg (table s) p with
             | Ok c => Some c
             | Raise _ => None
             end
        else row_background (table s) p).
Proof.
  induction l as [|x l IH]; intros s; cbv zeta.
  - cbn [for_each ret fst snd existsb andb]. split; [|reflexivity].
    split; [intros _ r [] | reflexivity].
  - cbn [for_each]. unfold bind at 1 2 3. rewrite recolour_row_run.
    destruct (row_colour (csv_settings s) (table s) x) as [c|e] eqn:Hx.
    + set (s1 := set_table (set_row_background x c (table s)) s).
      assert (Hcfg : csv_settings s1 = csv_settings s) by (now destruct s).
      assert (Ht : table s1 = set_row_background x c (table s)) by (now destruct s).
      assert (Hcontent : table_content (table s1) = table_content (table s))
        by (rewrite Ht; apply set_row_background_content).
      destruct (IH s1) as [Hok Hbg]. cbv zeta in Hok, Hbg.
      rewrite Hcfg in Hok, Hbg.
      assert (Hcol : forall r, row_colour (csv_settings s) (table s1) r
                               = row_colour (csv_settings s) (table s) r)
        by (intros r; now apply row_colour_content).
      split.
      * rewrite Hok. split.
        -- intros H r [<- | Hr]; [now exists c|].
           rewrite <- Hcol. now apply H.
        -- intros H r Hr. rewrite Hcol. apply H. now right.
      * intros Hdone p. rewrite (Hbg Hdone p), Hcol.
        rewrite (rowCount_content _ _ Hcontent).
        rewrite Ht, row_background_set. cbn [existsb].
        destruct (existsb (Nat.eqb p) l) eqn:Hin; cbn [andb orb].
        -- rewrite orb_true_r. cbn [andb].
           destruct (p <? rowCount (table s))%nat eqn:Hlt; [reflexivity|].
           now rewrite andb_false_r.
        -- rewrite orb_false_r.
           destruct (p =? x)%nat eqn:Hpx; cbn [andb]; [|reflexivity].
           apply Nat.eqb_eq in Hpx. subst p.
           destruct (x <? rowCount (table s))%nat; [now rewrite Hx | reflexivity].
    + cbn [fst snd]. split; [|discriminate].
      split; [discriminate|].
      intros H. destruct (H x (or_introl eq_refl)) as [c Hc]. congruence.
Qed.

(** X4: [recolourTable] ends well exactly when every row from
    [row_start] on has a box and a layer cell, and then each of these
    rows is painted red (top side), blue (bottom side) or light gray
    (layer neither top nor bottom), faint when the row is placed; the
    rows before [row_start] keep their background, and the texts and the
    boxes stay as they were. *)
Theorem recolourTable_colours (s : MeatBagWindow) :
  let cfg := csv_settings s in
  let t := table s in
  let s' := snd (recolourTable s) in
  (fst (recolourTable s) = Ok tt <->
   forall r, row_start cfg <= r < rowCount t ->
             exists c, row_colour cfg t r = Ok c)
  /\ (fst (recolourTable s) = Ok tt ->
      forall r,
        (row_start cfg <= r < rowCount t ->
         exists c, row_colour cfg t r = Ok c
                   /\ row_background (table s') r = Some c)
        /\ (r < row_start cfg ->
            row_background (table s') r = row_background t r))
  /\ table_content (table s') = table_content t.
Proof.
  cbv zeta.
  assert (Hrun : recolourTable s
                 = for_each (seq (row_start (csv_settings s))
                               (rowCount (table s) - row_start (csv_settings s)))
                     recolour_row s) by reflexivity.
  set (l := seq (row_start (csv_settings s))
              (rowCount (table s) - row_start (csv_settings s))) in *.
  assert (Hl : forall r, In r l <->
                         row_start (csv_settings s) <= r < rowCount (table s)).
  { intros r. unfold l. rewrite in_seq. lia. }
  destruct (for_each_recolour_row l s) as [Hok Hbg]. cbv zeta in Hok, Hbg.
  rewrite Hrun. split; [|split].
  - rewrite Hok. split; intros H r Hr; apply H; now apply Hl.
  - intros Hdone r. specialize (Hbg Hdone r). split.
    + intros Hr. destruct (proj1 Hok Hdone r (proj2 (Hl r) Hr)) as [c Hc].
      exists c. split; [exact Hc|]. rewrite Hbg, Hc.
      assert (Hin : existsb (Nat.eqb r) l = true).
      { apply existsb_exists. exists r. split; [now apply Hl | apply Nat.eqb_refl]. }
      assert (Hlt : (r <? rowCount (table s))%nat = true) by (apply Nat.ltb_lt; lia).
      now rewrite Hin, Hlt.
    + intros Hr. rewrite Hbg.
      assert (Hin : existsb (Nat.eqb r) l = false).
      { destruct (existsb (Nat.eqb r) l) eqn:E; [|reflexivity].
        apply existsb_exists in E. destruct E as [x [Hx Hrx]].
        apply Nat.eqb_eq in Hrx. subst x. apply Hl in Hx. lia. }
      now rewrite Hin.
  - rewrite <- Hrun. pose proof (recolourTable_core s) as Hcore.
    unfold same_on, table_core in Hcore. unfold table_content.
    injection Hcore as _ _ _ _ _ _ _ _ Hrows Hcols. now rewrite Hrows, Hcols.
Qed.

(** ** The table of the selected side *)

Lemma item_checked_opt_table_of header_row filtered r :
  r < List.length filtered ->
  item_checked_opt (table_of header_row filtered) r = Some false.
Proof.
  intros Hr. unfold item_checked_opt, table_of. cbn [columnCount table_rows].
  rewrite Nat.add_1_r. cbn [Nat.eqb]. unfold row in *. rewrite nth_error_map.
  destruct (nth_error filtered r) eqn:Hn; [reflexivity|].
  apply nth_error_None in Hn. lia.
Qed.

(** X5: after [update_table_for_selected_side] (a side selection or a
    load) the table has one row per row of [filtered_data] and one
    column more than the header has fields; the cell in column [c] of a
    row shows the row's field [c], or [???] when the row is shorter than
    that, the last column holds the boxes, and every box is unchecked:
    the placed marks of the table shown before are gone. *)
Theorem update_table_for_selected_side_contents (s : MeatBagWindow)
  (header_row : row) (rest : list row) :
  all_components_data s = header_row :: rest ->
  let filtered := filtered_data (csv_settings s) (build_side s) (header_row :: rest) in
  let t := table (snd (update_table_for_selected_side s)) in
  rowCount t = List.length filtered
  /\ columnCount t = List.length header_row + 1
  /\ (forall r a_row c,
        nth_error filtered r = Some a_row ->
        c < List.length header_row ->
        item_text_opt t r c = Some (nth c a_row "???"))
  /\ (forall r, r < List.length filtered ->
                item_text_opt t r (List.length header_row) = Some ""
                /\ item_checked_opt t r = Some false).
Proof.
  intros Hall. cbv zeta.
  destruct (update_table_for_selected_side_shows s header_row rest Hall)
    as [[_ [_ Htext]] [_ [_ Hrows]]].
  assert (Hcontent :
            table_content (table (snd (update_table_for_selected_side s)))
            = table_content
                (table_of header_row
                   (filtered_data (csv_settings s) (build_side s)
                      (header_row :: rest)))).
  { unfold update_table_for_selected_side.
    rewrite (bind_ok (gets all_components_data) _ s s _ eq_refl), Hall.
    rewrite (bind_ok (gets csv_settings) _ s s _ eq_refl).
    rewrite (bind_ok (gets build_side) _ s s _ eq_refl).
    rewrite (bind_ok (modify _) _ s _ tt eq_refl).
    match goal with
    | |- context [bind (modify ?f) ?k ?s0] =>
        rewrite (bind_ok (modify f) k s0 _ tt eq_refl)
    end.
    match goal with
    | |- context [bind (modify ?f) ?k ?s0] =>
        rewrite (bind_ok (modify f) k s0 _ tt eq_refl)
    end.
    match goal with
    | |- context [recolourTable ?s0] =>
        pose proof (recolourTable_core s0) as Hcore;
        assert (Ht0 : table s0
                      = table_of header_row
                          (filtered_data (csv_settings s) (build_side s)
                             (header_row :: rest))) by (now destruct s);
        remember s0 as shown eqn:Hshown; clear Hshown
    end.
    unfold same_on, table_core in Hcore.
    injection Hcore as _ _ _ _ _ _ _ _ Hr Hc.
    unfold table_content. now rewrite Hr, Hc, Ht0. }
  split; [exact Hrows|]. split.
  { now rewrite (columnCount_content _ _ Hcontent). }
  split.
  - intros r a_row c Hr Hc. rewrite Htext.
    rewrite (item_text_opt_table_of _ _ _ _ _ Hr).
    assert (H1 : (List.length header_row + 1 <=? c)%nat = false)
      by (apply Nat.leb_gt; lia).
    assert (H2 : (S c =? List.length header_row + 1)%nat = false)
      by (apply Nat.eqb_neq; lia).
    now rewrite H1, H2.
  - intros r Hr. split.
    + rewrite Htext.
      destruct (nth_error (filtered_data (csv_settings s) (build_side s)
                             (header_row :: rest)) r) as [a_row|] eqn:Hn;
        [|apply nth_error_None in Hn; lia].
      rewrite (item_text_opt_table_of _ _ _ _ _ Hn).
      assert (H1 : (List.length header_row + 1 <=? List.length header_row)%nat = false)
        by (apply Nat.leb_gt; lia).
      assert (H2 : (S (List.length header_row) =? List.length header_row + 1)%nat = true)
        by (apply Nat.eqb_eq; lia).
      now rewrite H1, H2.
    + rewrite (item_checked_opt_content _ _ r Hcontent).
      now apply item_checked_opt_table_of.
Qed.

Lemma update_table_for_selected_side_contents_witness :
  rowCount (table (snd (update_table_for_selected_side altium_loaded))) = 4.
Proof.
  apply (update_table_for_selected_side_contents altium_loaded
           (hd [] altium_grouped) (tl altium_grouped)).
  reflexivity.
Defined.




(** ** The two match lists ([process_new_pn], [process_new_com]) *)

(** Row [r] of the table is on the top side ([top = true]) or on the
    bottom side ([top = false]), as [isTopLayer] tells. *)
Definition on_side (cfg : MeatBagCSVSettings) (t : QTableWidget) (top : bool)
  (r : nat) : bool :=
  match layer_side cfg t r with
  | Ok b => Bool.eqb b top
  | Raise _ => false
  end.

(** The text [topDesStr] or [botDesStr] grows by for the rows [l]. *)
Fixpoint designators (cfg : MeatBagCSVSettings) (t : QTableWidget)
  (l : list nat) : string :=
  match l with
  | [] => ""
  | r :: l' =>
      match item_text_opt t r (col_des cfg) with
      | Some des => des ++ ", " ++ designators cfg t l'
      | None => designators cfg t l'
      end
  end.

Lemma string_app_assoc (a b c : string) : (a ++ b) ++ c = a ++ b ++ c.
Proof. induction a as [|x a IH]; simpl; [reflexivity | now rewrite IH]. Qed.

Lemma string_app_nil_r (a : string) : a ++ "" = a.
Proof. induction a as [|x a IH]; simpl; [reflexivity | now rewrite IH]. Qed.

(** The loop over the match list, when it ends well: every row has a
    side, the rows go to the two lists in order, and the two strings
    grow by the designators. *)
Lemma split_by_side_run ml : forall a b s a' b' s' tops bots,
  topDesList s = Some tops ->
  botDesList s = Some bots ->
  split_by_side ml a b s = (Ok (a', b'), s') ->
  let cfg := csv_settings s in
  let t := table s in
  s' = set_botDesList (Some (bots ++ filter (on_side cfg t false) ml)%list)
         (set_topDesList (Some (tops ++ filter (on_side cfg t true) ml)%list) s)
  /\ a' = a ++ designators cfg t (filter (on_side cfg t true) ml)
  /\ b' = b ++ designators cfg t (filter (on_side cfg t false) ml)
  /\ Forall (fun r => exists top, layer_side cfg t r = Ok top) ml.
Proof.
  induction ml as [|r ml IH]; intros a b s a' b' s' tops bots Htops Hbots; cbv zeta.
  - cbn [split_by_side ret filter designators]. intros [= <- <- <-].
    rewrite !app_nil_r, !string_app_nil_r.
    destruct s. simpl in Htops, Hbots. subst. repeat split. constructor.
  - cbn [split_by_side].
    rewrite (bind_ok (gets csv_settings) _ s s (csv_settings s) eq_refl).
    destruct (layer_side (csv_settings s) (table s) r) as [top|e] eqn:Hside;
      [|rewrite (bind_raise _ _ s s e) by (now rewrite isTopLayer_run, Hside);
        discriminate].
    rewrite (bind_ok _ _ s s top) by (now rewrite isTopLayer_run, Hside).
    assert (Hon : forall x, on_side (csv_settings s) (table s) x r = Bool.eqb top x)
      by (intros x; unfold on_side; now rewrite Hside).
    cbn [filter]. rewrite !Hon.
    destruct top; cbn [Bool.eqb];
      rewrite (bind_ok (modify _) _ s _ tt eq_refl);
      match goal with
      | |- bind (item_text ?r0 ?c0) ?k ?s1 = _ -> _ =>
          assert (Hcfg : csv_settings s1 = csv_settings s) by (now destruct s);
          assert (Ht : table s1 = table s) by (now destruct s);
          destruct (item_text_opt (table s) r0 c0) as [des|] eqn:Hdes;
          [ rewrite (bind_ok (item_text r0 c0) k s1 s1 des)
              by (now rewrite item_text_run, Ht, Hdes)
          | rewrite (bind_raise (item_text r0 c0) k s1 s1 AttributeError)
              by (now rewrite item_text_run, Ht, Hdes); discriminate ];
          intros Hrun;
          eapply IH in Hrun;
          [ cbv zeta in Hrun; rewrite Hcfg, Ht in Hrun;
            destruct Hrun as [Hs' [Ha' [Hb' Hall]]]
          | destruct s; simpl in *; subst; reflexivity
          | destruct s; simpl in *; subst; reflexivity ]
      end.
    + split; [|split; [|split]].
      * rewrite Hs'. destruct s. simpl in *. subst.
        now rewrite <- !app_assoc.
      * rewrite Ha'. cbn [designators]. rewrite Hdes.
        now rewrite !string_app_assoc.
      * exact Hb'.
      * constructor; [now exists true | exact Hall].
    + split; [|split; [|split]].
      * rewrite Hs'. destruct s. simpl in *. subst.
        now rewrite <- !app_assoc.
      * exact Ha'.
      * rewrite Hb'. cbn [designators]. rewrite Hdes.
        now rewrite !string_app_assoc.
      * constructor; [now exists false | exact Hall].
Qed.

Lemma filter_two_sides {A : Type} (p q : A -> bool) (l : list A) :
  Forall (fun x => q x = negb (p x)) l ->
  Permutation (filter p l ++ filter q l)%list l.
Proof.
  induction 1 as [|x l Hx Hl IH]; simpl; [reflexivity|].
  rewrite Hx. destruct (p x); simpl.
  - now constructor.
  - rewrite <- Permutation_middle. now constructor.
Qed.

Section MatcherLists.

Variable py_float : string -> option float.

(** The state the two matchers leave when they are asked not to move
    the cursor, for the match list [ml]. *)
Definition matched (ml : list nat) (s : MeatBagWindow) : MeatBagWindow :=
  let cfg := csv_settings s in
  let t := table s in
  let tops := filter (on_side cfg t true) ml in
  let bots := filter (on_side cfg t false) ml in
  set_botDes (designators cfg t bots)
    (set_topDes (designators cfg t tops)
       (set_botDesList (Some bots) (set_topDesList (Some tops) s))).

Lemma show_matches_run ml s s' :
  show_matches py_float ml false s = (Ok tt, s') ->
  s' = matched ml s
  /\ Forall (fun r => exists top, layer_side (csv_settings s) (table s) r = Ok top) ml.
Proof.
  unfold show_matches.
  rewrite (bind_ok (modify _) _ s _ tt eq_refl).
  match goal with
  | |- context [bind (modify ?f) ?k ?s0] =>
      rewrite (bind_ok (modify f) k s0 _ tt eq_refl)
  end.
  match goal with
  | |- bind (split_by_side ml ?a ?b) ?k ?s0 = _ -> _ =>
      destruct (split_by_side ml a b s0) as [[[a' b']|e] s1] eqn:Hsplit;
      [ rewrite (bind_ok _ k s0 s1 (a', b') Hsplit)
      | rewrite (bind_raise _ k s0 s1 e Hsplit); discriminate ]
  end.
  apply (split_by_side_run ml _ _ _ _ _ _ [] []) in Hsplit;
    [|now destruct s|now destruct s].
  cbv zeta in Hsplit. destruct Hsplit as [Hs1 [Ha' [Hb' Hall]]].
  unfold bind, modify, ret. cbn [fst snd]. intros [= <-].
  split.
  - rewrite Hs1, Ha', Hb'. unfold matched. destruct s. reflexivity.
  - eapply Forall_impl; [|exact Hall]. intros r [top Hr]. exists top.
    rewrite <- Hr. now destruct s.
Qed.

(** X7: when [process_new_pn] (or [process_new_com]) ends well without
    moving the cursor, every row of the match list has a side, the rows
    on the top side are [topDesList] and the rows on the bottom side are
    [botDesList], each in table order, so every matched row is in
    exactly one of the two lists; the two text fields show the
    designators of the two lists, each followed by a comma and a space;
    nothing else changes but the trace. *)
Theorem matcher_lists (s s' : MeatBagWindow) (db : list string) (token : string) :
  let cfg := csv_settings s in
  let t := table s in
  (pdb s = Some db ->
   process_new_pn py_float token false s = (Ok tt, s') ->
   let ml := pn_matchlist db token in
   s' = matched ml (set_calls (calls s ++ [process_new_pn_called token])%list s)
   /\ Permutation (filter (on_side cfg t true) ml ++ filter (on_side cfg t false) ml)%list ml)
  /\ (pdc s = Some db ->
      process_new_com py_float token false s = (Ok tt, s') ->
      let ml := com_matchlist db token in
      s' = matched ml (set_calls (calls s ++ [process_new_com_called token])%list s)
      /\ Permutation (filter (on_side cfg t true) ml ++ filter (on_side cfg t false) ml)%list ml).
Proof.
  cbv zeta.
  assert (Hperm : forall ml,
             Forall (fun r => exists top,
                         layer_side (csv_settings s) (table s) r = Ok top) ml ->
             Permutation (filter (on_side (csv_settings s) (table s) true) ml
                          ++ filter (on_side (csv_settings s) (table s) false) ml)%list
                         ml).
  { intros ml Hall. apply filter_two_sides.
    eapply Forall_impl; [|exact Hall]. intros r [top Hr].
    unfold on_side. rewrite Hr. now destruct top. }
  split; intros Hdb Hrun.
  - unfold process_new_pn in Hrun.
    rewrite (bind_ok (entered _) _ s _ tt eq_refl) in Hrun.
    match type of Hrun with
    | bind ?m ?k ?s0 = _ =>
        rewrite (bind_ok m k s0 s0 db) in Hrun
          by (unfold bind, gets, or_raise;
              replace (pdb s0) with (pdb s) by (now destruct s);
              now rewrite Hdb)
    end.
    apply show_matches_run in Hrun. destruct Hrun as [Hs' Hall].
    split; [exact Hs'|]. apply Hperm.
    eapply Forall_impl; [|exact Hall]. intros r [top Hr]. exists top.
    rewrite <- Hr. now destruct s.
  - unfold process_new_com in Hrun.
    rewrite (bind_ok (entered _) _ s _ tt eq_refl) in Hrun.
    match type of Hrun with
    | bind ?m ?k ?s0 = _ =>
        rewrite (bind_ok m k s0 s0 db) in Hrun
          by (unfold bind, gets, or_raise;
              replace (pdc s0) with (pdc s) by (now destruct s);
              now rewrite Hdb)
    end.
    apply show_matches_run in Hrun. destruct Hrun as [Hs' Hall].
    split; [exact Hs'|]. apply Hperm.
    eapply Forall_impl; [|exact Hall]. intros r [top Hr]. exists top.
    rewrite <- Hr. now destruct s.
Qed.

End MatcherLists.

(** The Altium file on the bench, the top side shown. *)
Definition altium_shown : MeatBagWindow :=
  snd (update_table_for_selected_side altium_loaded).

Lemma matcher_lists_witness :
  topDesList (snd (process_new_pn decimal_float "RC0805-10K" false altium_shown))
  = Some [2; 3].
Proof.
  destruct (proj1 (matcher_lists decimal_float altium_shown
                     (snd (process_new_pn decimal_float "RC0805-10K" false
                             altium_shown))
                     ["Manufacturer Part Number 1"; "CC0805-100N"; "RC0805-10K";
                      "RC0805-10K"]
                     "RC0805-10K"))
    as [Hs' _]; [vm_compute; reflexivity | vm_compute; reflexivity |].
  rewrite Hs'. vm_compute. reflexivity.
Defined.

(** ** Tokens at the edge of the matching rule *)

Lemma str_in_refl a : str_in a a = true.
Proof.
  apply str_in_spec. exists "", "". simpl. now rewrite string_app_nil_r.
Qed.

Lemma str_in_empty b : str_in "" b = true.
Proof. destruct b; reflexivity. Qed.

Lemma indices_where_all {A : Type} (test : A -> bool) (l : list A) : forall k,
  (forall x, In x l -> test x = true) ->
  indices_where test k l = seq k (List.length l).
Proof.
  induction l as [|x l IH]; intros k H; simpl; [reflexivity|].
  rewrite (H x (or_introl eq_refl)). f_equal. apply IH.
  intros y Hy. apply H. now right.
Qed.

Lemma matchlist_self gate db i token :
  nth_error db i = Some token ->
  In i (indices_where (fun field => field_matches gate field token) 0 db).
Proof.
  intros Hi. apply indices_where_spec. exists token. rewrite Nat.sub_0_r.
  split; [lia|]. split; [exact Hi|]. unfold field_matches.
  rewrite str_in_refl. apply orb_true_r.
Qed.

(** X8: the empty token matches every row of the pool, the header's
    included, and a token matches every row whose field is the token
    itself, whatever its length. *)
Theorem matcher_edge_tokens (db : list string) :
  pn_matchlist db "" = seq 0 (List.length db)
  /\ com_matchlist db "" = seq 0 (List.length db)
  /\ (forall i token,
        nth_error db i = Some token ->
        In i (pn_matchlist db token) /\ In i (com_matchlist db token)).
Proof.
  unfold pn_matchlist, com_matchlist. split; [|split].
  - apply indices_where_all. intros x _. unfold field_matches.
    rewrite str_in_empty. apply orb_true_r.
  - apply indices_where_all. intros x _. unfold field_matches.
    rewrite str_in_empty. apply orb_true_r.
  - intros i token Hi. split; now apply matchlist_self.
Qed.

(** ** A click on a row ([table_cellClicked]) *)

Section CellClicked.

Variable py_float : string -> option float.

(** With [update_placement=True] the matchers do what they do without
    it, and then look for the next placement. *)
Lemma show_matches_update ml s :
  show_matches py_float ml true s =
  bind (show_matches py_float ml false) (fun _ => find_next_placement py_float) s.
Proof.
  unfold show_matches, bind, modify, ret.
  match goal with
  | |- context [split_by_side ml ?a ?b ?s0] =>
      destruct (split_by_side ml a b s0) as [[strs|e] s1]; reflexivity
  end.
Qed.

Lemma highlight_component_at_row_frame r :
  transforms (same_on (fun s => (csv_settings s, table s, pdb s, pdc s)))
    (highlight_component_at_row py_float r).
Proof. unfold highlight_component_at_row. transforms_with same_on_atom. Qed.

Lemma matched_row_listed ml s s' r :
  show_matches py_float ml true s = (Ok tt, s') ->
  In r ml ->
  exists tops bots,
    topDesList s' = Some tops /\ botDesList s' = Some bots
    /\ (In r tops \/ In r bots).
Proof.
  rewrite show_matches_update. intros Hrun Hin.
  destruct (show_matches py_float ml false s) as [[[]|e] s1] eqn:Hfirst;
    [|rewrite (bind_raise _ _ s s1 e Hfirst) in Hrun; discriminate].
  rewrite (bind_ok _ _ s s1 tt Hfirst) in Hrun.
  apply show_matches_run in Hfirst. destruct Hfirst as [Hs1 Hall].
  pose proof (find_next_placement_lists py_float s1) as Hlists.
  rewrite Hrun in Hlists. unfold same_on in Hlists. cbn [snd] in Hlists.
  injection Hlists as Htop Hbot.
  exists (filter (on_side (csv_settings s) (table s) true) ml),
         (filter (on_side (csv_settings s) (table s) false) ml).
  split; [rewrite Htop, Hs1; now destruct s|].
  split; [rewrite Hbot, Hs1; now destruct s|].
  rewrite Forall_forall in Hall. destruct (Hall r Hin) as [top Hr].
  rewrite !filter_In. unfold on_side. rewrite Hr.
  destruct top; [left | right]; split; auto.
Qed.

(** X9: a click on a component row whose part-number and value cells
    are what the two pools hold for that row, when it ends well, leaves
    the clicked row in one of the two match lists: the row always
    matches its own part number, or its own value when the part number
    is empty. *)
Theorem clicked_row_is_matched (s s' : MeatBagWindow) (r c : nat)
  (db dc : list string) :
  row_start (csv_settings s) <= r ->
  pdb s = Some db ->
  pdc s = Some dc ->
  nth_error db r = item_text_opt (table s) r (col_pn (csv_settings s)) ->
  nth_error dc r = item_text_opt (table s) r (col_com (csv_settings s)) ->
  table_cellClicked py_float r c s = (Ok tt, s') ->
  exists tops bots,
    topDesList s' = Some tops /\ botDesList s' = Some bots
    /\ (In r tops \/ In r bots).
Proof.
  intros Hrow Hdb Hdc Hpn Hcom. unfold table_cellClicked.
  rewrite (bind_ok (gets csv_settings) _ s s _ eq_refl).
  assert (Hlt : (r <? row_start (csv_settings s))%nat = false)
    by (apply Nat.ltb_ge; lia).
  rewrite Hlt.
  pose proof (highlight_component_at_row_frame r s) as Hframe.
  destruct (highlight_component_at_row py_float r s) as [[[]|e] s1] eqn:Hhl;
    [|rewrite (bind_raise _ _ s s1 e Hhl); discriminate].
  rewrite (bind_ok _ _ s s1 tt Hhl).
  unfold same_on in Hframe. cbn [snd] in Hframe.
  injection Hframe as Hcfg1 Ht1 Hdb1 Hdc1.
  destruct (item_text_opt (table s) r (col_pn (csv_settings s))) as [pn|] eqn:Hpntxt;
    [|rewrite (bind_raise (item_text r _) _ s1 s1 AttributeError)
        by (now rewrite item_text_run, Ht1, Hpntxt); discriminate].
  rewrite (bind_ok (item_text r _) _ s1 s1 pn)
    by (now rewrite item_text_run, Ht1, Hpntxt).
  destruct (item_text_opt (table s) r (col_com (csv_settings s))) as [com|] eqn:Hcomtxt;
    [|rewrite (bind_raise (item_text r _) _ s1 s1 AttributeError)
        by (now rewrite item_text_run, Ht1, Hcomtxt); discriminate].
  rewrite (bind_ok (item_text r _) _ s1 s1 com)
    by (now rewrite item_text_run, Ht1, Hcomtxt).
  destruct (String.eqb pn "").
  - unfold process_new_com.
    rewrite (bind_ok (entered _) _ s1 _ tt eq_refl).
    match goal with
    | |- bind ?m ?k ?s0 = _ -> _ =>
        rewrite (bind_ok m k s0 s0 dc)
          by (unfold bind, gets, or_raise;
              replace (pdc s0) with (pdc s1) by (now destruct s1);
              now rewrite Hdc1, Hdc)
    end.
    intros Hrun. apply (matched_row_listed _ _ _ r) in Hrun; [exact Hrun|].
    now apply matchlist_self.
  - unfold process_new_pn.
    rewrite (bind_ok (entered _) _ s1 _ tt eq_refl).
    match goal with
    | |- bind ?m ?k ?s0 = _ -> _ =>
        rewrite (bind_ok m k s0 s0 db)
          by (unfold bind, gets, or_raise;
              replace (pdb s0) with (pdb s1) by (now destruct s1);
              now rewrite Hdb1, Hdb)
    end.
    intros Hrun. apply (matched_row_listed _ _ _ r) in Hrun; [exact Hrun|].
    now apply matchlist_self.
Qed.

End CellClicked.

Lemma clicked_row_is_matched_witness :
  exists tops bots,
    topDesList (snd (table_cellClicked decimal_float 2 0 altium_shown)) = Some tops
    /\ botDesList (snd (table_cellClicked decimal_float 2 0 altium_shown)) = Some bots
    /\ (In 2 tops \/ In 2 bots).
Proof.
  apply (clicked_row_is_matched decimal_float altium_shown _ 2 0
           ["Manufacturer Part Number 1"; "CC0805-100N"; "RC0805-10K"; "RC0805-10K"]
           ["Comment"; "100n"; "10k"; "10k"]);
    try (vm_compute; reflexivity).
  vm_compute. lia.
Defined.


(** ** The painter ([PCBPainter]) *)

(** X10: the two marker-size actions keep the diameter from going below
    zero; the decrement refuses (returns [False] and changes nothing)
    exactly when the diameter is below ten; a decrement undoes an
    increment, and an increment undoes a decrement that was not
    refused. *)
Theorem marker_diameter_steps (p : PCBPainter) :
  (0 <= marker_diameter p)%Z ->
  let up := snd (marker_diameter_increment p) in
  let down := snd (marker_diameter_decrement p) in
  (0 <= marker_diameter up)%Z
  /\ (0 <= marker_diameter down)%Z
  /\ marker_diameter_decrement up = (Ok true, p)
  /\ ((marker_diameter p < 10)%Z -> marker_diameter_decrement p = (Ok false, p))
  /\ ((10 <= marker_diameter p)%Z ->
      fst (marker_diameter_decrement p) = Ok true
      /\ marker_diameter down = (marker_diameter p - 10)%Z
      /\ marker_diameter_increment down = (Ok true, p)).
Proof.
  intros Hd. cbv zeta. destruct p as [d bw bh sz ob sc ms shown warn].
  simpl in Hd.
  unfold marker_diameter_increment, marker_diameter_decrement, bind, gets,
    modify, ret, set_marker_diameter. cbn [marker_diameter fst snd].
  assert (Hup : (d + 10 <? 10)%Z = false) by (apply Z.ltb_ge; lia).
  rewrite Hup. cbn [fst snd marker_diameter pcbwidth pcbheight image_size
                      original_base display_scale base_markers displayed
                      division_warnings].
  replace (d + 10 - 10)%Z with d by lia.
  destruct (d <? 10)%Z eqn:Hlt; cbn [fst snd marker_diameter pcbwidth pcbheight
                                        image_size original_base display_scale
                                        base_markers displayed division_warnings].
  - apply Z.ltb_lt in Hlt. repeat split; try lia.
  - apply Z.ltb_ge in Hlt. replace (d - 10 + 10)%Z with d by lia.
    repeat split; try lia.
Qed.

Lemma marker_diameter_steps_witness :
  marker_diameter_decrement (snd (marker_diameter_increment PCBPainter_init))
  = (Ok true, PCBPainter_init).
Proof.
  destruct (marker_diameter_steps PCBPainter_init) as [_ [_ [H _]]];
    [simpl; lia | exact H].
Defined.

Lemma py_min3_at_most (a b c : float) :
  (c <? c)%float = false -> (c <? py_min3 a b c)%float = false.
Proof.
  intros Hc. unfold py_min3.
  destruct (c <? (if (b <? a)%float then b else a))%float eqn:Hm;
    [exact Hc | exact Hm].
Qed.

Lemma reload_base_run p :
  reload_base p =
  let p1 := set_base_markers [] (set_original_base (Some (image_size p)) p) in
  if (fst (image_size p) =? 0)%Z || (snd (image_size p) =? 0)%Z
  then (Raise ZeroDivisionError, p1)
  else (Ok tt,
        set_display_scale
          (py_min3 (float_of_Z 800 / float_of_Z (fst (image_size p)))
                   (float_of_Z 600 / float_of_Z (snd (image_size p))) 1)
          p1).
Proof.
  destruct p as [d bw bh [W H] ob sc ms shown warn].
  unfold reload_base, bind, gets, modify, lift_result, py_int_truediv.
  cbn [image_size fst snd].
  destruct (W =? 0)%Z; [reflexivity|].
  destruct (H =? 0)%Z; reflexivity.
Qed.

(** X11: [reload_base] takes the image for the new base and wipes the
    markers in every case; it ends with [ZeroDivisionError] exactly when
    the image is null (its width or its height is zero) and otherwise
    sets a display scale that is never greater than one. *)
Theorem reload_base_outcome (p : PCBPainter) :
  let W := fst (image_size p) in
  let H := snd (image_size p) in
  let p' := snd (reload_base p) in
  original_base p' = Some (image_size p)
  /\ base_markers p' = []
  /\ (fst (reload_base p) = Raise ZeroDivisionError <-> W = 0%Z \/ H = 0%Z)
  /\ (fst (reload_base p) = Ok tt <-> W <> 0%Z /\ H <> 0%Z)
  /\ (fst (reload_base p) = Ok tt ->
      display_scale p'
      = py_min3 (float_of_Z 800 / float_of_Z W) (float_of_Z 600 / float_of_Z H) 1
      /\ (1 <? display_scale p')%float = false).
Proof.
  cbv zeta. rewrite reload_base_run. cbv zeta.
  destruct (Z.eqb_spec (fst (image_size p)) 0) as [HW|HW];
    [|destruct (Z.eqb_spec (snd (image_size p)) 0) as [HH|HH]]; cbn [orb fst snd].
  - split; [now destruct p|]. split; [now destruct p|].
    split; [tauto|]. split; [|discriminate].
    split; [discriminate | tauto].
  - split; [now destruct p|]. split; [now destruct p|].
    split; [tauto|]. split; [|discriminate].
    split; [discriminate | tauto].
  - split; [now destruct p|]. split; [now destruct p|].
    split; [split; [discriminate | tauto]|].
    split; [tauto|]. intros _.
    split; [now destruct p|].
    replace (display_scale _) with
      (py_min3 (float_of_Z 800 / float_of_Z (fst (image_size p)))
               (float_of_Z 600 / float_of_Z (snd (image_size p))) 1)
      by (now destruct p).
    now apply py_min3_at_most.
Qed.

Lemma marker_scales_zero_board W H boardwidth boardheight :
  image_dimension W -> image_dimension H ->
  (boardwidth =? 0)%float = true \/ (boardheight =? 0)%float = true ->
  marker_scales W H boardwidth boardheight = Raise ZeroDivisionError.
Proof.
  intros HW HH Hz. unfold marker_scales, py_truediv.
  rewrite (py_float_of_int_small W HW), (py_float_of_int_small H HH).
  destruct (boardwidth =? 0)%float; [reflexivity|].
  destruct Hz as [Hz | Hz]; [discriminate | now rewrite Hz].
Qed.

Lemma draw_marker_zero_board x y mirror W H p :
  original_base p = Some (W, H) ->
  image_dimension W -> image_dimension H ->
  (pcbwidth p =? 0)%float = true \/ (pcbheight p =? 0)%float = true ->
  draw_marker x y mirror p
  = (Raise ZeroDivisionError, set_division_warnings (S (division_warnings p)) p).
Proof.
  intros Hbase HW HH Hz. destruct p as [d bw bh sz ob sc ms shown warn].
  simpl in Hbase, Hz. subst.
  unfold draw_marker, bind, gets, or_raise, try_except, lift_result, ret,
    modify, raise. cbn [original_base pcbwidth pcbheight fst snd].
  rewrite (marker_scales_zero_board W H _ _ HW HH Hz). reflexivity.
Qed.

(** The painter after [reload_base] has run well. *)
Definition reloaded (p : PCBPainter) : PCBPainter :=
  set_display_scale
    (py_min3 (float_of_Z 800 / float_of_Z (fst (image_size p)))
             (float_of_Z 600 / float_of_Z (snd (image_size p))) 1)
    (set_base_markers [] (set_original_base (Some (image_size p)) p)).

Lemma reload_base_ok p :
  fst (image_size p) <> 0%Z -> snd (image_size p) <> 0%Z ->
  reload_base p = (Ok tt, reloaded p).
Proof.
  intros HW HH. rewrite reload_base_run. cbv zeta.
  apply Z.eqb_neq in HW, HH. now rewrite HW, HH.
Qed.

Lemma xy_to_draw_ok x y mirror p W H x_int y_int :
  image_size p = (W, H) ->
  W <> 0%Z -> H <> 0%Z ->
  to_pixel x y (pcbwidth p) (pcbheight p) W H mirror = Ok (x_int, y_int) ->
  xy_to_draw x y mirror p
  = (Ok tt,
     set_displayed [(x_int, y_int, marker_diameter p)]
       (set_base_markers [(x_int, y_int, marker_diameter p)] (reloaded p))).
Proof.
  intros Hsize HW HH Hpix. unfold xy_to_draw.
  rewrite (bind_ok reload_base _ p (reloaded p) tt)
    by (apply reload_base_ok; now rewrite Hsize).
  rewrite (bind_ok (draw_marker x y mirror) _ (reloaded p)
             (set_base_markers [(x_int, y_int, marker_diameter p)] (reloaded p)) tt).
  - unfold redraw, bind, gets, modify. now destruct p.
  - rewrite (draw_marker_to_pixel x y mirror W H x_int y_int).
    + now destruct p.
    + destruct p as [d bw bh sz ob sc ms shown warn]. simpl in Hsize. now subst.
    + now destruct p.
Qed.

(** X12: [xy_to_draw], when the image is not null and the mapping gives
    a pixel, leaves exactly one marker on the base and on the display:
    the new one, at that pixel and with the current diameter; the
    markers drawn before are gone, and the board size, the diameter and
    the count of warnings stay. *)
Theorem xy_to_draw_single_marker (x y : float) (mirror : bool) (p : PCBPainter)
  (W H x_int y_int : Z) :
  image_size p = (W, H) ->
  W <> 0%Z -> H <> 0%Z ->
  to_pixel x y (pcbwidth p) (pcbheight p) W H mirror = Ok (x_int, y_int) ->
  let p' := snd (xy_to_draw x y mirror p) in
  fst (xy_to_draw x y mirror p) = Ok tt
  /\ base_markers p' = [(x_int, y_int, marker_diameter p)]
  /\ displayed p' = [(x_int, y_int, marker_diameter p)]
  /\ original_base p' = Some (W, H)
  /\ (marker_diameter p', pcbwidth p', pcbheight p', division_warnings p')
     = (marker_diameter p, pcbwidth p, pcbheight p, division_warnings p).
Proof.
  intros Hsize HW HH Hpix. cbv zeta.
  rewrite (xy_to_draw_ok x y mirror p W H x_int y_int Hsize HW HH Hpix).
  destruct p as [d bw bh sz ob sc ms shown warn]. simpl in Hsize. subst.
  repeat split.
Qed.

Lemma xy_to_draw_single_marker_witness :
  displayed (snd (xy_to_draw 0 0 true (pcbpainter bench))) = [(800, 600, 20)%Z].
Proof.
  apply (xy_to_draw_single_marker 0 0 true (pcbpainter bench) 800 600 800 600);
    try reflexivity; discriminate.
Defined.

(** X13: [xy_to_draw] ends with [ZeroDivisionError] when the image is
    null, and then no warning is shown; with an image and a board width
    or height of zero it ends with the same error after one warning.  In
    both cases the display keeps the markers it showed before. *)
Theorem xy_to_draw_zero_division (x y : float) (mirror : bool) (p : PCBPainter) :
  let W := fst (image_size p) in
  let H := snd (image_size p) in
  (W = 0%Z \/ H = 0%Z ->
   xy_to_draw x y mirror p
   = (Raise ZeroDivisionError,
      set_base_markers [] (set_original_base (Some (image_size p)) p)))
  /\ (W <> 0%Z -> H <> 0%Z -> image_dimension W -> image_dimension H ->
      (pcbwidth p =? 0)%float = true \/ (pcbheight p =? 0)%float = true ->
      xy_to_draw x y mirror p
      = (Raise ZeroDivisionError,
         set_division_warnings (S (division_warnings p)) (reloaded p)))
  /\ (displayed (snd (xy_to_draw x y mirror p)) = displayed p
      \/ fst (xy_to_draw x y mirror p) = Ok tt).
Proof.
  cbv zeta.
  assert (Hnull : fst (image_size p) = 0%Z \/ snd (image_size p) = 0%Z ->
                  xy_to_draw x y mirror p
                  = (Raise ZeroDivisionError,
                     set_base_markers []
                       (set_original_base (Some (image_size p)) p))).
  { intros Hz. unfold xy_to_draw.
    apply bind_raise. rewrite reload_base_run. cbv zeta.
    assert (Hb : ((fst (image_size p) =? 0)%Z || (snd (image_size p) =? 0)%Z) = true).
    { apply orb_true_iff. destruct Hz as [Hz | Hz]; [left | right];
        now apply Z.eqb_eq. }
    now rewrite Hb. }
  split; [exact Hnull|]. split.
  - intros HW HH HdW HdH Hz. unfold xy_to_draw.
    rewrite (bind_ok reload_base _ p (reloaded p) tt) by now apply reload_base_ok.
    apply bind_raise.
    replace (division_warnings p) with (division_warnings (reloaded p))
      by (now destruct p).
    apply (draw_marker_zero_board x y mirror (fst (image_size p))
             (snd (image_size p))); try assumption.
    destruct p as [d bw bh [W H] ob sc ms shown warn]. reflexivity.
  - destruct (Z.eq_dec (fst (image_size p)) 0) as [HW|HW];
      [|destruct (Z.eq_dec (snd (image_size p)) 0) as [HH|HH]].
    + left. rewrite (Hnull (or_introl HW)). now destruct p.
    + left. rewrite (Hnull (or_intror HH)). now destruct p.
    + assert (Hdraw : transforms (same_on displayed) (draw_marker x y mirror)).
      { unfold draw_marker. transforms_with same_on_atom. }
      unfold xy_to_draw.
      rewrite (bind_ok reload_base _ p (reloaded p) tt) by now apply reload_base_ok.
      specialize (Hdraw (reloaded p)). unfold same_on in Hdraw.
      destruct (draw_marker x y mirror (reloaded p)) as [[[]|e] p1] eqn:Hd.
      * right. rewrite (bind_ok _ _ _ p1 tt Hd). reflexivity.
      * left. rewrite (bind_raise _ _ _ p1 e Hd). cbn [snd] in *.
        rewrite Hdraw. now destruct p.
Qed.

(** ** Highlighting a row ([highlight_component_at_row]) *)

Lemma try_except_handled {S A : Type} (m h : M S A) (handles : exn -> bool)
  (s : S) (e : exn) :
  handles e = true ->
  (forall s1, fst (h s1) <> Raise e) ->
  fst (try_except m handles h s) <> Raise e.
Proof.
  intros He Hh. unfold try_except.
  destruct (m s) as [[a|e'] s1]; cbn [fst]; [discriminate|].
  destruct (handles e') eqn:He'; [apply Hh|].
  cbn [fst]. intros [= ->]. congruence.
Qed.

Section Highlight.

Variable py_float : string -> option float.

(** [float(self.table.item(r, c).text())] as a function of the table. *)
Definition cell_float (t : QTableWidget) (r c : nat) : result float :=
  match item_text_opt t r c with
  | None => Raise AttributeError
  | Some txt =>
      match py_float txt with
      | Some f => Ok f
      | None => Raise ValueError
      end
  end.

Lemma item_float_run r c s :
  item_float py_float r c s = (cell_float (table s) r c, s).
Proof.
  unfold item_float, cell_float.
  destruct (item_text_opt (table s) r c) as [txt|] eqn:Htxt.
  - rewrite (bind_ok (item_text r c) _ s s txt)
      by (now rewrite item_text_run, Htxt).
    now destruct (py_float txt).
  - now rewrite (bind_raise (item_text r c) _ s s AttributeError)
      by (now rewrite item_text_run, Htxt).
Qed.





End Highlight.


(** ** Keys before the first scan *)

(** What a load leaves alone. *)
Definition load_frame (s : MeatBagWindow) :=
  (csv_settings s, build_side s, topDesList s, botDesList s, cur_placement s,
   drawing_all_same_value s, last_keys s, scanLine s, place s, topDes s,
   botDes s, pcbpainter s, calls s).

Lemma parseCSVFile_frame file_rows :
  transforms (same_on load_frame) (parseCSVFile file_rows).
Proof.
  unfold parseCSVFile, update_table_for_selected_side, recolourTable.
  transforms_with same_on_atom.
Qed.

Section BeforeFirstScan.

Variable py_float : string -> option float.
Variable py_int : string -> option Z.
Variable urlopen_error : string -> option exn.

Lemma find_next_placement_no_list s :
  active_list s = None ->
  find_next_placement py_float s
  = (Raise AttributeError,
     set_cur_placement None
       (set_calls (calls s ++ [find_next_placement_called])%list s)).
Proof.
  intros Hnone. unfold find_next_placement.
  rewrite (bind_ok (entered _) _ s _ tt eq_refl).
  rewrite (bind_ok (modify _) _ _ _ tt eq_refl).
  apply bind_raise. rewrite active_parts_run.
  match goal with
  | |- context [active_list ?s0] =>
      replace (active_list s0) with (active_list s) by (now destruct s)
  end.
  now rewrite Hnone.
Qed.

Lemma update_placement_no_list s :
  cur_placement s = None -> topDesList s = None ->
  fst (update_placement py_float s) = Raise AttributeError.
Proof.
  intros Hcur Htop. destruct s. simpl in Hcur, Htop. subst. reflexivity.
Qed.

(** X15: [__init__] does not create the two match lists, and a load does
    not either; so between a load and the first scan or click the space
    key ends with [AttributeError] in [find_next_placement], and so do
    the keys [+] and [-] in [update_placement], after they have changed
    the marker diameter. *)
Theorem keys_before_first_scan (cfg : MeatBagCSVSettings) (file_rows : list row) :
  let s := snd (parseCSVFile file_rows (MeatBagWindow_init cfg)) in
  let plus := process_new_scan py_float py_int urlopen_error "+" s in
  let minus := process_new_scan py_float py_int urlopen_error "-" s in
  topDesList s = None /\ botDesList s = None
  /\ fst (timesUp py_float (snd (key_pressed " " s))) = Raise AttributeError
  /\ fst plus = Raise AttributeError
  /\ marker_diameter (pcbpainter (snd plus)) = 30%Z
  /\ fst minus = Raise AttributeError
  /\ marker_diameter (pcbpainter (snd minus)) = 10%Z.
Proof.
  cbv zeta.
  pose proof (parseCSVFile_frame file_rows (MeatBagWindow_init cfg)) as Hframe.
  unfold same_on, load_frame in Hframe.
  remember (snd (parseCSVFile file_rows (MeatBagWindow_init cfg))) as s eqn:Hs.
  clear Hs. cbn [MeatBagWindow_init csv_settings build_side topDesList botDesList
                 cur_placement drawing_all_same_value last_keys scanLine place
                 topDes botDes pcbpainter calls] in Hframe.
  injection Hframe as _ Hside Htop Hbot Hcur _ Hkeys _ _ _ _ Hpaint _.
  split; [exact Htop|]. split; [exact Hbot|].
  assert (Hact : active_list s = None).
  { unfold active_list. rewrite Htop, Hbot. now destruct (build_side s =? 0)%nat. }
  split; [|split; [|split; [|split]]].
  - unfold timesUp, key_pressed.
    set (s1 := snd (modify (fun w => set_last_keys (last_keys w ++ " ") w) s)).
    assert (Hk1 : last_keys s1 = " ") by (unfold s1; cbn [modify snd];
                                          destruct s; simpl in *; now subst).
    assert (Hc1 : cur_placement s1 = None) by (unfold s1; now destruct s).
    assert (Ha1 : active_list s1 = None) by (unfold s1; rewrite <- Hact; now destruct s).
    rewrite (bind_ok (gets last_keys) _ s1 s1 " ") by (unfold gets; now rewrite Hk1).
    rewrite (bind_ok (modify _) _ _ _ tt eq_refl).
    cbn [String.eqb Ascii.eqb Bool.eqb andb].
    match goal with
    | |- context [bind (gets cur_placement) ?k ?s2] =>
        rewrite (bind_ok (gets cur_placement) k s2 s2 None)
          by (unfold gets; replace (cur_placement s2) with (cur_placement s1)
                by (now destruct s1); now rewrite Hc1)
    end.
    cbn [mark_placed]. rewrite (bind_ok (ret tt) _ _ _ tt eq_refl).
    match goal with
    | |- context [bind (find_next_placement py_float) ?k ?s2] =>
        rewrite (bind_raise (find_next_placement py_float) k s2 _ AttributeError
                   (find_next_placement_no_list s2
                      ltac:(rewrite <- Ha1; now destruct s1)))
    end.
    reflexivity.
  - rewrite process_plus_scan. apply update_placement_no_list; now destruct s.
  - rewrite process_plus_scan.
    pose proof (update_placement_marker_diameter py_float) as Hd.
    match goal with
    | |- context [update_placement py_float ?s0] => specialize (Hd s0)
    end.
    unfold same_on in Hd. rewrite Hd. destruct s. simpl in *. now subst.
  - destruct s. simpl in *. subst. reflexivity.
  - destruct s. simpl in *. subst. reflexivity.
Qed.

End BeforeFirstScan.

(** ** Splitting a string at a separator *)

Lemma string_length_app (a b : string) :
  String.length (a ++ b) = String.length a + String.length b.
Proof. induction a as [|c a IH]; simpl; [reflexivity | now rewrite IH]. Qed.

Lemma slice_from_app (a b : string) : slice_from (String.length a) (a ++ b) = b.
Proof. induction a as [|c a IH]; simpl; [now destruct b | exact IH]. Qed.

Lemma startswith_app (p rest : string) : startswith (p ++ rest) p = true.
Proof. apply startswith_spec. now exists rest. Qed.

(** A separator that is not in the string is not found. *)
Lemma split_first_none sep s :
  str_in sep s = false -> split_first sep s = None.
Proof.
  induction s as [|c s IH]; simpl.
  - rewrite orb_false_r. intros ->. reflexivity.
  - intros H. apply orb_false_iff in H. destruct H as [Hs Hin].
    rewrite Hs, (IH Hin). reflexivity.
Qed.

(** The separator found is the leftmost one. *)
Lemma split_first_some sep s a b :
  split_first sep s = Some (a, b) ->
  s = a ++ sep ++ b /\ (a = "" \/ str_in sep s = true).
Proof.
  revert a b. induction s as [|c s IH]; intros a b; simpl.
  - destruct (startswith "" sep) eqn:Hs; [|discriminate].
    intros [= <- <-]. destruct sep; [|discriminate]. now split; [|left].
  - destruct (startswith (String c s) sep) eqn:Hs.
    + intros [= <- <-]. split; [|now left].
      apply startswith_spec in Hs. destruct Hs as [rest Hrest].
      rewrite Hrest. simpl. now rewrite slice_from_app.
    + destruct (split_first sep s) as [[a0 b0]|] eqn:Hrec; [|discriminate].
      intros [= <- <-]. destruct (IH a0 b0 eq_refl) as [Heq Hin].
      split; [simpl; now rewrite <- Heq|]. right.
      assert (Hs' : str_in sep s = true).
      { apply str_in_spec. exists a0, b0. exact Heq. }
      rewrite Hs'. apply orb_true_r.
Qed.

(** [sep] occurs in [a ++ rest] at a place inside [a]. *)
Fixpoint starts_inside (sep a rest : string) : bool :=
  match a with
  | EmptyString => false
  | String c a' => startswith (a ++ rest) sep || starts_inside sep a' rest
  end.

Lemma split_first_prefix sep s :
  startswith s sep = true ->
  split_first sep s = Some ("", slice_from (String.length sep) s).
Proof. intros H. destruct s; simpl; now rewrite H. Qed.

Lemma split_first_at sep a b :
  starts_inside sep a (sep ++ b) = false ->
  split_first sep (a ++ sep ++ b) = Some (a, b).
Proof.
  induction a as [|c a IH].
  - intros _. cbn [append].
    rewrite (split_first_prefix sep (sep ++ b) (startswith_app sep b)).
    now rewrite slice_from_app.
  - simpl. intros H. apply orb_false_iff in H. destruct H as [Hs Hin].
    rewrite Hs, (IH Hin). reflexivity.
Qed.

(** The text before the leftmost separator begins with [a] when no
    separator begins inside [a]. *)
Lemma split_item0_keeps sep a rest :
  starts_inside sep a rest = false ->
  exists rest', split_item0 sep (a ++ rest) = a ++ rest'
                /\ exists tail, rest = rest' ++ tail.
Proof.
  unfold split_item0. induction a as [|c a IH]; simpl.
  - intros _. destruct (split_first sep rest) as [[before after]|] eqn:Hsplit.
    + exists before. split; [reflexivity|].
      apply split_first_some in Hsplit. destruct Hsplit as [Heq _].
      now exists (sep ++ after).
    + exists rest. split; [reflexivity|]. exists "". now rewrite string_app_nil_r.
  - intros H. apply orb_false_iff in H. destruct H as [Hs Hin].
    rewrite Hs. destruct (IH Hin) as [rest' [Heq Htail]].
    destruct (split_first sep (a ++ rest)) as [[before after]|].
    + exists rest'. split; [now rewrite Heq | exact Htail].
    + exists rest'. split; [now rewrite <- Heq | exact Htail].
Qed.

Lemma startswith_app_long (u rest p : string) :
  String.length p <= String.length u ->
  startswith (u ++ rest) p = startswith u p.
Proof.
  revert u. induction p as [|c p IH]; intros u Hlen; [reflexivity|].
  destruct u as [|d u]; simpl in Hlen; [lia|].
  simpl. rewrite IH by lia. reflexivity.
Qed.

(** Whether [sep] begins inside [a] does not depend on what follows the
    separator that stands after [a]. *)
Lemma starts_inside_tail sep a x y :
  starts_inside sep a (sep ++ x) = starts_inside sep a (sep ++ y).
Proof.
  induction a as [|c a IH]; [reflexivity|].
  cbn [starts_inside]. rewrite IH. f_equal.
  assert (H : forall z, String c a ++ sep ++ z = (String c a ++ sep) ++ z)
    by (intros z; now rewrite string_app_assoc).
  assert (Hlen : String.length sep <= String.length (String c a ++ sep))
    by (rewrite string_length_app; simpl; lia).
  rewrite !H.
  rewrite (startswith_app_long _ x sep Hlen), (startswith_app_long _ y sep Hlen).
  reflexivity.
Qed.

(** ** A scan that matches no row ([process_new_scan]) *)

Section UnmatchedScan.

Variable py_float : string -> option float.
Variable py_int : string -> option Z.
Variable urlopen_error : string -> option exn.





End UnmatchedScan.




(** ** The page of the web lookup ([lookupdone]) *)

(** [s.split(opening)[1].split(closing)[0]] on a text that has [x]
    between the leftmost [opening] and the [closing] that follows it. *)
Lemma split_between opening closing pre x post :
  starts_inside opening pre (opening ++ x ++ closing ++ post) = false ->
  starts_inside opening (x ++ closing) post = false ->
  starts_inside closing x (closing ++ post) = false ->
  exists y,
    split_item1 opening (pre ++ opening ++ x ++ closing ++ post) = Some y
    /\ split_item0 closing y = x.
Proof.
  intros H1 H2 H3. unfold split_item1. rewrite (split_first_at opening pre _ H1).
  eexists. split; [reflexivity|].
  replace (x ++ closing ++ post) with ((x ++ closing) ++ post)
    by (now rewrite string_app_assoc).
  destruct (split_item0_keeps opening (x ++ closing) post H2) as [rest' [Hkeep _]].
  rewrite Hkeep, string_app_assoc.
  unfold split_item0 at 1.
  rewrite (split_first_at closing x rest')
    by (now rewrite (starts_inside_tail closing x rest' post)).
  reflexivity.
Qed.

Definition is_IndexError (e : exn) : bool :=
  match e with IndexError => true | _ => false end.

(** The opening tag [handle_html] looks for, the [id] in double quotes. *)
Definition manufacturer_div : string :=
  "<div id=" ++ String (ascii_of_nat 34)
                  ("divManufacturerPartNum" ++ String (ascii_of_nat 34) ">").

Section LookupDone.

Variable py_float : string -> option float.

(** [handle_html], the function [lookupdone] hands to the page. *)
Definition handle_html (html : string) : W unit :=
  try_except
    (in_div <- or_raise IndexError (split_item1 manufacturer_div html) ;;
     let pn := split_item0 "</div>" in_div in
     in_h1 <- or_raise IndexError (split_item1 "<h1>" pn) ;;
     let pn := split_item0 "</h1>" in_h1 in
     process_new_pn py_float pn true)
    is_IndexError
    (ret tt).

(** X18: [handle_html] never ends with [IndexError]; a page without the
    part-number block changes nothing; and on a page whose first
    part-number block holds a heading, the text of that heading is
    handed to the part-number matcher. *)
Theorem handle_html_outcome (s : MeatBagWindow) :
  (forall html, fst (handle_html html s) <> Raise IndexError)
  /\ (forall html,
        str_in manufacturer_div html = false ->
        handle_html html s = (Ok tt, s))
  /\ (forall pre a pn b post,
        let block := a ++ "<h1>" ++ pn ++ "</h1>" ++ b in
        let html := pre ++ manufacturer_div ++ block ++ "</div>" ++ post in
        starts_inside manufacturer_div pre
          (manufacturer_div ++ block ++ "</div>" ++ post) = false ->
        starts_inside manufacturer_div (block ++ "</div>") post = false ->
        starts_inside "</div>" block ("</div>" ++ post) = false ->
        starts_inside "<h1>" a ("<h1>" ++ pn ++ "</h1>" ++ b) = false ->
        starts_inside "<h1>" (pn ++ "</h1>") b = false ->
        starts_inside "</h1>" pn ("</h1>" ++ b) = false ->
        handle_html html s
        = try_except (process_new_pn py_float pn true) is_IndexError (ret tt) s).
Proof.
  split; [|split].
  - intros html. apply try_except_handled; [reflexivity | discriminate].
  - intros html Hno. unfold handle_html, try_except.
    unfold split_item1. rewrite (split_first_none _ _ Hno).
    reflexivity.
  - intros pre a pn b post. cbv zeta. intros H1 H2 H3 H4 H5 H6.
    destruct (split_between manufacturer_div "</div>" pre _ post H1 H2 H3)
      as [in_div [Hdiv Hblock]].
    destruct (split_between "<h1>" "</h1>" a pn b H4 H5 H6) as [in_h1 [Hh1 Hpn]].
    unfold handle_html, try_except.
    rewrite (bind_ok (or_raise IndexError _) _ s s in_div)
      by (now rewrite Hdiv).
    cbv zeta. rewrite Hblock.
    rewrite (bind_ok (or_raise IndexError _) _ s s in_h1)
      by (now rewrite Hh1).
    now rewrite Hpn.
Qed.

End LookupDone.

Lemma handle_html_outcome_witness :
  handle_html decimal_float
    ("<html>" ++ manufacturer_div ++ "<h1>RC0805-10K</h1>" ++ "</div>" ++ "</html>")
    altium_shown
  = try_except (process_new_pn decimal_float "RC0805-10K" true) is_IndexError
      (ret tt) altium_shown.
Proof.
  apply (proj2 (proj2 (handle_html_outcome decimal_float altium_shown))
           "<html>" "" "RC0805-10K" "" "</html>");
    vm_compute; reflexivity.
Defined.

(** ** Keys ([process_keystroke], [KeyAction]) *)

Lemma lower_ascii_plus c : Ascii.eqb "+" (lower_ascii c) = Ascii.eqb c "+".
Proof. destruct c as [[] [] [] [] [] [] [] []]; reflexivity. Qed.

Lemma lower_ascii_minus c : Ascii.eqb "-" (lower_ascii c) = Ascii.eqb c "-".
Proof. destruct c as [[] [] [] [] [] [] [] []]; reflexivity. Qed.

Lemma lower_ascii_a c :
  Ascii.eqb "a" (lower_ascii c) = Ascii.eqb c "a" || Ascii.eqb c "A".
Proof. destruct c as [[] [] [] [] [] [] [] []]; reflexivity. Qed.

(** [KeyAction.matches] for the three keys of [action_map]. *)
Lemma key_matches_keys txt :
  key_matches "+" txt = String.eqb txt "+"
  /\ key_matches "-" txt = String.eqb txt "-"
  /\ key_matches "a" txt = String.eqb txt "a" || String.eqb txt "A".
Proof.
  unfold key_matches. destruct txt as [|c [|d t]].
  - repeat split.
  - cbn [lower String.eqb].
    rewrite lower_ascii_plus, lower_ascii_minus, lower_ascii_a.
    repeat split;
      repeat match goal with
             | |- context [Ascii.eqb c ?x] => destruct (Ascii.eqb c x)
             end; reflexivity.
  - cbn [lower String.eqb].
    rewrite lower_ascii_plus, lower_ascii_minus, lower_ascii_a.
    repeat split;
      repeat match goal with
             | |- context [Ascii.eqb c ?x] => destruct (Ascii.eqb c x)
             end; reflexivity.
Qed.

Lemma marker_diameter_decrement_refused p :
  (marker_diameter p < 10)%Z -> marker_diameter_decrement p = (Ok false, p).
Proof.
  intros Hd. apply Z.ltb_lt in Hd.
  unfold marker_diameter_decrement, bind, gets. now rewrite Hd.
Qed.

Section Keys.

Variable py_float : string -> option float.

(** X19: a short scan that is none of [+], [-], [a] and [A] changes
    nothing (only the trace records it): a token of fewer than five
    characters is never looked up.  The key [-] with a marker diameter
    below ten changes nothing either and does not redraw.  The key [A]
    does what the key [a] does. *)
Theorem process_keystroke_keys (txt : string) (s : MeatBagWindow) :
  (txt <> "+" -> txt <> "-" -> txt <> "a" -> txt <> "A" ->
   process_keystroke py_float txt s
   = (Ok tt, set_calls (calls s ++ [process_keystroke_called txt])%list s))
  /\ ((marker_diameter (pcbpainter s) < 10)%Z ->
      process_keystroke py_float "-" s
      = (Ok tt,
         set_calls (calls s ++ [process_keystroke_called "-";
                                marker_diameter_decrement_called])%list s))
  /\ trigger_actions (action_map py_float) "A" false
     = trigger_actions (action_map py_float) "a" false.
Proof.
  split; [|split].
  - intros Hp Hm Ha HA. unfold process_keystroke, action_map.
    rewrite (bind_ok (entered _) _ s _ tt eq_refl).
    destruct (key_matches_keys txt) as [Kp [Km Ka]].
    cbn [trigger_actions]. rewrite Kp, Km, Ka.
    apply String.eqb_neq in Hp, Hm, Ha, HA. rewrite Hp, Hm, Ha, HA.
    reflexivity.
  - intros Hd. unfold process_keystroke, action_map.
    rewrite (bind_ok (entered _) _ s _ tt eq_refl).
    cbn [trigger_actions].
    change (key_matches "+" "-") with false.
    change (key_matches "-" "-") with true.
    change (key_matches "a" "-") with false. cbv iota.
    set (s1 := set_calls (calls s ++ [process_keystroke_called "-"])%list s).
    assert (Hcb : bind (entered marker_diameter_decrement_called)
                    (fun _ => on_painter marker_diameter_decrement) s1
                  = (Ok false,
                     set_calls (calls s ++ [process_keystroke_called "-";
                                            marker_diameter_decrement_called])%list s)).
    { rewrite (bind_ok (entered _) _ s1 _ tt eq_refl).
      unfold on_painter, lift_field.
      match goal with
      | |- context [marker_diameter_decrement ?p0] =>
          rewrite (marker_diameter_decrement_refused p0)
            by (unfold s1; destruct s; exact Hd)
      end.
      unfold s1. destruct s. cbn. now rewrite <- app_assoc. }
    rewrite (bind_ok _ _ s1 _ false (bind_ok _ _ s1 _ false Hcb)).
    reflexivity.
  - reflexivity.
Qed.

End Keys.


(** ** The layout profile chosen on the command line ([main]) *)

(** [csvSettingsAvailable], a dict from format names to profiles. *)
Definition csvSettingsAvailable : list (string * MeatBagCSVSettings) :=
  [ ("altium", MeatBagCSVSettingsAltium);
    ("eagle", MeatBagCSVSettingsAltium);
    ("kicad", MeatBagCSVSettingsKicadMultiLayer);
    ("default", MeatBagCSVSettingsAltium) ].

(** [d[key]] when [key in d]. *)
Fixpoint dict_get {A : Type} (key : string) (d : list (string * A)) : option A :=
  match d with
  | [] => None
  | (k, v) :: d' => if String.eqb key k then Some v else dict_get key d'
  end.

(** The profile [main] hands to the window for [--format format]. *)
Definition main_csvSettings (format : string) : MeatBagCSVSettings :=
  let csvSettings :=
    match dict_get "default" csvSettingsAvailable with
    | Some v => v
    | None => MeatBagCSVSettingsBase
    end in
  if negb (String.eqb format "") then
    match dict_get format csvSettingsAvailable with
    | Some v => v
    | None => csvSettings
    end
  else csvSettings.

(** X20: [main] selects the multi-layer KiCad profile for the format
    name [kicad], spelled exactly so, and the Altium profile for every
    other name, known or not; no name selects the single-layer KiCad
    profile, so a window started by [main] always has a layer column. *)
Theorem main_csvSettings_choice (format : string) :
  main_csvSettings format
  = (if String.eqb format "kicad" then MeatBagCSVSettingsKicadMultiLayer
     else MeatBagCSVSettingsAltium)
  /\ main_csvSettings format <> MeatBagCSVSettingsKicadSingleLayer
  /\ (0 <= col_layer (main_csvSettings format))%Z.
Proof.
  assert (H : main_csvSettings format
              = (if String.eqb format "kicad" then MeatBagCSVSettingsKicadMultiLayer
                 else MeatBagCSVSettingsAltium)).
  { unfold main_csvSettings, csvSettingsAvailable. cbn [dict_get].
    change (String.eqb "default" "altium") with false.
    change (String.eqb "default" "eagle") with false.
    change (String.eqb "default" "kicad") with false.
    change (String.eqb "default" "default") with true. cbv iota.
    destruct (String.eqb_spec format "kicad") as [->|Hk]; [reflexivity|].
    destruct (String.eqb format ""); cbn [negb]; [reflexivity|].
    destruct (String.eqb format "altium"); [reflexivity|].
    destruct (String.eqb format "eagle"); [reflexivity|].
    destruct (String.eqb format "default"); reflexivity. }
  rewrite H. split; [reflexivity|].
  destruct (String.eqb format "kicad"); split; try discriminate;
    simpl; lia.
Qed.

(** ** Loading a file ([parseCSVFile]) *)

Lemma update_table_for_selected_side_data :
  transforms (same_on all_components_data) update_table_for_selected_side.
Proof.
  unfold update_table_for_selected_side, recolourTable.
  transforms_with same_on_atom.
Qed.

Lemma accepted_rows_long file_rows :
  Forall (fun r => 4 <= List.length r) (accepted_rows file_rows).
Proof.
  apply Forall_forall. intros r Hr. unfold accepted_rows in Hr.
  apply filter_In in Hr. destruct Hr as [_ Hr].
  apply negb_true_iff in Hr. now apply Nat.ltb_ge in Hr.
Qed.

Lemma filter_all {A : Type} (test : A -> bool) (l : list A) :
  Forall (fun x => test x = true) l -> filter test l = l.
Proof.
  induction 1 as [|x l Hx Hl IH]; simpl; [reflexivity|].
  now rewrite Hx, IH.
Qed.

(** X21: [parseCSVFile] drops the lines of fewer than four fields.  When
    no line is left, only [all_components_data] is emptied: the table
    and the pools of the file shown before stay.  When a data line that
    the grouping step files has no field in the layer column, the load
    ends with [IndexError] and changes nothing.  Otherwise the first
    line left is the header and [all_components_data] holds, after it,
    the data lines longer than the value column, each once; with a value
    column among the first four these are all the data lines. *)
Theorem parseCSVFile_outcome (file_rows : list row) (s : MeatBagWindow) :
  let cfg := csv_settings s in
  (accepted_rows file_rows = [] ->
   parseCSVFile file_rows s = (Ok tt, set_all_components_data [] s))
  /\ (forall header_row data_rows,
        accepted_rows file_rows = header_row :: data_rows ->
        (existsb (lacks_layer cfg) data_rows = true ->
         parseCSVFile file_rows s = (Raise IndexError, s))
        /\ (existsb (lacks_layer cfg) data_rows = false ->
            exists body,
              all_components_data (snd (parseCSVFile file_rows s))
              = header_row :: body
              /\ Permutation body (filter (long_enough cfg) data_rows)
              /\ (col_com cfg < 4 -> Permutation body data_rows))).
Proof.
  cbv zeta. unfold parseCSVFile. fold (accepted_rows file_rows).
  rewrite (bind_ok (gets csv_settings) _ s s _ eq_refl).
  split.
  - intros ->. reflexivity.
  - intros header_row data_rows Hacc. rewrite Hacc.
    pose proof (build_groups_outcome (csv_settings s) data_rows []) as Hout.
    unfold group_components_by_value.
    destruct (build_groups (csv_settings s) data_rows []) as [d|e] eqn:Hbuild.
    + rewrite Hout. split; [discriminate|]. intros _.
      rewrite (bind_ok (lift_result _) _ s s _ eq_refl).
      rewrite (bind_ok (modify _) _ s _ tt eq_refl).
      rewrite update_table_for_selected_side_data.
      fold (grouped_rows (csv_settings s) d).
      exists (grouped_rows (csv_settings s) d).
      split; [now destruct s|].
      assert (Hperm : Permutation (grouped_rows (csv_settings s) d)
                        (filter (long_enough (csv_settings s)) data_rows)).
      { rewrite grouped_rows_permutation.
        exact (build_groups_rows (csv_settings s) data_rows [] d Hbuild). }
      split; [exact Hperm|]. intros Hcom.
      rewrite Hperm, filter_all; [reflexivity|].
      pose proof (accepted_rows_long file_rows) as Hlong. rewrite Hacc in Hlong.
      inversion Hlong as [|? ? _ Hdata]; subst.
      eapply Forall_impl; [|exact Hdata]. intros r Hr. cbv beta in Hr.
      unfold long_enough. apply negb_true_iff. apply Nat.leb_gt.
      unfold row in *. lia.
    + destruct Hout as [-> Hex]. rewrite Hex.
      split; [intros _; reflexivity | discriminate].
Qed.

Lemma parseCSVFile_outcome_witness :
  exists body,
    all_components_data (snd (parseCSVFile altium_file bench))
    = hd [] altium_file :: body
    /\ Permutation body (filter (long_enough MeatBagCSVSettingsAltium)
                           (tl (accepted_rows altium_file)))
    /\ (col_com MeatBagCSVSettingsAltium < 4 ->
        Permutation body (tl (accepted_rows altium_file))).
Proof.
  apply (proj2 (parseCSVFile_outcome altium_file bench)
           (hd [] altium_file) (tl (accepted_rows altium_file)));
    reflexivity.
Defined.

(** ** Showing all parts of one value ([toggle_draw_all_of_current_value]) *)

(** [m] returns only values that satisfy [P]. *)
Definition returns_only {S A : Type} (P : A -> Prop) (m : M S A) : Prop :=
  forall s a, fst (m s) = Ok a -> P a.

Lemma returns_only_ret {S A : Type} (P : A -> Prop) (a : A) :
  P a -> returns_only P (@ret S A a).
Proof. intros Ha s a' [= <-]. exact Ha. Qed.

Lemma returns_only_bind {S A B : Type} (P : B -> Prop) (m : M S A)
  (k : A -> M S B) :
  (forall a, returns_only P (k a)) -> returns_only P (bind m k).
Proof.
  intros Hk s b. unfold bind. destruct (m s) as [[a|e] s1]; [apply Hk|].
  discriminate.
Qed.

Section ToggleDrawAll.

Variable py_float : string -> option float.

Lemma update_placement_clears_flag s :
  drawing_all_same_value (snd (update_placement py_float s)) = false.
Proof.
  unfold update_placement. rewrite snd_bind. cbn [entered modify].
  rewrite snd_bind. cbn [modify].
  match goal with
  | |- drawing_all_same_value (snd (?m ?s1)) = _ =>
      assert (H : transforms (same_on drawing_all_same_value) m)
        by transforms_with same_on_atom;
      exact (H s1)
  end.
Qed.

(** X22: the key action [toggle_draw_all_of_current_value] never asks for
    a redraw (it returns a false value on every path); without a cursor,
    or with the cursor on row 0, it changes nothing; and when the parts
    of one value are being shown it goes back to the one marker of
    [update_placement] and clears the flag. *)
Theorem toggle_draw_all_outcome (s : MeatBagWindow) :
  let run := toggle_draw_all_of_current_value py_float s in
  let entered_s :=
    set_calls (calls s ++ [toggle_draw_all_of_current_value_called])%list s in
  (forall b, fst run = Ok b -> b = false)
  /\ (cur_placement s = None \/ cur_placement s = Some 0 ->
      run = (Ok false, entered_s))
  /\ (forall c,
        cur_placement s = Some (S c) ->
        drawing_all_same_value s = true ->
        drawing_all_same_value (snd run) = false
        /\ calls (snd run)
           = (calls s ++ [toggle_draw_all_of_current_value_called;
                          update_placement_called])%list).
Proof.
  cbv zeta. split; [|split].
  - assert (H : returns_only (fun b => b = false)
                  (toggle_draw_all_of_current_value py_float)).
    { unfold toggle_draw_all_of_current_value.
      repeat match goal with
             | |- returns_only _ (bind _ _) => apply returns_only_bind; intros ?
             | |- returns_only _ (ret _) => apply returns_only_ret; reflexivity
             | |- returns_only _ (match ?x with _ => _ end) => destruct x
             end. }
    apply H.
  - intros Hcur. unfold toggle_draw_all_of_current_value.
    rewrite (bind_ok (entered _) _ s _ tt eq_refl).
    match goal with
    | |- bind (gets cur_placement) ?k ?s1 = _ =>
        rewrite (bind_ok (gets cur_placement) k s1 s1 (cur_placement s))
          by (unfold gets; now destruct s)
    end.
    destruct Hcur as [-> | ->]; reflexivity.
  - intros c Hcur Hflag. unfold toggle_draw_all_of_current_value.
    rewrite (bind_ok (entered _) _ s _ tt eq_refl).
    match goal with
    | |- context [bind (gets cur_placement) ?k ?s1] =>
        rewrite (bind_ok (gets cur_placement) k s1 s1 (Some (S c)))
          by (unfold gets; rewrite <- Hcur; now destruct s)
    end.
    match goal with
    | |- context [bind (gets drawing_all_same_value) ?k ?s1] =>
        rewrite (bind_ok (gets drawing_all_same_value) k s1 s1 true)
          by (unfold gets; rewrite <- Hflag; now destruct s)
    end.
    rewrite (bind_ok (modify _) _ _ _ tt eq_refl).
    match goal with
    | |- context [bind (update_placement py_float) ?k ?s2] =>
        pose proof (update_placement_clears_flag s2) as Hclear;
        pose proof (update_placement_trace py_float s2) as Htrace;
        rewrite !snd_bind;
        destruct (update_placement py_float s2) as [[[]|e] s3]
    end; cbn [snd ret] in *; rewrite Hclear, Htrace;
      (split; [reflexivity|]); destruct s; cbn; now rewrite <- app_assoc.
Qed.

End ToggleDrawAll.


(** ** The cursor and its marker ([find_next_placement], [update_placement]) *)

Lemma first_unplaced_all_placed t parts :
  first_unplaced t parts = Ok None -> Forall (placed_in t) parts.
Proof.
  induction parts as [|p parts IH]; simpl; [constructor|].
  destruct (item_checked_opt t p) as [[|]|] eqn:Hp; try discriminate.
  intros H. constructor; [exact Hp | now apply IH].
Qed.

Lemma first_unplaced_returns t parts :
  Forall (fun p => item_checked_opt t p <> None) parts ->
  exists o, first_unplaced t parts = Ok o.
Proof.
  induction 1 as [|p parts Hp Hparts IH]; simpl; [now eexists|].
  destruct (item_checked_opt t p) as [[|]|]; [exact IH | now eexists | congruence].
Qed.

Section CursorMarker.

Variable py_float : string -> option float.

(** X23: [find_next_placement] puts the cursor on the first row of the
    active side's match list whose box is not checked: the rows of the
    list before the cursor are placed, and there is no cursor exactly
    when every row of the list is placed.  It changes neither the table
    nor the two lists. *)
Theorem find_next_placement_first_unplaced (s : MeatBagWindow) (parts : list nat) :
  active_list s = Some parts ->
  Forall (fun p => item_checked_opt (table s) p <> None) parts ->
  let s' := snd (find_next_placement py_float s) in
  (cur_placement s' = None <-> Forall (placed_in (table s)) parts)
  /\ (forall r, cur_placement s' = Some r ->
        exists pre post,
          parts = (pre ++ r :: post)%list
          /\ Forall (placed_in (table s)) pre
          /\ item_checked_opt (table s) r = Some false)
  /\ table s' = table s
  /\ topDesList s' = topDesList s
  /\ botDesList s' = botDesList s.
Proof.
  intros Hparts Hboxes. cbv zeta.
  destruct (find_next_placement_run py_float s parts Hparts)
    as [Hcur [Htable [Htop [Hbot _]]]].
  destruct (first_unplaced_returns (table s) parts Hboxes) as [o Ho].
  rewrite Hcur, Ho. split; [|split; [|now repeat split]].
  - destruct o as [p|]; split; try discriminate.
    + intros Hall. rewrite (first_unplaced_none _ _ Hall) in Ho. discriminate.
    + intros _. now apply first_unplaced_all_placed.
    + reflexivity.
  - intros r Hr. destruct o as [p|]; [|discriminate]. injection Hr as ->.
    now apply first_unplaced_found.
Qed.

(** X24: with the cursor on a row whose designator, coordinates and layer
    can be read, and an image that is not null, [update_placement] shows
    the designator of the row as the current placement and leaves one
    marker on the display, at the pixel of the row's coordinates,
    mirrored exactly when the row is on the bottom side; the flag of the
    all-of-one-value display is cleared. *)
Theorem update_placement_shows_cursor (s : MeatBagWindow) (c : nat)
  (des : string) (x y : float) (top : bool) (W H x_int y_int : Z) :
  let cfg := csv_settings s in
  let p := pcbpainter s in
  cur_placement s = Some c ->
  item_text_opt (table s) c (col_des cfg) = Some des ->
  cell_float py_float (table s) c (col_x cfg) = Ok x ->
  cell_float py_float (table s) c (col_y cfg) = Ok y ->
  layer_side cfg (table s) c = Ok top ->
  image_size p = (W, H) -> W <> 0%Z -> H <> 0%Z ->
  to_pixel x y (pcbwidth p) (pcbheight p) W H (negb top) = Ok (x_int, y_int) ->
  let s' := snd (update_placement py_float s) in
  fst (update_placement py_float s) = Ok tt
  /\ place s' = des
  /\ displayed (pcbpainter s') = [(x_int, y_int, marker_diameter p)]
  /\ drawing_all_same_value s' = false
  /\ cur_placement s' = Some c.
Proof.
  cbv zeta. intros Hcur Hdes Hx Hy Hside Hsize HW HH Hpix.
  unfold update_placement.
  rewrite (bind_ok (entered _) _ s _ tt eq_refl).
  rewrite (bind_ok (modify _) _ _ _ tt eq_refl).
  set (s1 := set_drawing_all_same_value false
               (set_calls (calls s ++ [update_placement_called])%list s)).
  assert (Ht1 : table s1 = table s) by (now destruct s).
  assert (Hc1 : csv_settings s1 = csv_settings s) by (now destruct s).
  rewrite (bind_ok (gets cur_placement) _ s1 s1 (Some c))
    by (unfold gets, s1; rewrite <- Hcur; now destruct s).
  rewrite (bind_ok (gets csv_settings) _ s1 s1 (csv_settings s))
    by (unfold gets; now rewrite Hc1).
  rewrite (bind_ok (item_text c _) _ s1 s1 des)
    by (now rewrite item_text_run, Ht1, Hdes).
  rewrite (bind_ok (modify _) _ s1 _ tt eq_refl).
  set (s2 := set_place des s1).
  assert (Ht2 : table s2 = table s) by (now destruct s).
  assert (Hc2 : csv_settings s2 = csv_settings s) by (now destruct s).
  rewrite (bind_ok (item_float py_float c _) _ s2 s2 x)
    by (now rewrite item_float_run, Ht2, Hx).
  rewrite (bind_ok (item_float py_float c _) _ s2 s2 y)
    by (now rewrite item_float_run, Ht2, Hy).
  rewrite (bind_ok (isTopLayer c) _ s2 s2 top)
    by (now rewrite isTopLayer_run, Ht2, Hc2, Hside).
  unfold on_painter, lift_field.
  replace (pcbpainter s2) with (pcbpainter s) by (now destruct s).
  rewrite (xy_to_draw_ok x y (negb top) (pcbpainter s) W H x_int y_int
             Hsize HW HH Hpix).
  cbn [fst snd]. clear Hpix Hx Hy Hside Hdes.
  split; [reflexivity|]. split; [now destruct s|].
  split; [now destruct s|]. split; [now destruct s|].
  rewrite <- Hcur. now destruct s.
Qed.

End CursorMarker.

Lemma find_next_placement_first_unplaced_witness :
  cur_placement (snd (find_next_placement decimal_float resistors_scanned)) = None
  <-> Forall (placed_in (table resistors_scanned)) [2; 3].
Proof.
  apply (find_next_placement_first_unplaced decimal_float resistors_scanned [2; 3]).
  - vm_compute. reflexivity.
  - repeat constructor; vm_compute; discriminate.
Defined.

Lemma update_placement_shows_cursor_witness :
  place (snd (update_placement decimal_float resistors_scanned)) = "R1"
  /\ displayed (pcbpainter (snd (update_placement decimal_float resistors_scanned)))
     = [(80, 360, 20)%Z].
Proof.
  assert (HW : 800%Z <> 0%Z) by discriminate.
  assert (HH : 600%Z <> 0%Z) by discriminate.
  destruct (update_placement_shows_cursor decimal_float resistors_scanned 2 "R1"
              10 20 true 800 600 80 360
              ltac:(vm_compute; reflexivity) ltac:(vm_compute; reflexivity)
              ltac:(vm_compute; reflexivity) ltac:(vm_compute; reflexivity)
              ltac:(vm_compute; reflexivity) ltac:(vm_compute; reflexivity)
              HW HH ltac:(vm_compute; reflexivity))
    as [_ [Hplace [Hshown _]]].
  split; [exact Hplace | exact Hshown].
Defined.
